(** * Nested table renderer: expansion state and row materializer

    A shallow embedding of [components/Table/index.tsx] (the side of the
    file that identifies rows by string keys) and the properties of its
    nested-row expansion engine.

    Conventions of the embedding.
    - A JavaScript exception is a value of [result]: [Throw e].  A loop or a
      recursion whose length depends on a collaborator is given a fuel
      argument and answers [OutOfFuel] when it is exhausted; fuel is spent
      only where the source iterates or recurses.
    - [undefined] for an optional property is [None].
    - Callbacks whose return value the component never reads ([onExpand],
      [onCollapse], [onRowClick], [preExpandRightPanel]) and styling
      (padding, widths, class names) do not take part in the rows that are
      produced and are left out of the row values.  The formatter of the
      children is a function: the embedding covers the runs in which the
      formatter and the callbacks return.
    - [OutOfFuel] is also the answer of the matcher of the examples for a
      pattern or a text it does not interpret. *)

From Stdlib Require Import List String Ascii Bool Arith ZArith Lia.
Import ListNotations.
Local Open Scope string_scope.
Local Open Scope list_scope.

Set Implicit Arguments.

(** ** Exceptions and results *)

Inductive JsError : Type :=
| TypeError
| RangeError
| SyntaxError
| Error (message : string).

Inductive result (A : Type) : Type :=
| Ok (a : A)
| Throw (e : JsError)
| OutOfFuel.

Arguments Ok {A} a.
Arguments Throw {A} e.
Arguments OutOfFuel {A}.

Definition bind {A B : Type} (m : result A) (k : A -> result B) : result B :=
  match m with
  | Ok a => k a
  | Throw e => Throw e
  | OutOfFuel => OutOfFuel
  end.

Notation "x <- m ;; k" := (bind m (fun x => k))
  (at level 61, m at next level, right associativity).
Notation "' pat <- m ;; k" := (bind m (fun x => match x with pat => k end))
  (at level 61, pat pattern, m at next level, right associativity).

(** ** JavaScript helpers *)

(** [Array.prototype.includes] on an array of strings. *)
Definition includes (l : list string) (k : string) : bool :=
  existsb (String.eqb k) l.

(** [String.prototype.repeat]. *)
Fixpoint str_repeat (s : string) (n : nat) : string :=
  match n with
  | O => ""
  | S n' => s ++ str_repeat s n'
  end.

(** String concatenation with a possibly undefined left operand. *)
Definition js_to_string (s : option string) : string :=
  match s with
  | Some v => v
  | None => "undefined"
  end.

(** ** Data model *)

Record ContentType : Type := mkContent {
  title : string;
  contentNestedLevel : option nat
}.

(** A property value as the table sees it: [undefined], [null], a string, a
    boolean, a content object, or another object, array or function, into
    which the table does not look. *)
Inductive JsValue : Type :=
| JsUndefined
| JsNull
| JsSome (v : string)
| JsBool (b : bool)
| JsContent (c : ContentType)
| JsObject.

(** [FormattedDataType], the row object.  The same shape serves for the raw
    type metadata nodes that hang below [typeMetadata] and [children]: the
    code reads [key], [kind], [children] on both.  The properties the
    component reads by name are the fields of the record.  [props] is the
    list of the object's own properties in the order in which
    [Object.entries] gives them; the properties held by the record are
    listed in it under their names, which gives them their place in that
    order ([listsItsFields] below). *)
#[warnings="-register-all"]
Inductive FormattedDataType : Type := mkRow {
  key : string;
  name : string;
  kind : option string;
  isExpandable : bool;
  typeMetadata : option FormattedDataType;
  children : option (list FormattedDataType);
  content : ContentType;
  props : list (string * JsValue)
}.

Inductive TextAlignmentValues : Type := left | right | center.

Record TableColumn : Type := mkColumn {
  columnTitle : string;
  field : string;
  horAlign : option TextAlignmentValues;
  width : option nat
}.

(** Induction over a row and everything nested below it. *)
Section RowInduction.
Variable P : FormattedDataType -> Prop.
Hypothesis step :
  forall k n kd e tm ch c ps,
    (forall t, tm = Some t -> P t) ->
    (forall l, ch = Some l -> Forall P l) ->
    P (mkRow k n kd e tm ch c ps).

Fixpoint row_nested_ind (r : FormattedDataType) : P r :=
  match r with
  | mkRow k n kd e tm ch c ps =>
      step k n kd e c ps
        (match tm as o return forall t, o = Some t -> P t with
         | Some t0 => fun t H =>
             match H in _ = s return match s with Some t' => P t' | None => True end with
             | eq_refl => row_nested_ind t0
             end
         | None => fun t H => match H with eq_refl => I end
         end)
        (match ch as o return forall l, o = Some l -> Forall P l with
         | Some l0 => fun l H =>
             match H in _ = s return match s with Some l' => Forall P l' | None => True end with
             | eq_refl =>
                 (fix all (xs : list FormattedDataType) : Forall P xs :=
                    match xs with
                    | [] => Forall_nil P
                    | x :: xs' => Forall_cons x (row_nested_ind x) (all xs')
                    end) l0
             end
         | None => fun l H => match H with eq_refl => I end
         end)
  end.
End RowInduction.

(** ** Constants

    The constants module of the table ([ARRAY_KIND], [MAP_KEY_NAME],
    [COLUMN_NAME_REGEX], ...) is imported by the component; the component is
    embedded over any choice of them. *)
Record TableConstants : Type := mkConstants {
  ARRAY_KIND : string;
  MAP_KIND : string;
  ARRAY_LABEL : string;
  ARRAY_OPENER : string;
  ARRAY_CLOSER : string;
  MAP_LABEL : string;
  MAP_OPENER : string;
  MAP_CLOSER : string;
  MAP_KEY_NAME : string;
  MAP_VALUE_NAME : string;
  MAP_KEY_DISPLAY_NAME : string;
  MAP_VALUE_DISPLAY_NAME : string;
  COLUMN_NAME_REGEX : string;
  TYPE_METADATA_REGEX : string
}.

Definition INVALID_DATA_ERROR_MESSAGE : string :=
  "Invalid data! Your data does not contain the fields specified on the columns property.".

(** ** Validation of the data against the columns *)

(** The value of an own property that the record holds: [None] when [f] is
    not the name of one, or names an optional one that is left out. *)
Definition fieldValue (row : FormattedDataType) (f : string) : option JsValue :=
  if String.eqb f "key" then Some (JsSome (key row))
  else if String.eqb f "name" then Some (JsSome (name row))
  else if String.eqb f "isExpandable" then Some (JsBool (isExpandable row))
  else if String.eqb f "content" then Some (JsContent (content row))
  else if String.eqb f "kind" then option_map JsSome (kind row)
  else if String.eqb f "typeMetadata"
       then option_map (fun _ => JsObject) (typeMetadata row)
  else if String.eqb f "children"
       then option_map (fun _ => JsObject) (children row)
  else None.

(** The properties every object inherits from [Object.prototype]. *)
Definition inheritedProperties : list string :=
  ["constructor"; "hasOwnProperty"; "isPrototypeOf"; "propertyIsEnumerable";
   "toLocaleString"; "toString"; "valueOf"; "__proto__";
   "__defineGetter__"; "__defineSetter__";
   "__lookupGetter__"; "__lookupSetter__"].

(** [row[field]]: the own property of that name, one the record holds or
    the first entry of that name, which hides an inherited one also when
    its value is [undefined]; else the inherited property, an object; else
    [undefined]. *)
Definition getProp (row : FormattedDataType) (f : string) : JsValue :=
  match fieldValue row f with
  | Some v => v
  | None =>
      match find (fun entry => String.eqb (fst entry) f) (props row) with
      | Some entry => snd entry
      | None =>
          if existsb (String.eqb f) inheritedProperties then JsObject
          else JsUndefined
      end
  end.

(** The entries of a row agree with its fields: a property the record holds
    is listed under its name with that value. *)
Definition listsItsFields (row : FormattedDataType) : Prop :=
  forall f v, fieldValue row f = Some v ->
              find (fun entry => String.eqb (fst entry) f) (props row)
              = Some (f, v).

(** [{...object, [f]: v}] on the entries: the value of the entry named [f]
    is replaced where it stands; when there is none, the entry is added at
    the end. *)
Fixpoint setProp (f : string) (v : JsValue) (ps : list (string * JsValue))
  : list (string * JsValue) :=
  match ps with
  | [] => [(f, v)]
  | (k, w) :: ps' =>
      if String.eqb k f then (k, v) :: ps' else (k, w) :: setProp f v ps'
  end.

Definition isUndefined (v : JsValue) : bool :=
  match v with
  | JsUndefined => true
  | _ => false
  end.

Definition fieldIsDefined (f : string) (row : FormattedDataType) : bool :=
  negb (isUndefined (getProp row f)).

(** The [for] loop over the fields, leaving at the first field that no row
    defines. *)
Fixpoint checkIfValidData (data : list FormattedDataType) (fields : list string)
  : bool :=
  match fields with
  | [] => true
  | f :: fields' =>
      if negb (existsb (fieldIsDefined f) data) then false
      else checkIfValidData data fields'
  end.

(** ** Expansion state *)

(** What a click on the expanding button of row [rowKey] does: the new array
    handed to [setExpandedRows], and the callback that is fired. *)
Inductive ExpandEvent : Type :=
| onExpand (rowKey : string)
| onCollapse (rowKey : string).

Definition isExpanded (expandedRows : list string) (rowKey : string) : bool :=
  includes expandedRows rowKey.

Definition newExpandedRows (expandedRows : list string) (rowKey : string)
  : list string :=
  if isExpanded expandedRows rowKey
  then filter (fun k => negb (String.eqb k rowKey)) expandedRows
  else expandedRows ++ [rowKey].

Definition handleExpandButton (expandedRows : list string) (rowKey : string)
  : list string * ExpandEvent :=
  (newExpandedRows expandedRows rowKey,
   if isExpanded expandedRows rowKey then onCollapse rowKey else onExpand rowKey).

(** ** All column keys *)

(** The keys contributed by one column to the reduction: its own key, then
    [childKeys], taken below the children of its type metadata when that
    list has a length, else below its own children when that list has a
    length. *)
Fixpoint columnKeys (col : FormattedDataType) : list string :=
  let childKeys :=
    match typeMetadata col with
    | Some tm =>
        match children tm with
        | Some (c :: cs) =>
            fold_left (fun prevKeys c' => prevKeys ++ columnKeys c') (c :: cs) []
        | _ =>
            match children col with
            | Some (c :: cs) =>
                fold_left (fun prevKeys c' => prevKeys ++ columnKeys c') (c :: cs) []
            | _ => []
            end
        end
    | None =>
        match children col with
        | Some (c :: cs) =>
            fold_left (fun prevKeys c' => prevKeys ++ columnKeys c') (c :: cs) []
        | _ => []
        end
    end in
  key col :: childKeys.

Definition getAllColumnKeys (columns : list FormattedDataType) : list string :=
  fold_left (fun prevKeys col => prevKeys ++ columnKeys col) columns [].

(** The rows one level below a column, as the key walk sees them. *)
Definition nestedColumns (col : FormattedDataType) : list FormattedDataType :=
  match typeMetadata col with
  | Some tm =>
      match children tm with
      | Some (c :: cs) => c :: cs
      | _ =>
          match children col with
          | Some (c :: cs) => c :: cs
          | _ => []
          end
      end
  | None =>
      match children col with
      | Some (c :: cs) => c :: cs
      | _ => []
      end
  end.

(** The rows of the tree the key walk visits. *)
Inductive InTree : list FormattedDataType -> FormattedDataType -> Prop :=
| InTree_top : forall data x, In x data -> InTree data x
| InTree_nested : forall data p x,
    In p data -> InTree (nestedColumns p) x -> InTree data x.

(** ** Keys to expand for a deep link *)

Section KeysToExpand.
Variable K : TableConstants.

(** [String.prototype.match] with a pattern given as a string: the matched
    text [match[0]], [None] for [null]; a pattern that is not a regular
    expression throws. *)
Variable String_match : string -> string -> result (option string).

(** The [while] loop: one more key per match of the lengthened pattern. *)
Fixpoint nextKeys (fuel : nat) (preExpandPanelKey nextKeyRegex : string)
         (keysToExpand : list string) : result (list string) :=
  nextKey <- String_match preExpandPanelKey nextKeyRegex ;;
  match nextKey with
  | None => Ok keysToExpand
  | Some k =>
      match fuel with
      | O => OutOfFuel
      | S fuel' =>
          nextKeys fuel' preExpandPanelKey
                   (nextKeyRegex ++ COLUMN_NAME_REGEX K)%string
                   (keysToExpand ++ [k])
      end
  end.

Definition getKeysToExpand (fuel : nat) (preExpandPanelKey tableKey : option string)
  : result (list string) :=
  match preExpandPanelKey with
  | None => Ok []
  | Some "" => Ok []
  | Some target =>
      let columnKeyRegex := (js_to_string tableKey ++ COLUMN_NAME_REGEX K)%string in
      columnKey <- String_match target columnKeyRegex ;;
      let keysToExpand :=
        match columnKey with
        | Some k => [k]
        | None => []
        end in
      nextKeys fuel target (columnKeyRegex ++ TYPE_METADATA_REGEX K)%string keysToExpand
  end.

(** [allColumnKeys.length <= maxNumRows]; the comparison with an undefined
    maximum is false. *)
Definition lengthAtMost (allColumnKeys : list string) (maxNumRows : option nat)
  : bool :=
  match maxNumRows with
  | Some m => Nat.leb (List.length allColumnKeys) m
  | None => false
  end.

Definition getInitialExpandedRows (fuel : nat) (data : list FormattedDataType)
           (allColumnKeys : list string) (maxNumRows : option nat)
           (preExpandPanelKey tableKey : option string) : result (list string) :=
  if lengthAtMost allColumnKeys maxNumRows
  then Ok allColumnKeys
  else getKeysToExpand fuel preExpandPanelKey tableKey.

(** The initial state of [useTableHooks]. *)
Definition initialExpandedRows (fuel : nat) (data : list FormattedDataType)
           (maxNumRows : option nat) (preExpandPanelKey tableKey : option string)
  : result (list string) :=
  getInitialExpandedRows fuel data (getAllColumnKeys data) maxNumRows
                         preExpandPanelKey tableKey.
End KeysToExpand.

(** What the mount effect [expandOrCollapseAllRows] does with the state. *)
Inductive ExpandAllEffect : Type :=
| setExpandedRows (keys : list string)
| toggleExpandingRows
| noEffect.

Definition expandOrCollapseAllRows (allColumnKeys : list string)
           (shouldExpandAllRows : option bool) (initialRows : list string)
           (maxNumRows : option nat) (hasToggle : bool) : ExpandAllEffect :=
  match shouldExpandAllRows with
  | Some true => setExpandedRows allColumnKeys
  | Some false => setExpandedRows []
  | None =>
      match maxNumRows with
      | Some (S m) =>
          if Nat.ltb (S m) (List.length allColumnKeys) then
            if Nat.ltb 0 (List.length initialRows) then setExpandedRows initialRows
            else if hasToggle then toggleExpandingRows
            else noEffect
          else noEffect
      | _ => noEffect
      end
  end.

(** ** The rows that are rendered *)

(** The elements [getTableRows] returns: a [<TableRow>] for a row of the
    data, the opener and closer [<tr>] of a specific type with the two labels
    of its first cell and the number of placeholder cells, or [null]. *)
Inductive ReactNode : Type :=
| RNull
| TableRow (rowValues : FormattedDataType) (level : nat)
| OpenerRow (rowKey arrayOpenerLabel mapOpenerLabel : string)
            (level placeholders : nat)
| CloserRow (rowKey mapCloserLabel arrayCloserLabel : string)
            (level placeholders : nat).

Record TableRowDetails : Type := mkDetails {
  data : list FormattedDataType;
  columns : list TableColumn;
  expandedRows : list string;
  formatChildrenData : option (FormattedDataType -> nat -> FormattedDataType);
  nestedLevel : nat
}.

(** [Array.prototype.map] with the index handed to the callback. *)
Fixpoint mapFrom {A B : Type} (f : A -> nat -> B) (i : nat) (l : list A) : list B :=
  match l with
  | [] => []
  | x :: l' => f x i :: mapFrom f (S i) l'
  end.

Definition arrayMap {A B : Type} (f : A -> nat -> B) (l : list A) : list B :=
  mapFrom f 0 l.

(** [Array(n)] spread into a list: [n] holes, or a [RangeError] for a
    negative length. *)
Definition arrayOfLength (n : Z) : result nat :=
  if (n <? 0)%Z then Throw RangeError else Ok (Z.to_nat n).

Section Materializer.
Variable K : TableConstants.

Definition kindIs (k : string) (row : FormattedDataType) : bool :=
  match kind row with
  | Some s => String.eqb s k
  | None => false
  end.

(** Each child is copied with a new [content], the old one with the
    display name as [title]: the field of the record and the entry of that
    name are both replaced. *)
Definition updateMapDisplayNames (childrenData : list FormattedDataType)
  : list FormattedDataType :=
  map (fun child =>
         let displayName :=
           if String.eqb (name child) (MAP_KEY_NAME K) then MAP_KEY_DISPLAY_NAME K
           else if String.eqb (name child) (MAP_VALUE_NAME K)
                then MAP_VALUE_DISPLAY_NAME K
                else name child in
         let newContent :=
           mkContent displayName (contentNestedLevel (content child)) in
         mkRow (key child) (name child) (kind child) (isExpandable child)
               (typeMetadata child) (children child)
               newContent
               (setProp "content" (JsContent newContent) (props child)))
      childrenData.

Section WithFormatter.
Variable format : FormattedDataType -> nat -> FormattedDataType.

Definition getFormattedChildrenData (item : FormattedDataType)
  : result (list FormattedDataType) :=
  match typeMetadata item with
  | Some tm => Ok (arrayMap format [tm])
  | None =>
      match children item with
      | Some cs => Ok (arrayMap format cs)
      | None => Throw TypeError
      end
  end.

(** The [while] loop over the array kinds, from the row to display and
    the count reached so far. *)
Fixpoint skipArrays (fuel : nat) (rowValuesToDisplay : FormattedDataType)
         (arrayCount : nat) : result (FormattedDataType * nat) :=
  if kindIs (ARRAY_KIND K) rowValuesToDisplay then
    match fuel with
    | O => OutOfFuel
    | S fuel' =>
        formattedChildren <- getFormattedChildrenData rowValuesToDisplay ;;
        match formattedChildren with
        | [] => Throw TypeError
        | first :: _ =>
            if isExpandable first then skipArrays fuel' first (S arrayCount)
            else if kindIs (ARRAY_KIND K) first
                 then Ok (rowValuesToDisplay, S (S arrayCount))
                 else Ok (rowValuesToDisplay, S arrayCount)
        end
    end
  else Ok (rowValuesToDisplay, arrayCount).

Definition handleSpecificTypeRowData (fuel : nat)
           (initialRowValues : FormattedDataType)
  : result (FormattedDataType * list FormattedDataType * nat) :=
  initial <-
    match typeMetadata initialRowValues with
    | Some _ =>
        formattedChildren <- getFormattedChildrenData initialRowValues ;;
        match formattedChildren with
        | first :: _ => Ok first
        | [] => Throw TypeError
        end
    | None => Ok initialRowValues
    end ;;
  '(rowValuesToDisplay, arrayCount) <- skipArrays fuel initial 0 ;;
  if kindIs (ARRAY_KIND K) rowValuesToDisplay then
    Ok (rowValuesToDisplay, [], arrayCount)
  else
    formattedChildren <- getFormattedChildrenData rowValuesToDisplay ;;
    if kindIs (MAP_KIND K) rowValuesToDisplay then
      Ok (rowValuesToDisplay, updateMapDisplayNames formattedChildren, arrayCount)
    else
      Ok (rowValuesToDisplay, formattedChildren, arrayCount).
End WithFormatter.

Definition hasSpecificTypeHandling (rowValuesToDisplay : FormattedDataType)
           (arrayCount : nat) : bool :=
  Nat.ltb 0 arrayCount || kindIs (MAP_KIND K) rowValuesToDisplay.

Definition arrayOpenerLabelOf (arrayCount : nat) : string :=
  if Nat.ltb 0 arrayCount
  then (ARRAY_LABEL K ++ str_repeat (ARRAY_OPENER K) arrayCount)%string
  else "".

Definition mapOpenerLabelOf (rowValuesToDisplay : FormattedDataType) : string :=
  if kindIs (MAP_KIND K) rowValuesToDisplay
  then (MAP_LABEL K ++ MAP_OPENER K)%string
  else "".

Definition arrayCloserLabelOf (arrayCount : nat) : string :=
  if Nat.ltb 0 arrayCount then str_repeat (ARRAY_CLOSER K) arrayCount else "".

Definition mapCloserLabelOf (rowValuesToDisplay : FormattedDataType) : string :=
  if kindIs (MAP_KIND K) rowValuesToDisplay then MAP_CLOSER K else "".

Definition getSpecificTypeOpenerRow (rowValuesToDisplay : FormattedDataType)
           (arrayCount level : nat) (additionalTableColCount : Z)
  : result ReactNode :=
  if negb (hasSpecificTypeHandling rowValuesToDisplay arrayCount) then Ok RNull
  else
    placeholders <- arrayOfLength additionalTableColCount ;;
    Ok (OpenerRow (key rowValuesToDisplay)
                  (arrayOpenerLabelOf arrayCount)
                  (mapOpenerLabelOf rowValuesToDisplay)
                  level placeholders).

Definition getSpecificTypeCloserRow (rowValuesToDisplay : FormattedDataType)
           (arrayCount level : nat) (additionalTableColCount : Z)
  : result ReactNode :=
  if negb (hasSpecificTypeHandling rowValuesToDisplay arrayCount) then Ok RNull
  else
    placeholders <- arrayOfLength additionalTableColCount ;;
    Ok (CloserRow (key rowValuesToDisplay)
                  (mapCloserLabelOf rowValuesToDisplay)
                  (arrayCloserLabelOf arrayCount)
                  level placeholders).

(** One step of the reduction over the data: the rows so far, then the
    rows of [item].  [recurse] is the call of [getTableRows] on the
    formatted children, one level deeper; there is none when the fuel is
    spent. *)
Definition tableRowsStep (d : TableRowDetails) (fuel : nat)
           (recurse : option (TableRowDetails -> result (list ReactNode)))
           (prevRows : result (list ReactNode)) (item : FormattedDataType)
  : result (list ReactNode) :=
  prev <- prevRows ;;
  let parentRow := TableRow item (nestedLevel d) in
  match formatChildrenData d with
  | Some format =>
      if isExpandable item && includes (expandedRows d) (key item) then
        '(rowValuesToDisplay, formattedChildren, arrayCount) <-
          handleSpecificTypeRowData format fuel item ;;
        let additionalTableColCount :=
          (Z.of_nat (List.length (columns d)) - 1)%Z in
        openerRow <- getSpecificTypeOpenerRow rowValuesToDisplay arrayCount
                       (nestedLevel d) additionalTableColCount ;;
        closerRow <- getSpecificTypeCloserRow rowValuesToDisplay arrayCount
                       (nestedLevel d) additionalTableColCount ;;
        nested <-
          match recurse with
          | None => OutOfFuel
          | Some getRows =>
              getRows (mkDetails formattedChildren (columns d)
                                 (expandedRows d) (formatChildrenData d)
                                 (S (nestedLevel d)))
          end ;;
        Ok (prev ++ [parentRow; openerRow] ++ nested ++ [closerRow])
      else Ok (prev ++ [parentRow])
  | None => Ok (prev ++ [parentRow])
  end.

Fixpoint getTableRows (fuel : nat) (tableRowDetails : TableRowDetails)
  : result (list ReactNode) :=
  fold_left
    (tableRowsStep tableRowDetails fuel
       match fuel with
       | O => None
       | S fuel' => Some (getTableRows fuel')
       end)
    (data tableRowDetails) (Ok []).
End Materializer.

(** ** The table component *)

Inductive TableBody : Type :=
| EmptyRow
| Rows (rows : list ReactNode)
| ShimmeringBody.

(** What the hooks of the table keep from one render to the next: the
    state of [useState], and the memo of the initial rows with the
    dependency it was computed for, the key of the panel to expand. *)
Record TableHooks : Type := mkHooks {
  hookExpandedRows : list string;
  memoPanelKey : option string;
  memoInitialRows : list string
}.

(** The comparison of a dependency with the one of the last render. *)
Definition sameDependency (a b : option string) : bool :=
  match a, b with
  | Some x, Some y => String.eqb x y
  | None, None => true
  | _, _ => false
  end.

Section TableComponent.
Variable K : TableConstants.
Variable String_match : string -> string -> result (option string).

(** [useTableHooks] during a render.  [previous] is [None] for the first
    render.  The initial rows are computed on the first render, which makes
    them the state, and again when the key of the panel to expand has
    changed, which leaves the state as it is; the effect runs after the
    render and is not part of it. *)
Definition useTableHooks (fuel : nat) (data : list FormattedDataType)
           (maxNumRows : option nat) (preExpandPanelKey tableKey : option string)
           (previous : option TableHooks) : result TableHooks :=
  let allColumnKeys := getAllColumnKeys data in
  match previous with
  | None =>
      initialExpandedRows <-
        getInitialExpandedRows K String_match fuel data allColumnKeys
                               maxNumRows preExpandPanelKey tableKey ;;
      Ok (mkHooks initialExpandedRows preExpandPanelKey initialExpandedRows)
  | Some hooks =>
      if sameDependency preExpandPanelKey (memoPanelKey hooks) then Ok hooks
      else
        initialExpandedRows <-
          getInitialExpandedRows K String_match fuel data allColumnKeys
                                 maxNumRows preExpandPanelKey tableKey ;;
        Ok (mkHooks (hookExpandedRows hooks) preExpandPanelKey
                    initialExpandedRows)
  end.

(** A render of [Table]: the hooks first, then the validation and the rows
    for the expansion state of the hooks, which are computed before the
    loading flag is looked at, so that their exceptions are thrown while
    loading too.  The result is what the hooks keep and the body that is
    rendered. *)
Definition Table (fuel : nat)
           (tableData : list FormattedDataType) (tableColumns : list TableColumn)
           (isLoading : bool)
           (format : option (FormattedDataType -> nat -> FormattedDataType))
           (maxNumRows : option nat) (preExpandPanelKey tableKey : option string)
           (previous : option TableHooks) : result (TableHooks * TableBody) :=
  let fields := map field tableColumns in
  hooks <- useTableHooks fuel tableData maxNumRows preExpandPanelKey tableKey
                         previous ;;
  body <-
    match tableData with
    | [] => Ok EmptyRow
    | _ :: _ =>
        if negb (checkIfValidData tableData fields)
        then Throw (Error INVALID_DATA_ERROR_MESSAGE)
        else
          rows <- getTableRows K fuel
                    (mkDetails tableData tableColumns (hookExpandedRows hooks)
                               format 0) ;;
          Ok (Rows rows)
    end ;;
  Ok (hooks, if isLoading then ShimmeringBody else body).
End TableComponent.

(** The cells of a [<TableRow>]: the entries of the row whose name is one of
    the fields, in the order of the entries, each with its value. *)
Definition tableRowCells (tableColumns : list TableColumn)
           (rowValues : FormattedDataType) : list (string * JsValue) :=
  let fields := map field tableColumns in
  filter (fun entry => includes fields (fst entry)) (props rowValues).

(** ** A matcher for the patterns of the key grammar

    An instance of [String.prototype.match] for a fragment of the patterns
    of JavaScript, which holds the patterns the component builds from a
    table key of plain text: literal characters, [.], the escapes of the
    syntax characters and of the digit and word classes, character classes
    [[...]] with ranges, plain or negated, each optionally followed by [+],
    [*] or [?].  The search is the engine's: leftmost start, greedy
    repetition with backtracking, and the result is the matched text.

    A pattern that is malformed for certain (a group or a class that is not
    closed, a quantifier with nothing to repeat, a range out of order, a
    closing parenthesis on its own, a backslash at the end) is a
    [SyntaxError].  For any other pattern outside the fragment, and for text
    that is not ASCII, the matcher gives no answer: [OutOfFuel]. *)
Module Regex.

Inductive atom : Type :=
| Lit (c : ascii)
| AnyChar
| Class (negated : bool) (ranges : list (ascii * ascii)).

Inductive piece : Type :=
| Once (a : atom)
| Plus (a : atom)
| Star (a : atom)
| Opt (a : atom).

Inductive parsed : Type :=
| Pieces (ps : list piece)
| Invalid
| Unsupported.

Inductive parsedClass : Type :=
| ClassBody (ranges : list (ascii * ascii)) (rest : list ascii)
| ClassInvalid
| ClassUnsupported.

Definition oneOf (cs : list ascii) (c : ascii) : bool :=
  existsb (Ascii.eqb c) cs.

Definition isDigit (c : ascii) : bool :=
  (48 <=? nat_of_ascii c)%nat && (nat_of_ascii c <=? 57)%nat.

Definition digits : list (ascii * ascii) := [("0"%char, "9"%char)].

Definition wordCharacters : list (ascii * ascii) :=
  [("a"%char, "z"%char); ("A"%char, "Z"%char); ("0"%char, "9"%char);
   ("_"%char, "_"%char)].

(** The characters a backslash makes literal. *)
Definition syntaxCharacters : list ascii :=
  ["\"; "^"; "$"; "."; "|"; "?"; "*"; "+"; "("; ")"; "["; "]"; "{"; "}";
   "/"; "-"]%char.

(** The body of a class up to its closing bracket, and what follows. *)
Fixpoint parseClass (s : list ascii) (acc : list (ascii * ascii))
  : parsedClass :=
  match s with
  | [] => ClassInvalid
  | "]"%char :: rest => ClassBody (rev acc) rest
  | "\"%char :: _ => ClassUnsupported
  | lo :: "-"%char :: hi :: rest =>
      if Ascii.eqb hi "\" then ClassUnsupported
      else if Ascii.eqb hi "]"
      then ClassBody (rev (("-"%char, "-"%char) :: (lo, lo) :: acc)) rest
      else if (nat_of_ascii lo <=? nat_of_ascii hi)%nat
           then parseClass rest ((lo, hi) :: acc)
           else ClassInvalid
  | c :: rest => parseClass rest ((c, c) :: acc)
  end.

Definition consPiece (p : piece) (r : parsed) : parsed :=
  match r with
  | Pieces ps => Pieces (p :: ps)
  | Invalid => Invalid
  | Unsupported => Unsupported
  end.

Fixpoint parseFrom (n : nat) (s : list ascii) : parsed :=
  match n with
  | O => match s with [] => Pieces [] | _ => Unsupported end
  | S n' =>
      match s with
      | [] => Pieces []
      | c :: rest =>
          let quantified (a : atom) (rest' : list ascii) :=
            match rest' with
            | q :: rest'' =>
                if oneOf ["+"; "*"; "?"]%char q then
                  let p := if Ascii.eqb q "+" then Plus a
                           else if Ascii.eqb q "*" then Star a
                           else Opt a in
                  match rest'' with
                  | q' :: _ =>
                      if Ascii.eqb q' "?" then Unsupported
                      else if oneOf ["+"; "*"]%char q' then Invalid
                      else consPiece p (parseFrom n' rest'')
                  | [] => consPiece p (parseFrom n' rest'')
                  end
                else if Ascii.eqb q "{" then
                  match rest'' with
                  | d :: _ =>
                      if isDigit d then Unsupported
                      else consPiece (Once a) (parseFrom n' rest')
                  | [] => consPiece (Once a) (parseFrom n' rest')
                  end
                else consPiece (Once a) (parseFrom n' rest')
            | [] => consPiece (Once a) (parseFrom n' rest')
            end in
          if Ascii.eqb c "[" then
            let negated :=
              match rest with "^"%char :: _ => true | _ => false end in
            let body :=
              match rest with "^"%char :: body => body | _ => rest end in
            match parseClass body [] with
            | ClassBody ranges rest' => quantified (Class negated ranges) rest'
            | ClassInvalid => Invalid
            | ClassUnsupported => Unsupported
            end
          else if Ascii.eqb c "\" then
            match rest with
            | [] => Invalid
            | e :: rest' =>
                if Ascii.eqb e "d" then quantified (Class false digits) rest'
                else if Ascii.eqb e "D" then quantified (Class true digits) rest'
                else if Ascii.eqb e "w"
                     then quantified (Class false wordCharacters) rest'
                else if Ascii.eqb e "W"
                     then quantified (Class true wordCharacters) rest'
                else if oneOf syntaxCharacters e then quantified (Lit e) rest'
                else Unsupported
            end
          else if Ascii.eqb c "." then quantified AnyChar rest
          else if Ascii.eqb c "(" then
            if oneOf rest ")"%char then Unsupported else Invalid
          else if Ascii.eqb c ")" then Invalid
          else if oneOf ["+"; "*"; "?"]%char c then Invalid
          else if oneOf ["|"; "^"; "$"]%char c then Unsupported
          else if Ascii.eqb c "{" then
            match rest with
            | d :: _ =>
                if isDigit d then Unsupported else quantified (Lit c) rest
            | [] => quantified (Lit c) rest
            end
          else quantified (Lit c) rest
      end
  end.

Definition isAscii (s : list ascii) : bool :=
  forallb (fun c => (nat_of_ascii c <? 128)%nat) s.

Definition parse (pattern : string) : parsed :=
  let s := list_ascii_of_string pattern in
  if isAscii s then parseFrom (S (List.length s)) s else Unsupported.

Definition inRanges (ranges : list (ascii * ascii)) (c : ascii) : bool :=
  existsb (fun r => (nat_of_ascii (fst r) <=? nat_of_ascii c)%nat
                    && (nat_of_ascii c <=? nat_of_ascii (snd r))%nat) ranges.

Definition accepts (a : atom) (c : ascii) : bool :=
  match a with
  | Lit c' => Ascii.eqb c c'
  | AnyChar => negb (oneOf ["010"; "013"]%char c)
  | Class negated ranges => xorb negated (inRanges ranges c)
  end.

(** Zero or more characters of the atom, the longest run first, then the
    continuation. *)
Fixpoint many (a : atom) (k : list ascii -> option (list ascii))
         (s : list ascii) : option (list ascii) :=
  match s with
  | c :: s' =>
      if accepts a c then
        match many a k s' with
        | Some m => Some (c :: m)
        | None => k s
        end
      else k s
  | [] => k s
  end.

Fixpoint matchHere (ps : list piece) (s : list ascii) : option (list ascii) :=
  match ps with
  | [] => Some []
  | Once a :: ps' =>
      match s with
      | c :: s' =>
          if accepts a c then option_map (cons c) (matchHere ps' s') else None
      | [] => None
      end
  | Plus a :: ps' =>
      match s with
      | c :: s' =>
          if accepts a c then option_map (cons c) (many a (matchHere ps') s')
          else None
      | [] => None
      end
  | Star a :: ps' => many a (matchHere ps') s
  | Opt a :: ps' =>
      match s with
      | c :: s' =>
          if accepts a c then
            match matchHere ps' s' with
            | Some m => Some (c :: m)
            | None => matchHere ps' s
            end
          else matchHere ps' s
      | [] => matchHere ps' s
      end
  end.

Fixpoint search (ps : list piece) (s : list ascii) : option (list ascii) :=
  match matchHere ps s with
  | Some m => Some m
  | None =>
      match s with
      | [] => None
      | _ :: s' => search ps s'
      end
  end.

Definition String_match (subject pattern : string) : result (option string) :=
  match parse pattern with
  | Invalid => Throw SyntaxError
  | Unsupported => OutOfFuel
  | Pieces ps =>
      let s := list_ascii_of_string subject in
      if isAscii s
      then Ok (option_map string_of_list_ascii (search ps s))
      else OutOfFuel
  end.

End Regex.

(** ** Sample instances

    A choice of the constants, a formatter of the shape the column list
    hands to the table, and small rows; the closed examples below are
    evaluated on them. *)
Module Sample.

Definition constants : TableConstants :=
  {| ARRAY_KIND := "array";
     MAP_KIND := "map";
     ARRAY_LABEL := "array";
     ARRAY_OPENER := "[";
     ARRAY_CLOSER := "]";
     MAP_LABEL := "map";
     MAP_OPENER := "{";
     MAP_CLOSER := "}";
     MAP_KEY_NAME := "_map_key";
     MAP_VALUE_NAME := "_map_value";
     MAP_KEY_DISPLAY_NAME := "Key";
     MAP_VALUE_DISPLAY_NAME := "Value";
     COLUMN_NAME_REGEX := "/[a-zA-Z0-9_]+";
     TYPE_METADATA_REGEX := "/type/[a-zA-Z0-9_]+" |}.

Definition hasChildren (item : FormattedDataType) : bool :=
  match children item with
  | Some (_ :: _) => true
  | _ => false
  end.

(** An object with these properties of the record, and [more]; its entries
    list the content first, then the other properties it holds. *)
Definition object (k n : string) (kd : option string) (expandable : bool)
           (tm : option FormattedDataType)
           (cs : option (list FormattedDataType)) (c : ContentType)
           (more : list (string * JsValue)) : FormattedDataType :=
  mkRow k n kd expandable tm cs c
        ([("content", JsContent c); ("key", JsSome k); ("name", JsSome n);
          ("isExpandable", JsBool expandable)]
         ++ match kd with Some s => [("kind", JsSome s)] | None => [] end
         ++ match tm with Some _ => [("typeMetadata", JsObject)] | None => [] end
         ++ match cs with Some _ => [("children", JsObject)] | None => [] end
         ++ more).

(** Formats a type metadata node: same key, name, kind and children, the
    name as title, expandable when it has children. *)
Definition format (item : FormattedDataType) (index : nat) : FormattedDataType :=
  object (key item) (name item) (kind item) (hasChildren item) None
         (children item) (mkContent (name item) None) [].

(** A type metadata node. *)
Definition node (k n kd : string) (cs : list FormattedDataType)
  : FormattedDataType :=
  object k n (Some kd) false None (Some cs) (mkContent n None) [].

(** A top-level column with its type metadata. *)
Definition column (k n : string) (expandable : bool)
           (tm : option FormattedDataType) : FormattedDataType :=
  object k n None expandable tm None (mkContent n None) [].

Definition contentColumn : TableColumn := mkColumn "Name" "content" None None.

(** [array<int>]: an array node over a scalar leaf. *)
Definition arrayOfInt : FormattedDataType :=
  column "t/a" "a" true
    (Some (node "t/a/type/a" "a" "array"
                [node "t/a/type/a/_inner_" "_inner_" "scalar" []])).

(** [array<array<int>>]: two array nodes over a scalar leaf. *)
Definition arrayOfArrayOfInt : FormattedDataType :=
  column "t/b" "b" true
    (Some (node "t/b/type/b" "b" "array"
             [node "t/b/type/b/_inner_" "_inner_" "array"
                [node "t/b/type/b/_inner_/_inner_" "_inner_" "scalar" []]])).

(** [array<struct<x:int>>]. *)
Definition arrayOfStruct : FormattedDataType :=
  column "t/c" "c" true
    (Some (node "t/c/type/c" "c" "array"
             [node "t/c/type/c/_inner_" "_inner_" "struct"
                [node "t/c/type/c/_inner_/x" "x" "scalar" []]])).

(** [map<string,int>]. *)
Definition mapColumn : FormattedDataType :=
  column "t/m" "m" true
    (Some (node "t/m/type/m" "m" "map"
             [node "t/m/type/m/_map_key" "_map_key" "scalar" [];
              node "t/m/type/m/_map_value" "_map_value" "scalar" []])).

(** A row marked expandable that has neither type metadata nor children. *)
Definition childless : FormattedDataType :=
  object "t/e" "e" None true None None (mkContent "e" None) [].

Definition details (rows : list FormattedDataType) (expanded : list string)
  : TableRowDetails :=
  mkDetails rows [contentColumn] expanded (Some format) 0.

End Sample.

(** * Vocabulary of the properties *)

(** ** The reduction of [getTableRows], item by item *)

Definition recurseWith (K : TableConstants) (fuel : nat)
  : option (TableRowDetails -> result (list ReactNode)) :=
  match fuel with
  | O => None
  | S fuel' => Some (getTableRows K fuel')
  end.

(** The details with other rows, and the details of the nested call. *)
Definition withData (d : TableRowDetails) (rows : list FormattedDataType)
  : TableRowDetails :=
  mkDetails rows (columns d) (expandedRows d) (formatChildrenData d)
            (nestedLevel d).

Definition nestedDetails (d : TableRowDetails) (rows : list FormattedDataType)
  : TableRowDetails :=
  mkDetails rows (columns d) (expandedRows d) (formatChildrenData d)
            (S (nestedLevel d)).

Definition additionalColumns (d : TableRowDetails) : Z :=
  (Z.of_nat (List.length (columns d)) - 1)%Z.

(** The rows one item of the data contributes. *)
Definition itemRows (K : TableConstants) (fuel : nat) (d : TableRowDetails)
           (item : FormattedDataType)
  : result (list ReactNode) :=
  tableRowsStep K d fuel (recurseWith K fuel) (Ok []) item.

(** ** The tree of the key walk *)

Definition childrenOrNil (r : FormattedDataType) : list FormattedDataType :=
  match children r with
  | Some l => l
  | None => []
  end.

(** The keys of one column are the keys of the rows at and below it. *)
Definition keysAreTheTree (r : FormattedDataType) : Prop :=
  forall k, In k (columnKeys r) <-> exists x, InTree [r] x /\ key x = k.

(** The keys of the rows above a row of the tree, from a top-level row
    down to its parent. *)
Inductive TreePath : list FormattedDataType -> list string -> FormattedDataType -> Prop :=
| TreePath_top : forall rows x, In x rows -> TreePath rows [] x
| TreePath_nested : forall rows p above x,
    In p rows -> TreePath (nestedColumns p) above x ->
    TreePath rows (key p :: above) x.

(** ** Deep links *)

(** The pattern of a top-level column key. *)
Definition columnKeyRegex (K : TableConstants) (tableKey : option string) : string :=
  (js_to_string tableKey ++ COLUMN_NAME_REGEX K)%string.

(** The key [n] levels below the column [c] of the table [t]. *)
Definition deepKey (n : nat) : string :=
  ("t/c" ++ match n with
            | O => ""
            | S m => "/type/c" ++ str_repeat "/c" m
            end)%string.

(** ** The rows as a derivation *)

(** The opener and the closer of a row to display: both [null], or the pair
    with the labels of the same count. *)
Inductive Brackets (K : TableConstants) (rowValuesToDisplay : FormattedDataType)
          (arrayCount level : nat) : ReactNode -> ReactNode -> Prop :=
| Brackets_none :
    hasSpecificTypeHandling K rowValuesToDisplay arrayCount = false ->
    Brackets K rowValuesToDisplay arrayCount level RNull RNull
| Brackets_pair : forall placeholders,
    hasSpecificTypeHandling K rowValuesToDisplay arrayCount = true ->
    Brackets K rowValuesToDisplay arrayCount level
             (OpenerRow (key rowValuesToDisplay)
                        (arrayOpenerLabelOf K arrayCount)
                        (mapOpenerLabelOf K rowValuesToDisplay)
                        level placeholders)
             (CloserRow (key rowValuesToDisplay)
                        (mapCloserLabelOf K rowValuesToDisplay)
                        (arrayCloserLabelOf K arrayCount)
                        level placeholders).

Section DerivationOfTheRows.
Variable K : TableConstants.
Variable cols : list TableColumn.
Variable expanded : list string.
Variable format : option (FormattedDataType -> nat -> FormattedDataType).

Definition isShownExpanded (x : FormattedDataType) : bool :=
  match format with
  | Some _ => isExpandable x && includes expanded (key x)
  | None => false
  end.

Inductive Materialized : list FormattedDataType -> nat -> list ReactNode -> Prop :=
| Materialized_nil : forall level, Materialized [] level []
| Materialized_collapsed : forall x l level rest,
    isShownExpanded x = false ->
    Materialized l level rest ->
    Materialized (x :: l) level (TableRow x level :: rest)
| Materialized_expanded :
    forall x l level f loopFuel rv formattedChildren n o c nested rest,
      format = Some f ->
      isShownExpanded x = true ->
      handleSpecificTypeRowData K f loopFuel x = Ok (rv, formattedChildren, n) ->
      Brackets K rv n level o c ->
      Materialized formattedChildren (S level) nested ->
      Materialized l level rest ->
      Materialized (x :: l) level
                   (TableRow x level :: o :: nested ++ c :: rest).

Definition detailsAt (rows : list FormattedDataType) (level : nat)
  : TableRowDetails :=
  mkDetails rows cols expanded format level.

End DerivationOfTheRows.

(** ** Which rows are shown *)

Section RowsThatAreShown.
Variable K : TableConstants.
Variable expanded : list string.
Variable format : option (FormattedDataType -> nat -> FormattedDataType).

(** [Shown rows depth x]: [x] is reached from [rows] in [depth] steps, each
    from a row that is expandable and whose key is in the expansion state
    to one of its formatted children, the children that
    [handleSpecificTypeRowData] gives for it. *)
Inductive Shown : list FormattedDataType -> nat -> FormattedDataType -> Prop :=
| Shown_top : forall rows x, In x rows -> Shown rows 0 x
| Shown_nested :
    forall rows p f loopFuel rv formattedChildren n depth x,
      In p rows ->
      format = Some f ->
      isShownExpanded expanded format p = true ->
      handleSpecificTypeRowData K f loopFuel p = Ok (rv, formattedChildren, n) ->
      Shown formattedChildren depth x ->
      Shown rows (S depth) x.

End RowsThatAreShown.

(** ** Arrays *)

(** The row the unwrapping starts from: the formatted type metadata of the
    row when it has one, else the row itself. *)
Definition initialRowToDisplay
           (format : FormattedDataType -> nat -> FormattedDataType)
           (item : FormattedDataType) : FormattedDataType :=
  match typeMetadata item with
  | Some tm => format tm 0
  | None => item
  end.

(** [ArrayLayers row N last]: from [row] there are [N] array layers, each
    the first formatted child of the one above and expandable, down to the
    array [last] whose first formatted child is not expandable: a terminal
    that is not an array, or an innermost array with nothing below it, which
    is counted as one more layer. *)
Inductive ArrayLayers (K : TableConstants)
          (format : FormattedDataType -> nat -> FormattedDataType)
  : FormattedDataType -> nat -> FormattedDataType -> Prop :=
| ArrayLayers_terminal : forall row terminal others,
    kindIs (ARRAY_KIND K) row = true ->
    getFormattedChildrenData format row = Ok (terminal :: others) ->
    isExpandable terminal = false ->
    kindIs (ARRAY_KIND K) terminal = false ->
    ArrayLayers K format row 1 row
| ArrayLayers_innermost : forall row innermost others,
    kindIs (ARRAY_KIND K) row = true ->
    getFormattedChildrenData format row = Ok (innermost :: others) ->
    isExpandable innermost = false ->
    kindIs (ARRAY_KIND K) innermost = true ->
    ArrayLayers K format row 2 row
| ArrayLayers_layer : forall row inner others N last,
    kindIs (ARRAY_KIND K) row = true ->
    getFormattedChildrenData format row = Ok (inner :: others) ->
    isExpandable inner = true ->
    ArrayLayers K format inner N last ->
    ArrayLayers K format row (S N) last.

(** The [TableRow]s at a level. *)
Definition tableRowsAt (level : nat) (out : list ReactNode) : list ReactNode :=
  filter (fun node =>
            match node with
            | TableRow _ l => Nat.eqb l level
            | _ => false
            end) out.

(** * Further parts of the components *)

(** ** The expansion state after the effect *)

(** The state of [useState] once the effect has run: replaced where the
    effect calls [setExpandedRows], kept otherwise. *)
Definition stateAfter (state : list string) (effect : ExpandAllEffect)
  : list string :=
  match effect with
  | setExpandedRows keys => keys
  | toggleExpandingRows => state
  | noEffect => state
  end.

(** ** The cells of a row *)

Definition DEFAULT_TEXT_ALIGNMENT : TextAlignmentValues := left.

(** [ALIGNEMENT_TO_CLASS_MAP]. *)
Definition getCellAlignmentClass (alignment : TextAlignmentValues) : string :=
  match alignment with
  | left => "is-left-aligned"
  | right => "is-right-aligned"
  | center => "is-center-aligned"
  end.

(** What a cell shows: the value of the entry, or what the [component] of
    its column makes of it. *)
Inductive CellContent : Type :=
| RawValue (value : JsValue)
| Rendered (node : string).

(** A [<td>] of a [<TableRow>]: the entry it shows, the alignment class, the
    width ([None] for [auto]), its content, and whether it is the first cell
    and carries the expanding button. *)
Record TableCell : Type := mkCell {
  cellField : string;
  cellClass : string;
  cellWidth : option nat;
  cellContent : CellContent;
  isFirstCell : bool;
  hasExpandingButton : bool
}.

Section CellsOfARow.
(** The optional [component] of a column. *)
Variable component :
  TableColumn -> option (JsValue -> nat -> FormattedDataType -> string).

Definition tableCell (tableColumns : list TableColumn)
           (rowValues : FormattedDataType) (entry : string * JsValue)
           (rowIndex : nat) : TableCell :=
  let fields := map field tableColumns in
  let columnInfo :=
    find (fun column => String.eqb (field column) (fst entry)) tableColumns in
  let cellHorAlign :=
    match columnInfo with
    | Some column =>
        match horAlign column with
        | Some alignment => alignment
        | None => DEFAULT_TEXT_ALIGNMENT
        end
    | None => DEFAULT_TEXT_ALIGNMENT
    end in
  let cellWidthPx :=
    match columnInfo with
    | Some column =>
        match width column with
        | Some (S w) => Some (S w)
        | _ => None
        end
    | None => None
    end in
  let content :=
    match columnInfo with
    | Some column =>
        match component column with
        | Some render => Rendered (render (snd entry) rowIndex rowValues)
        | None => RawValue (snd entry)
        end
    | None => RawValue (snd entry)
    end in
  let first :=
    match fields with
    | f :: _ => String.eqb f (fst entry)
    | [] => false
    end in
  mkCell (fst entry) (getCellAlignmentClass cellHorAlign) cellWidthPx content
         first (first && isExpandable rowValues).

(** The cells of [<TableRow>]: one per entry of the row whose name is a
    field of the columns, in the order of the entries. *)
Definition TableRow_cells (tableColumns : list TableColumn)
           (rowValues : FormattedDataType) : list TableCell :=
  let fields := map field tableColumns in
  arrayMap (tableCell tableColumns rowValues)
           (filter (fun entry => includes fields (fst entry)) (props rowValues)).
End CellsOfARow.

(** ** The description of a column ([ColumnDescEditableText]) *)

Record ColumnData : Type := mkColumnData {
  columnDataKey : string;
  description : option string
}.

Section ColumnDescription.
(** [getTypeMetadataFromKey], of the table metadata helpers: the
    description of the type metadata with that key, if there is one. *)
Variable getTypeMetadataFromKey : string -> list ColumnData -> option ColumnData.

(** [refreshValue] of [mapStateToProps], by column key. *)
Definition refreshValue (tableColumns : list ColumnData) (columnKey : string)
           (isNestedColumn : bool) : option string :=
  if negb isNestedColumn then
    match find (fun column => String.eqb (columnDataKey column) columnKey)
               tableColumns with
    | Some column => description column
    | None => None
    end
  else
    match getTypeMetadataFromKey columnKey tableColumns with
    | Some metadata => description metadata
    | None => None
    end.
End ColumnDescription.

(** [refreshValue] of [mapStateToProps], by column index: the other side of
    the file. *)
Definition refreshValueAt (tableColumns : list ColumnData) (columnIndex : nat)
  : result (option string) :=
  match nth_error tableColumns columnIndex with
  | Some column => Ok (description column)
  | None => Throw TypeError
  end.

(** ** The tours of a page (navigation bar) *)

Record TourInfo (Step : Type) : Type := mkTourInfo {
  hasTour : bool;
  tourKey : string;
  tourSteps : list Step
}.

Section Tours.
Variables ProductTour Tour Step : Type.
Variable steps : Tour -> list Step.
(** [getProductToursFor]: the tours configured for a path, if any, and the
    path they are configured under. *)
Variable getProductToursFor : string -> option (list ProductTour) * string.
Variable reduceToPageTours : list Tour -> ProductTour -> list Tour.
Variable reduceToFeatureTours : list Tour -> ProductTour -> list Tour.
(** [generateKeyFromSteps]; [None] or the empty string are falsy. *)
Variable generateKeyFromSteps : list Tour -> string -> option string.
Variable DEFAULT_PAGE_TOUR_KEY : string.
Variable DEFAULT_FEATURE_TOUR_KEY : string.

(** [value || fallback] on strings. *)
Definition orDefault (value : option string) (fallback : string) : string :=
  match value with
  | Some "" => fallback
  | Some v => v
  | None => fallback
  end.

Definition getPageTourInfo (pathname : string) : TourInfo Step :=
  let '(productToursForThisPage, tourPath) := getProductToursFor pathname in
  let pageTours :=
    match productToursForThisPage with
    | Some tours => fold_left reduceToPageTours tours []
    | None => []
    end in
  let pageTourSteps :=
    match pageTours with
    | tour :: _ => steps tour
    | [] => []
    end in
  let pageTourKey :=
    orDefault (generateKeyFromSteps pageTours tourPath) DEFAULT_PAGE_TOUR_KEY in
  let hasPageTour :=
    match productToursForThisPage with
    | Some _ => Nat.ltb 0 (List.length pageTours)
    | None => false
    end in
  mkTourInfo hasPageTour pageTourKey pageTourSteps.

Definition getFeatureTourInfo (pathname : string) : TourInfo Step :=
  let '(productToursForThisPage, tourPath) := getProductToursFor pathname in
  let featureTours :=
    match productToursForThisPage with
    | Some tours => fold_left reduceToFeatureTours tours []
    | None => []
    end in
  let featureTourSteps :=
    match featureTours with
    | tour :: _ => steps tour
    | [] => []
    end in
  let featureTourKey :=
    orDefault (generateKeyFromSteps featureTours tourPath)
              DEFAULT_FEATURE_TOUR_KEY in
  let hasFeatureTour :=
    match productToursForThisPage with
    | Some _ => Nat.ltb 0 (List.length featureTourSteps)
    | None => false
    end in
  mkTourInfo hasFeatureTour featureTourKey featureTourSteps.
End Tours.

(** ** Vocabulary of the further properties *)

(** [ArraysOver row N last]: from [row] there are [N] array layers, each the
    first formatted child of the one above and expandable, down to the row
    [last], which is not an array. *)
Inductive ArraysOver (K : TableConstants)
          (format : FormattedDataType -> nat -> FormattedDataType)
  : FormattedDataType -> nat -> FormattedDataType -> Prop :=
| ArraysOver_none : forall row,
    kindIs (ARRAY_KIND K) row = false ->
    ArraysOver K format row 0 row
| ArraysOver_layer : forall row inner others N last,
    kindIs (ARRAY_KIND K) row = true ->
    getFormattedChildrenData format row = Ok (inner :: others) ->
    isExpandable inner = true ->
    ArraysOver K format inner N last ->
    ArraysOver K format row (S N) last.

(** [m] occurs in [s]. *)
Definition occursIn (m s : string) : Prop :=
  exists before after, s = (before ++ m ++ after)%string.

(** A matcher that answers with a piece of the subject, as
    [String.prototype.match] does. *)
Definition matchesArePieces
           (String_match : string -> string -> result (option string)) : Prop :=
  forall subject pattern m,
    String_match subject pattern = Ok (Some m) -> occursIn m subject.

(** * The keys and the rows, said without the loops *)

(** ** The keys on the path of a deep link *)

(** The pattern of the key [depth] levels below a column: the pattern of
    the column key, followed for a nested key by the pattern of the type
    metadata and by one pattern of a column name for each further level. *)
Definition keyPattern (K : TableConstants) (tableKey : option string)
           (depth : nat) : string :=
  match depth with
  | O => (js_to_string tableKey ++ COLUMN_NAME_REGEX K)%string
  | S further =>
      ((js_to_string tableKey ++ COLUMN_NAME_REGEX K)
       ++ TYPE_METADATA_REGEX K
       ++ str_repeat (COLUMN_NAME_REGEX K) further)%string
  end.

(** [NestedKeys depth keys]: the keys are the texts that the patterns of the
    depths from [depth] on match in the target, one after the other, up to
    the first depth whose pattern does not match. *)
Inductive NestedKeys (K : TableConstants)
          (String_match : string -> string -> result (option string))
          (target : string) (tableKey : option string)
  : nat -> list string -> Prop :=
| NestedKeys_end : forall depth,
    String_match target (keyPattern K tableKey depth) = Ok None ->
    NestedKeys K String_match target tableKey depth []
| NestedKeys_next : forall depth k keys,
    String_match target (keyPattern K tableKey depth) = Ok (Some k) ->
    NestedKeys K String_match target tableKey (S depth) keys ->
    NestedKeys K String_match target tableKey depth (k :: keys).

(** The keys on the path of the target: the column key, when the pattern of
    a column key matches, then the nested keys level by level. *)
Definition PathKeys (K : TableConstants)
           (String_match : string -> string -> result (option string))
           (target : string) (tableKey : option string)
           (keys : list string) : Prop :=
  exists columnKey nested,
    String_match target (keyPattern K tableKey 0) = Ok columnKey
    /\ NestedKeys K String_match target tableKey 1 nested
    /\ keys = match columnKey with Some k => [k] | None => [] end ++ nested.

(** ** The row to display and the children below an expanded row *)

(** [Unwrapped row rowToDisplay shown count]: below the expanded [row] the
    rows [shown] are displayed, under the brackets of [rowToDisplay] and
    [count].  Starting from the formatted type metadata of the row, or the
    row itself, [count] array layers are passed over.  Where they end above
    a row that is not an array, that row is displayed through its formatted
    children, titled by the display names when it is a map.  Where they end
    in an array whose first child cannot be expanded, no row is shown. *)
Inductive Unwrapped (K : TableConstants)
          (format : FormattedDataType -> nat -> FormattedDataType)
          (row : FormattedDataType)
  : FormattedDataType -> list FormattedDataType -> nat -> Prop :=
| Unwrapped_plain : forall count last shown,
    ArraysOver K format (initialRowToDisplay format row) count last ->
    kindIs (MAP_KIND K) last = false ->
    getFormattedChildrenData format last = Ok shown ->
    Unwrapped K format row last shown count
| Unwrapped_map : forall count last formattedChildren,
    ArraysOver K format (initialRowToDisplay format row) count last ->
    kindIs (MAP_KIND K) last = true ->
    getFormattedChildrenData format last = Ok formattedChildren ->
    Unwrapped K format row last (updateMapDisplayNames K formattedChildren)
              count
| Unwrapped_array : forall count last,
    ArrayLayers K format (initialRowToDisplay format row) count last ->
    Unwrapped K format row last [] count.

(** The opener and the closer of a row to display with its count of array
    layers: none of the two when there is no array layer and the row is not
    a map; else both, with the key of the row, at the same level and with
    the same placeholders, the array label followed by as many array
    openers as the closer has array closers, and the map labels when the
    row is a map. *)
Inductive BracketRows (K : TableConstants) (rowToDisplay : FormattedDataType)
          (count level : nat) : ReactNode -> ReactNode -> Prop :=
| BracketRows_none :
    count = 0 ->
    kindIs (MAP_KIND K) rowToDisplay = false ->
    BracketRows K rowToDisplay count level RNull RNull
| BracketRows_array : forall placeholders,
    0 < count ->
    kindIs (MAP_KIND K) rowToDisplay = false ->
    BracketRows K rowToDisplay count level
      (OpenerRow (key rowToDisplay)
                 (ARRAY_LABEL K ++ str_repeat (ARRAY_OPENER K) count)%string
                 "" level placeholders)
      (CloserRow (key rowToDisplay)
                 "" (str_repeat (ARRAY_CLOSER K) count)
                 level placeholders)
| BracketRows_map : forall placeholders,
    count = 0 ->
    kindIs (MAP_KIND K) rowToDisplay = true ->
    BracketRows K rowToDisplay count level
      (OpenerRow (key rowToDisplay)
                 "" (MAP_LABEL K ++ MAP_OPENER K)%string
                 level placeholders)
      (CloserRow (key rowToDisplay)
                 (MAP_CLOSER K) ""
                 level placeholders)
| BracketRows_array_of_map : forall placeholders,
    0 < count ->
    kindIs (MAP_KIND K) rowToDisplay = true ->
    BracketRows K rowToDisplay count level
      (OpenerRow (key rowToDisplay)
                 (ARRAY_LABEL K ++ str_repeat (ARRAY_OPENER K) count)%string
                 (MAP_LABEL K ++ MAP_OPENER K)%string
                 level placeholders)
      (CloserRow (key rowToDisplay)
                 (MAP_CLOSER K) (str_repeat (ARRAY_CLOSER K) count)
                 level placeholders).

(** [Rendering rows level out]: [out] is the rendering of [rows] at
    [level].  Each row contributes its own row.  A row that is expandable
    and whose key is in the expansion state, when there is a formatter,
    contributes next its opener, the rendering of the rows shown below it
    one level deeper, and its closer. *)
Inductive Rendering (K : TableConstants) (expanded : list string)
          (format : option (FormattedDataType -> nat -> FormattedDataType))
  : list FormattedDataType -> nat -> list ReactNode -> Prop :=
| Rendering_nil : forall level, Rendering K expanded format [] level []
| Rendering_collapsed : forall row rows level rest,
    format = None \/ isExpandable row = false \/ ~ In (key row) expanded ->
    Rendering K expanded format rows level rest ->
    Rendering K expanded format (row :: rows) level (TableRow row level :: rest)
| Rendering_expanded :
    forall row rows level f rowToDisplay shown count opener closer nested rest,
      format = Some f ->
      isExpandable row = true ->
      In (key row) expanded ->
      Unwrapped K f row rowToDisplay shown count ->
      BracketRows K rowToDisplay count level opener closer ->
      Rendering K expanded format shown (S level) nested ->
      Rendering K expanded format rows level rest ->
      Rendering K expanded format (row :: rows) level
                (TableRow row level :: opener :: nested ++ closer :: rest).

(** Rows in which the openers and closers are balanced: each opener has its
    closer after it, the two as [BracketRows] pairs them, and what lies
    between them is balanced in itself. *)
Inductive WellBracketed (K : TableConstants) : list ReactNode -> Prop :=
| WellBracketed_nil : WellBracketed K []
| WellBracketed_row : forall row level rest,
    WellBracketed K rest -> WellBracketed K (TableRow row level :: rest)
| WellBracketed_pair : forall rowToDisplay count level opener closer inside rest,
    BracketRows K rowToDisplay count level opener closer ->
    WellBracketed K inside ->
    WellBracketed K rest ->
    WellBracketed K (opener :: inside ++ closer :: rest).

(** [Reached rows depth x]: [x] is reached from [rows] in [depth] steps,
    each from a row that is expandable and has its key in the expansion
    state to one of the rows shown below it. *)
Inductive Reached (K : TableConstants) (expanded : list string)
          (format : option (FormattedDataType -> nat -> FormattedDataType))
  : list FormattedDataType -> nat -> FormattedDataType -> Prop :=
| Reached_top : forall rows x, In x rows -> Reached K expanded format rows 0 x
| Reached_below : forall rows parent f rowToDisplay shown count depth x,
    In parent rows ->
    format = Some f ->
    isExpandable parent = true ->
    In (key parent) expanded ->
    Unwrapped K f parent rowToDisplay shown count ->
    Reached K expanded format shown depth x ->
    Reached K expanded format rows (S depth) x.

(** * Properties *)

(** ** Results *)

Lemma bind_Ok_inv (A B : Type) (m : result A) (k : A -> result B) (b : B) :
  bind m k = Ok b -> exists a, m = Ok a /\ k a = Ok b.
Proof.
  destruct m as [a| |]; simpl; intros H; try discriminate.
  exists a; split; [reflexivity | exact H].
Qed.

Lemma bind_Throw_inv (A B : Type) (m : result A) (k : A -> result B) (e : JsError) :
  bind m k = Throw e -> m = Throw e \/ exists a, m = Ok a /\ k a = Throw e.
Proof.
  destruct m as [a| e' |]; simpl; intros H; try discriminate.
  - right; exists a; split; [reflexivity | exact H].
  - left; congruence.
Qed.

(** ** Membership in the expansion state *)

Lemma includes_In (l : list string) (k : string) :
  includes l k = true <-> In k l.
Proof.
  unfold includes. rewrite existsb_exists. split.
  - intros [x [Hin Heq]]. apply String.eqb_eq in Heq. subst x. exact Hin.
  - intros Hin. exists k. split; [exact Hin | apply String.eqb_refl].
Qed.

Lemma includes_app (l1 l2 : list string) (k : string) :
  includes (l1 ++ l2) k = includes l1 k || includes l2 k.
Proof. unfold includes. apply existsb_app. Qed.

Lemma includes_filter_other (l : list string) (k j : string) :
  includes (filter (fun x => negb (String.eqb x k)) l) j
  = includes l j && negb (String.eqb j k).
Proof.
  induction l as [|x l IH]; simpl; [reflexivity|].
  destruct (String.eqb x k) eqn:Hxk; simpl.
  - rewrite IH. apply String.eqb_eq in Hxk. subst x.
    destruct (String.eqb j k) eqn:Hjk; simpl.
    + rewrite !andb_false_r. reflexivity.
    + rewrite !andb_true_r. reflexivity.
  - rewrite IH. destruct (String.eqb j x) eqn:Hjx; simpl; [|reflexivity].
    apply String.eqb_eq in Hjx. subst j. rewrite Hxk. reflexivity.
Qed.

Lemma isExpanded_toggled (S0 : list string) (k j : string) :
  isExpanded (newExpandedRows S0 k) j
  = if String.eqb j k then negb (isExpanded S0 k) else isExpanded S0 j.
Proof.
  unfold newExpandedRows, isExpanded.
  destruct (includes S0 k) eqn:Hk.
  - rewrite includes_filter_other.
    destruct (String.eqb j k) eqn:Hjk; simpl.
    + apply andb_false_r.
    + apply andb_true_r.
  - rewrite includes_app. simpl. rewrite orb_false_r.
    destruct (String.eqb j k) eqn:Hjk; simpl.
    + apply orb_true_r.
    + apply orb_false_r.
Qed.

(** C3. After a toggle of [k] the membership of [k] is negated, and two
    toggles of [k] leave the membership of every key as it was. *)
Theorem toggle_negates_and_is_involutive (S0 : list string) (k : string) :
  isExpanded (fst (handleExpandButton S0 k)) k = negb (isExpanded S0 k)
  /\ forall j,
      isExpanded
        (fst (handleExpandButton (fst (handleExpandButton S0 k)) k)) j
      = isExpanded S0 j.
Proof.
  simpl. split.
  - rewrite isExpanded_toggled, String.eqb_refl. reflexivity.
  - intros j. rewrite !isExpanded_toggled, String.eqb_refl.
    destruct (String.eqb j k) eqn:Hjk.
    + apply String.eqb_eq in Hjk. subst j. apply negb_involutive.
    + reflexivity.
Qed.

(** The callback that is fired tells which way the toggle went. *)
Lemma handleExpandButton_event (S0 : list string) (k : string) :
  snd (handleExpandButton S0 k)
  = if isExpanded S0 k then onCollapse k else onExpand k.
Proof. reflexivity. Qed.

(** ** The reduction of [getTableRows] *)

Section RowsOfTheData.
Variable K : TableConstants.

Lemma getTableRows_eq (fuel : nat) (d : TableRowDetails) :
  getTableRows K fuel d
  = fold_left (tableRowsStep K d fuel (recurseWith K fuel)) (data d) (Ok []).
Proof. destruct fuel; reflexivity. Qed.

Lemma tableRowsStep_prev (fuel : nat) (d : TableRowDetails)
      (prevRows : result (list ReactNode)) (item : FormattedDataType) :
  tableRowsStep K d fuel (recurseWith K fuel) prevRows item
  = prev <- prevRows ;; rows <- itemRows K fuel d item ;; Ok (prev ++ rows).
Proof.
  unfold itemRows, tableRowsStep.
  destruct prevRows as [prev| |]; simpl; try reflexivity.
  destruct (formatChildrenData d) as [format|]; [|reflexivity].
  destruct (isExpandable item && includes (expandedRows d) (key item));
    [|reflexivity].
  destruct (handleSpecificTypeRowData K format fuel item)
    as [[[rv fc] n]| |]; simpl; try reflexivity.
  destruct (getSpecificTypeOpenerRow K rv n (nestedLevel d) _)
    as [o| |]; simpl; try reflexivity.
  destruct (getSpecificTypeCloserRow K rv n (nestedLevel d) _)
    as [c| |]; simpl; try reflexivity.
  destruct (recurseWith K fuel) as [getRows|]; [|reflexivity].
  destruct (getRows _) as [nested| |]; simpl; reflexivity.
Qed.

Lemma fold_rows_prev (fuel : nat) (d : TableRowDetails)
      (l : list FormattedDataType) (acc : result (list ReactNode)) :
  fold_left (tableRowsStep K d fuel (recurseWith K fuel)) l acc
  = prev <- acc ;;
    rows <- fold_left (tableRowsStep K d fuel (recurseWith K fuel)) l (Ok []) ;;
    Ok (prev ++ rows).
Proof.
  revert acc. induction l as [|x l IH]; intros acc; cbn [fold_left].
  - destruct acc as [prev| |]; simpl; try reflexivity.
    rewrite app_nil_r. reflexivity.
  - rewrite IH. rewrite (IH (tableRowsStep K d fuel (recurseWith K fuel) (Ok []) x)).
    rewrite (tableRowsStep_prev fuel d acc x).
    fold (itemRows K fuel d x).
    destruct acc as [prev| |]; simpl; try reflexivity.
    destruct (itemRows K fuel d x) as [r1| |]; simpl; try reflexivity.
    destruct (fold_left _ l (Ok [])) as [r2| |]; simpl; try reflexivity.
    rewrite app_assoc. reflexivity.
Qed.

Lemma getTableRows_nil (fuel : nat) (d : TableRowDetails) :
  getTableRows K fuel (withData d []) = Ok [].
Proof. rewrite getTableRows_eq. reflexivity. Qed.

Lemma getTableRows_cons (fuel : nat) (d : TableRowDetails)
      (x : FormattedDataType) (l : list FormattedDataType) :
  getTableRows K fuel (withData d (x :: l))
  = first <- itemRows K fuel d x ;;
    rest <- getTableRows K fuel (withData d l) ;;
    Ok (first ++ rest).
Proof.
  rewrite !getTableRows_eq. simpl. rewrite fold_rows_prev.
  reflexivity.
Qed.

Lemma withData_data (d : TableRowDetails) : withData d (data d) = d.
Proof. destruct d; reflexivity. Qed.

(** A row that is not expanded contributes its own row only. *)
Lemma itemRows_collapsed (fuel : nat) (d : TableRowDetails)
      (item : FormattedDataType) :
  formatChildrenData d = None
  \/ isExpandable item && includes (expandedRows d) (key item) = false ->
  itemRows K fuel d item = Ok [TableRow item (nestedLevel d)].
Proof.
  unfold itemRows, tableRowsStep. simpl.
  intros [H|H]; rewrite H; [reflexivity|].
  destruct (formatChildrenData d); reflexivity.
Qed.

(** An expanded row: its own row, the opener, the rows of its formatted
    children one level deeper, the closer. *)
Lemma itemRows_expanded (fuel : nat) (d : TableRowDetails)
      (format : FormattedDataType -> nat -> FormattedDataType)
      (item : FormattedDataType) :
  formatChildrenData d = Some format ->
  isExpandable item && includes (expandedRows d) (key item) = true ->
  itemRows K (S fuel) d item
  = '(rowValuesToDisplay, formattedChildren, arrayCount) <-
      handleSpecificTypeRowData K format (S fuel) item ;;
    openerRow <- getSpecificTypeOpenerRow K rowValuesToDisplay arrayCount
                   (nestedLevel d) (additionalColumns d) ;;
    closerRow <- getSpecificTypeCloserRow K rowValuesToDisplay arrayCount
                   (nestedLevel d) (additionalColumns d) ;;
    nested <- getTableRows K fuel (nestedDetails d formattedChildren) ;;
    Ok (TableRow item (nestedLevel d) :: openerRow :: nested ++ [closerRow]).
Proof.
  intros Hf He. unfold itemRows, tableRowsStep, nestedDetails, additionalColumns.
  simpl. rewrite Hf, He. reflexivity.
Qed.

Lemma itemRows_no_fuel (d : TableRowDetails)
      (format : FormattedDataType -> nat -> FormattedDataType)
      (item : FormattedDataType) :
  formatChildrenData d = Some format ->
  isExpandable item && includes (expandedRows d) (key item) = true ->
  itemRows K 0 d item
  = '(rowValuesToDisplay, formattedChildren, arrayCount) <-
      handleSpecificTypeRowData K format 0 item ;;
    openerRow <- getSpecificTypeOpenerRow K rowValuesToDisplay arrayCount
                   (nestedLevel d) (additionalColumns d) ;;
    closerRow <- getSpecificTypeCloserRow K rowValuesToDisplay arrayCount
                   (nestedLevel d) (additionalColumns d) ;;
    OutOfFuel.
Proof.
  intros Hf He. unfold itemRows, tableRowsStep, additionalColumns.
  simpl. rewrite Hf, He. reflexivity.
Qed.

(** With nothing expanded every row of the data contributes its own row. *)
Lemma getTableRows_all_collapsed (fuel : nat) (d : TableRowDetails)
      (l : list FormattedDataType) :
  (forall x, In x l ->
     formatChildrenData d = None
     \/ isExpandable x && includes (expandedRows d) (key x) = false) ->
  getTableRows K fuel (withData d l)
  = Ok (map (fun x => TableRow x (nestedLevel d)) l).
Proof.
  induction l as [|x l IH]; intros H.
  - apply getTableRows_nil.
  - rewrite getTableRows_cons, itemRows_collapsed by (apply H; left; reflexivity).
    simpl. rewrite IH by (intros y Hy; apply H; right; exact Hy).
    reflexivity.
Qed.
End RowsOfTheData.

(** C2. With an empty expansion state the rows are exactly one [TableRow]
    per row of the data, in the order of the data, at the level of the call;
    no opener, closer or nested row, whatever hangs below the rows. *)
Theorem empty_expansion_one_row_per_top_level_row
        (K : TableConstants) (fuel : nat) (rows : list FormattedDataType)
        (cols : list TableColumn)
        (format : option (FormattedDataType -> nat -> FormattedDataType))
        (level : nat) :
  getTableRows K fuel (mkDetails rows cols [] format level)
  = Ok (map (fun x => TableRow x level) rows).
Proof.
  apply (getTableRows_all_collapsed K fuel (mkDetails rows cols [] format level)).
  intros x _. right. simpl. apply andb_false_r.
Qed.

(** ** The key walk *)

Lemma fold_keys_flat_map (l : list FormattedDataType) (acc : list string) :
  fold_left (fun prevKeys col => prevKeys ++ columnKeys col) l acc
  = acc ++ flat_map columnKeys l.
Proof.
  revert acc. induction l as [|x l IH]; intros acc; simpl.
  - symmetry. apply app_nil_r.
  - rewrite IH, app_assoc. reflexivity.
Qed.

Lemma getAllColumnKeys_flat_map (l : list FormattedDataType) :
  getAllColumnKeys l = flat_map columnKeys l.
Proof. unfold getAllColumnKeys. apply fold_keys_flat_map. Qed.

Lemma columnKeys_eq (col : FormattedDataType) :
  columnKeys col = key col :: getAllColumnKeys (nestedColumns col).
Proof.
  unfold getAllColumnKeys, nestedColumns.
  destruct col as [k n kd e tm ch c ps]. simpl.
  destruct tm as [[k' n' kd' e' tm' [[|c' cs']|] ct' ps']|]; simpl;
    destruct ch as [[|c0 cs0]|]; reflexivity.
Qed.

Lemma In_getAllColumnKeys (l : list FormattedDataType) (k : string) :
  In k (getAllColumnKeys l) <-> exists p, In p l /\ In k (columnKeys p).
Proof. rewrite getAllColumnKeys_flat_map. apply in_flat_map. Qed.

Lemma nestedColumns_cases (r : FormattedDataType) :
  nestedColumns r = []
  \/ nestedColumns r = childrenOrNil r
  \/ exists tm, typeMetadata r = Some tm /\ nestedColumns r = childrenOrNil tm.
Proof.
  unfold nestedColumns, childrenOrNil.
  destruct (typeMetadata r) as [tm|].
  - destruct (children tm) as [[|c cs]|] eqn:Etm.
    + destruct (children r) as [[|c0 cs0]|]; auto.
    + right; right. exists tm. rewrite Etm. split; reflexivity.
    + destruct (children r) as [[|c0 cs0]|]; auto.
  - destruct (children r) as [[|c0 cs0]|]; auto.
Qed.

Lemma InTree_singleton (r x : FormattedDataType) :
  InTree [r] x <-> x = r \/ InTree (nestedColumns r) x.
Proof.
  split.
  - intros H. inversion H as [d y Hin|d p y Hin Hn]; subst.
    + destruct Hin as [E|[]]. left. symmetry. exact E.
    + destruct Hin as [E|[]]. subst p. right. exact Hn.
  - intros [E|H].
    + subst x. apply InTree_top. left. reflexivity.
    + apply InTree_nested with (p := r); [left; reflexivity | exact H].
Qed.

Lemma InTree_list (l : list FormattedDataType) (x : FormattedDataType) :
  InTree l x <-> exists p, In p l /\ InTree [p] x.
Proof.
  split.
  - intros H. inversion H as [d y Hin|d p y Hin Hn]; subst.
    + exists x. split; [exact Hin|]. apply InTree_top. left. reflexivity.
    + exists p. split; [exact Hin|]. apply InTree_singleton. right. exact Hn.
  - intros [p [Hin H]]. apply InTree_singleton in H. destruct H as [E|H].
    + subst x. apply InTree_top. exact Hin.
    + apply InTree_nested with (p := p); assumption.
Qed.

Lemma keysAreTheTree_from_nested (r : FormattedDataType) :
  Forall keysAreTheTree (nestedColumns r) -> keysAreTheTree r.
Proof.
  intros Hall k. rewrite columnKeys_eq. simpl. rewrite In_getAllColumnKeys.
  rewrite Forall_forall in Hall. split.
  - intros [E|[p [Hp Hk]]].
    + exists r. split; [|exact E]. apply InTree_top. left. reflexivity.
    + apply (Hall p Hp) in Hk. destruct Hk as [x [Hx Ek]].
      exists x. split; [|exact Ek]. apply InTree_singleton. right.
      apply InTree_list. exists p. split; assumption.
  - intros [x [Hx Ek]]. apply InTree_singleton in Hx. destruct Hx as [E|Hx].
    + subst x. left. exact Ek.
    + right. apply InTree_list in Hx. destruct Hx as [p [Hp Hx]].
      exists p. split; [exact Hp|]. apply (Hall p Hp). exists x. split; assumption.
Qed.

Lemma keysAreTheTree_all (r : FormattedDataType) :
  keysAreTheTree r /\ Forall keysAreTheTree (childrenOrNil r).
Proof.
  induction r as [k n kd e tm ch c ps IHtm IHch] using row_nested_ind.
  assert (Hch : Forall keysAreTheTree
                  (childrenOrNil (mkRow k n kd e tm ch c ps))).
  { unfold childrenOrNil. simpl. destruct ch as [l|]; [|constructor].
    specialize (IHch l eq_refl). rewrite Forall_forall in *.
    intros x Hx. apply (IHch x Hx). }
  split; [|exact Hch].
  apply keysAreTheTree_from_nested.
  destruct (nestedColumns_cases (mkRow k n kd e tm ch c ps))
    as [E|[E|[t [Et E]]]]; rewrite E.
  - constructor.
  - exact Hch.
  - simpl in Et. apply (IHtm t Et).
Qed.

(** C8, as the code has it.  [allColumnKeys] holds exactly the keys of the
    rows of the tree the walk visits, expandable or not: the top-level rows
    and, below each row, the children of its type metadata or else its own
    children.  In particular the key of every expandable row of the tree is
    in it. *)
Theorem allColumnKeys_are_keys_of_all_rows (rows : list FormattedDataType) :
  (forall k, In k (getAllColumnKeys rows)
             <-> exists x, InTree rows x /\ key x = k)
  /\ (forall x, InTree rows x -> isExpandable x = true ->
                In (key x) (getAllColumnKeys rows)).
Proof.
  assert (H : forall k, In k (getAllColumnKeys rows)
                        <-> exists x, InTree rows x /\ key x = k).
  { intros k. rewrite In_getAllColumnKeys. split.
    - intros [p [Hp Hk]]. apply (proj1 (keysAreTheTree_all p)) in Hk.
      destruct Hk as [x [Hx Ek]]. exists x. split; [|exact Ek].
      apply InTree_list. exists p. split; assumption.
    - intros [x [Hx Ek]]. apply InTree_list in Hx. destruct Hx as [p [Hp Hx]].
      exists p. split; [exact Hp|]. apply (proj1 (keysAreTheTree_all p)).
      exists x. split; assumption. }
  split; [exact H|].
  intros x Hx _. apply H. exists x. split; [exact Hx | reflexivity].
Qed.

Lemma allColumnKeys_witness :
  In "t/c" (getAllColumnKeys [Sample.arrayOfStruct; Sample.mapColumn]).
Proof.
  apply (proj2 (allColumnKeys_are_keys_of_all_rows
                  [Sample.arrayOfStruct; Sample.mapColumn])
               Sample.arrayOfStruct).
  - apply InTree_top. left. reflexivity.
  - reflexivity.
Defined.

(** C8, as stated, fails: the key of a row that is not expandable is among
    the keys. *)
Lemma allColumnKeys_has_key_of_plain_row :
  let rows := [Sample.column "t/p" "p" false None] in
  ~ (forall k, In k (getAllColumnKeys rows) ->
               exists x, InTree rows x /\ isExpandable x = true /\ key x = k).
Proof.
  intros rows H. destruct (H "t/p") as [x [Hx [He Ek]]].
  - left. reflexivity.
  - apply InTree_singleton in Hx. destruct Hx as [E|Hx].
    + subst x. discriminate He.
    + inversion Hx as [d y Hin|d p y Hin Hn]; subst; destruct Hin.
Qed.

(** ** Validation *)

Lemma fieldIsDefined_false (f : string) (row : FormattedDataType) :
  fieldIsDefined f row = false <-> getProp row f = JsUndefined.
Proof.
  unfold fieldIsDefined. destruct (getProp row f); simpl; split;
    intros H; try reflexivity; discriminate H.
Qed.

Lemma checkIfValidData_false (rows : list FormattedDataType) (fields : list string) :
  checkIfValidData rows fields = false
  <-> exists f, In f fields /\ forall row, In row rows -> getProp row f = JsUndefined.
Proof.
  induction fields as [|f fields IH]; simpl.
  - split; [discriminate | intros [f [[] _]]].
  - destruct (existsb (fieldIsDefined f) rows) eqn:E; simpl.
    + rewrite IH. apply existsb_exists in E. destruct E as [row [Hrow Hdef]].
      split.
      * intros [g [Hg Hall]]. exists g. split; [right; exact Hg | exact Hall].
      * intros [g [[Eg|Hg] Hall]]; [|exists g; split; assumption].
        subst g. apply Hall, fieldIsDefined_false in Hrow.
        rewrite Hrow in Hdef. discriminate Hdef.
    + split; [intros _|reflexivity]. exists f. split; [left; reflexivity|].
      intros row Hrow. apply fieldIsDefined_false.
      destruct (fieldIsDefined f row) eqn:Hd; [|reflexivity].
      assert (existsb (fieldIsDefined f) rows = true)
        by (apply existsb_exists; exists row; split; assumption).
      congruence.
Qed.

Lemma checkIfValidData_true (rows : list FormattedDataType) (fields : list string) :
  checkIfValidData rows fields = true
  <-> forall f, In f fields -> exists row, In row rows /\ fieldIsDefined f row = true.
Proof.
  induction fields as [|f fields IH]; simpl.
  - split; [intros _ f [] | reflexivity].
  - destruct (existsb (fieldIsDefined f) rows) eqn:E; simpl.
    + rewrite IH. apply existsb_exists in E. split.
      * intros H g [<-|Hg]; [exact E | apply H; exact Hg].
      * intros H g Hg. apply H. right. exact Hg.
    + split; [discriminate|]. intros H.
      destruct (H f (or_introl eq_refl)) as [row [Hrow Hdef]].
      assert (existsb (fieldIsDefined f) rows = true)
        by (apply existsb_exists; exists row; split; assumption).
      congruence.
Qed.

(** ** The initial expansion state *)

Section InitialExpansion.
Variable K : TableConstants.
Variable String_match : string -> string -> result (option string).

Lemma getKeysToExpand_no_target (fuel : nat) (tableKey : option string) :
  getKeysToExpand K String_match fuel None tableKey = Ok [].
Proof. reflexivity. Qed.

Lemma getKeysToExpand_no_match (fuel : nat) (target : string)
      (tableKey : option string) :
  String_match target (columnKeyRegex K tableKey) = Ok None ->
  String_match target
               (columnKeyRegex K tableKey ++ TYPE_METADATA_REGEX K)%string
  = Ok None ->
  getKeysToExpand K String_match fuel (Some target) tableKey = Ok [].
Proof.
  intros H1 H2. unfold getKeysToExpand, columnKeyRegex in *.
  destruct target as [|a s]; [reflexivity|].
  rewrite H1. simpl. destruct fuel; simpl; rewrite H2; reflexivity.
Qed.

Lemma getInitialExpandedRows_beyond (fuel : nat) (rows : list FormattedDataType)
      (allColumnKeys : list string) (maxNumRows : nat)
      (preExpandPanelKey tableKey : option string) :
  maxNumRows < List.length allColumnKeys ->
  getInitialExpandedRows K String_match fuel rows allColumnKeys
                         (Some maxNumRows) preExpandPanelKey tableKey
  = getKeysToExpand K String_match fuel preExpandPanelKey tableKey.
Proof.
  intros H. unfold getInitialExpandedRows, lengthAtMost.
  destruct (Nat.leb_spec (List.length allColumnKeys) maxNumRows); [lia|].
  reflexivity.
Qed.
End InitialExpansion.

(** The mount effect leaves the initial state in place when no expand-all
    flag is given and there are more keys than the maximum. *)
Lemma expandOrCollapseAllRows_beyond (allColumnKeys initialRows : list string)
      (maxNumRows : nat) (hasToggle : bool) :
  maxNumRows < List.length allColumnKeys ->
  let effect := expandOrCollapseAllRows allColumnKeys None initialRows
                                        (Some maxNumRows) hasToggle in
  effect = setExpandedRows initialRows
  \/ effect = toggleExpandingRows
  \/ effect = noEffect.
Proof.
  intros H. unfold expandOrCollapseAllRows.
  destruct maxNumRows as [|m]; [auto|].
  destruct (Nat.ltb (S m) (List.length allColumnKeys)); [|auto].
  destruct (Nat.ltb 0 (List.length initialRows)); [auto|].
  destruct hasToggle; auto.
Qed.

(** *** The loop over the patterns *)

Lemma string_append_assoc (a b c : string) :
  ((a ++ b) ++ c = a ++ (b ++ c))%string.
Proof. induction a as [|x a IH]; simpl; [reflexivity | rewrite IH; reflexivity]. Qed.

Lemma string_append_nil_r (a : string) : (a ++ "")%string = a.
Proof. induction a as [|x a IH]; simpl; [reflexivity | rewrite IH; reflexivity]. Qed.

Lemma str_repeat_snoc (s : string) (n : nat) :
  (str_repeat s n ++ s)%string = str_repeat s (S n).
Proof.
  induction n as [|n IH]; simpl.
  - symmetry. apply string_append_nil_r.
  - rewrite string_append_assoc, IH. reflexivity.
Qed.

Lemma keyPattern_type_metadata (K : TableConstants) (tableKey : option string) :
  ((js_to_string tableKey ++ COLUMN_NAME_REGEX K) ++ TYPE_METADATA_REGEX K)%string
  = keyPattern K tableKey 1.
Proof. unfold keyPattern. simpl. rewrite string_append_nil_r. reflexivity. Qed.

Lemma keyPattern_next (K : TableConstants) (tableKey : option string) (d : nat) :
  (keyPattern K tableKey (S d) ++ COLUMN_NAME_REGEX K)%string
  = keyPattern K tableKey (S (S d)).
Proof.
  unfold keyPattern. rewrite !string_append_assoc, str_repeat_snoc. reflexivity.
Qed.

Section PathOfTheTarget.
Variable K : TableConstants.
Variable String_match : string -> string -> result (option string).
Variable target : string.
Variable tableKey : option string.

Lemma nextKeys_NestedKeys (fuel : nat) :
  forall depth acc keys,
    nextKeys K String_match fuel target (keyPattern K tableKey (S depth)) acc
    = Ok keys ->
    exists nested,
      NestedKeys K String_match target tableKey (S depth) nested
      /\ keys = acc ++ nested.
Proof.
  induction fuel as [|fuel IH]; intros depth acc keys H; cbn [nextKeys] in H;
    destruct (String_match target (keyPattern K tableKey (S depth)))
      as [[k|]| |] eqn:E; cbn [bind] in H; try discriminate.
  - injection H as <-. exists []. split; [apply NestedKeys_end; exact E|].
    symmetry. apply app_nil_r.
  - rewrite keyPattern_next in H. apply IH in H.
    destruct H as [nested [Hn ->]]. exists (k :: nested).
    split; [apply NestedKeys_next; assumption|].
    rewrite <- app_assoc. reflexivity.
  - injection H as <-. exists []. split; [apply NestedKeys_end; exact E|].
    symmetry. apply app_nil_r.
Qed.

Lemma NestedKeys_nextKeys (depth : nat) (nested : list string) :
  NestedKeys K String_match target tableKey depth nested ->
  forall d fuel acc,
    depth = S d ->
    List.length nested <= fuel ->
    nextKeys K String_match fuel target (keyPattern K tableKey (S d)) acc
    = Ok (acc ++ nested).
Proof.
  intros H. induction H as [depth E|depth k keys E Hn IH];
    intros d fuel acc -> Hle.
  - rewrite app_nil_r. destruct fuel; cbn [nextKeys]; rewrite E; reflexivity.
  - destruct fuel as [|fuel]; [simpl in Hle; lia|].
    cbn [nextKeys]. rewrite E. cbn [bind]. rewrite keyPattern_next.
    rewrite (IH (S d) fuel (acc ++ [k]) eq_refl) by (simpl in Hle; lia).
    rewrite <- app_assoc. reflexivity.
Qed.

Lemma getKeysToExpand_PathKeys (fuel : nat) (keys : list string) :
  target <> "" ->
  getKeysToExpand K String_match fuel (Some target) tableKey = Ok keys ->
  PathKeys K String_match target tableKey keys.
Proof.
  intros Hne H. unfold getKeysToExpand in H.
  destruct target as [|a t] eqn:Et; [contradiction|]. rewrite <- Et in *.
  apply bind_Ok_inv in H. destruct H as [columnKey [Hc H]].
  rewrite keyPattern_type_metadata in H.
  apply nextKeys_NestedKeys in H. destruct H as [nested [Hn ->]].
  exists columnKey, nested. split; [exact Hc | split; [exact Hn | reflexivity]].
Qed.

Lemma PathKeys_getKeysToExpand (fuel : nat) (keys : list string) :
  target <> "" ->
  PathKeys K String_match target tableKey keys ->
  List.length keys <= fuel ->
  getKeysToExpand K String_match fuel (Some target) tableKey = Ok keys.
Proof.
  intros Hne [columnKey [nested [Hc [Hn ->]]]] Hle. unfold getKeysToExpand.
  destruct target as [|a t] eqn:Et; [contradiction|]. rewrite <- Et in *.
  unfold keyPattern in Hc. rewrite Hc. simpl.
  rewrite keyPattern_type_metadata.
  apply (NestedKeys_nextKeys Hn); [reflexivity|].
  rewrite length_app in Hle. lia.
Qed.
End PathOfTheTarget.

(** C5, as the code has it.  When there are more keys than the maximum the
    initial expansion state is computed from the deep-link target alone,
    never taken from [allColumnKeys].  Without a target it is empty, and so
    not the list of all the keys.  With a target it is exactly the list of
    the keys on the path of the target: the text matched by the pattern of
    a column key, then the texts matched by the patterns of the nested keys,
    one level after the other up to the first that does not match; so it is
    empty when the target matches neither the column pattern nor the
    pattern of the type metadata below it, each key is a piece of the
    target when the matcher answers with pieces of its subject, and it is
    the list of all the keys only if that list is the path of the target. *)
Theorem initial_rows_beyond_maximum_come_from_target
        (K : TableConstants)
        (String_match : string -> string -> result (option string))
        (fuel : nat) (rows : list FormattedDataType)
        (allColumnKeys : list string) (maxNumRows : nat)
        (preExpandPanelKey tableKey : option string) :
  maxNumRows < List.length allColumnKeys ->
  let initial :=
    getInitialExpandedRows K String_match fuel rows allColumnKeys
                           (Some maxNumRows) preExpandPanelKey tableKey in
  (preExpandPanelKey = None \/ preExpandPanelKey = Some "" ->
   initial = Ok [] /\ initial <> Ok allColumnKeys)
  /\ (forall target,
        preExpandPanelKey = Some target ->
        target <> "" ->
        (forall keys,
           initial = Ok keys -> PathKeys K String_match target tableKey keys)
        /\ (forall keys,
              PathKeys K String_match target tableKey keys ->
              List.length keys <= fuel ->
              initial = Ok keys)
        /\ (String_match target (keyPattern K tableKey 0) = Ok None ->
            String_match target (keyPattern K tableKey 1) = Ok None ->
            initial = Ok [])
        /\ (initial = Ok allColumnKeys ->
            PathKeys K String_match target tableKey allColumnKeys)
        /\ (matchesArePieces String_match ->
            forall keys,
              initial = Ok keys -> Forall (fun k => occursIn k target) keys)).
Proof.
  intros H initial. unfold initial.
  rewrite (getInitialExpandedRows_beyond K String_match fuel rows
             allColumnKeys preExpandPanelKey tableKey H).
  split.
  - intros [->| ->]; (split; [reflexivity|]); intros E; injection E as <-;
      simpl in H; lia.
  - intros target -> Hne.
    assert (Hpath : forall keys,
               getKeysToExpand K String_match fuel (Some target) tableKey = Ok keys ->
               PathKeys K String_match target tableKey keys)
      by (intros keys; apply getKeysToExpand_PathKeys; exact Hne).
    split; [exact Hpath|]. split; [|split; [|split]].
    + intros keys Hp Hle. apply PathKeys_getKeysToExpand; assumption.
    + intros H0 H1. apply PathKeys_getKeysToExpand; [exact Hne| |simpl; lia].
      exists None, []. split; [exact H0|].
      split; [apply NestedKeys_end; exact H1 | reflexivity].
    + apply Hpath.
    + intros Hpieces keys Hk. apply Hpath in Hk.
      destruct Hk as [columnKey [nested [Hc [Hn ->]]]].
      apply Forall_app. split.
      * destruct columnKey as [k|]; constructor; [|constructor].
        exact (Hpieces _ _ _ Hc).
      * clear Hc. induction Hn as [depth E|depth k keys E Hn IH];
          constructor; [exact (Hpieces _ _ _ E) | exact IH].
Qed.

(** Fifty keys, a maximum of twenty and a target two levels below a column:
    the initial state is the three keys on the path of the target. *)
Lemma initial_rows_beyond_maximum_witness :
  PathKeys Sample.constants Regex.String_match "t/c/type/c/x" (Some "t")
           ["t/c"; "t/c/type/c"; "t/c/type/c/x"]
  /\ getInitialExpandedRows Sample.constants Regex.String_match 5 []
                            (map (fun n => String (ascii_of_nat (65 + n)) "")
                                 (seq 0 50))
                            (Some 20) (Some "t/c/type/c/x") (Some "t")
     = Ok ["t/c"; "t/c/type/c"; "t/c/type/c/x"].
Proof.
  assert (Hmax : 20 < List.length (map (fun n => String (ascii_of_nat (65 + n)) "")
                                       (seq 0 50)))
    by (vm_compute; lia).
  assert (Htarget : "t/c/type/c/x" <> "") by discriminate.
  pose proof (proj2 (initial_rows_beyond_maximum_come_from_target
                       Sample.constants Regex.String_match 5 []
                       (map (fun n => String (ascii_of_nat (65 + n)) "")
                            (seq 0 50))
                       (Some "t/c/type/c/x") (Some "t") Hmax)
                    "t/c/type/c/x" eq_refl Htarget) as [Hpath _].
  split; [apply Hpath|]; vm_compute; reflexivity.
Defined.

(** C5, as stated, fails where it says that the initial state is not the
    full key set: the keys matched along the target can be all the keys
    there are.  Two rows whose keys are the column and its type metadata, a
    maximum of one. *)
Lemma initial_rows_can_be_all_the_keys :
  let rows := [Sample.column "t/a" "a" false None;
               Sample.column "t/a/type/a" "a" false None] in
  1 < List.length (getAllColumnKeys rows)
  /\ initialExpandedRows Sample.constants Regex.String_match 5 rows
                         (Some 1) (Some "t/a/type/a") (Some "t")
     = Ok (getAllColumnKeys rows).
Proof. vm_compute. split; [lia | reflexivity]. Qed.

(** Whatever the matcher and the constants: when the target matches the
    column pattern and nothing below it, and the column key is the only key
    there is, the initial state beyond a maximum of zero is that key. *)
Lemma initial_rows_coincide_with_a_single_key
      (K : TableConstants)
      (String_match : string -> string -> result (option string))
      (fuel : nat) (rows : list FormattedDataType)
      (a : ascii) (target k : string) (tableKey : option string) :
  String_match (String a target) (columnKeyRegex K tableKey) = Ok (Some k) ->
  String_match (String a target)
               (columnKeyRegex K tableKey ++ TYPE_METADATA_REGEX K)%string
  = Ok None ->
  getInitialExpandedRows K String_match fuel rows [k] (Some 0)
                         (Some (String a target)) tableKey
  = Ok [k].
Proof.
  intros H1 H2. unfold getInitialExpandedRows, getKeysToExpand. simpl.
  unfold columnKeyRegex in *. rewrite H1. simpl.
  destruct fuel; simpl; rewrite H2; reflexivity.
Qed.

(** The same with fifty keys and a maximum of twenty: a target fifty levels
    deep and rows that carry the fifty keys along it. *)
Lemma initial_rows_can_be_all_fifty_keys :
  let rows := map (fun n => Sample.column (deepKey n) "c" false None) (seq 0 50) in
  List.length (getAllColumnKeys rows) = 50
  /\ initialExpandedRows Sample.constants Regex.String_match 50 rows
                         (Some 20) (Some (deepKey 49)) (Some "t")
     = Ok (getAllColumnKeys rows).
Proof. vm_compute. split; reflexivity. Qed.

(** ** Rows without children *)

(** C7 fails on the code.  A row marked expandable that has neither type
    metadata nor children, with its key in the expansion state: reading the
    children throws. *)
Theorem expanded_row_without_children_throws (fuel : nat) :
  getTableRows Sample.constants fuel
               (Sample.details [Sample.childless] ["t/e"])
  = Throw TypeError.
Proof.
  rewrite getTableRows_eq. cbn [Sample.details data fold_left].
  unfold tableRowsStep. destruct fuel; reflexivity.
Qed.

(** The same for every such row, whatever its kind and the formatter. *)
Lemma getFormattedChildrenData_childless format item :
  typeMetadata item = None -> children item = None ->
  getFormattedChildrenData format item = Throw TypeError.
Proof. intros H1 H2. unfold getFormattedChildrenData. rewrite H1, H2. reflexivity. Qed.

Lemma handleSpecificTypeRowData_childless K format fuel item :
  typeMetadata item = None -> children item = None ->
  handleSpecificTypeRowData K format (S fuel) item = Throw TypeError.
Proof.
  intros H1 H2. unfold handleSpecificTypeRowData. rewrite H1. simpl.
  destruct (kindIs (ARRAY_KIND K) item) eqn:Ek; simpl.
  - rewrite getFormattedChildrenData_childless by assumption. reflexivity.
  - rewrite Ek. rewrite getFormattedChildrenData_childless by assumption.
    reflexivity.
Qed.

Lemma expanded_childless_row_throws K format fuel item cols expanded level :
  typeMetadata item = None -> children item = None ->
  isExpandable item = true -> In (key item) expanded ->
  getTableRows K (S fuel) (mkDetails [item] cols expanded (Some format) level)
  = Throw TypeError.
Proof.
  intros Htm Hch He Hin.
  pose (d := mkDetails [] cols expanded (Some format) level).
  change (mkDetails [item] cols expanded (Some format) level)
    with (withData d [item]).
  rewrite getTableRows_cons.
  rewrite (@itemRows_expanded K fuel d format item eq_refl)
    by (simpl; rewrite He; apply includes_In in Hin; rewrite Hin; reflexivity).
  rewrite handleSpecificTypeRowData_childless by assumption. reflexivity.
Qed.

(** ** The rows as a derivation

    What [getTableRows] returns, read as a relation between the data, the
    level and the rows: row by row, a collapsed row gives its own row, an
    expanded row gives its own row, the opener, the rows of its formatted
    children one level deeper, and the closer. *)

Lemma opener_closer_Brackets K rv n level cnt o c :
  getSpecificTypeOpenerRow K rv n level cnt = Ok o ->
  getSpecificTypeCloserRow K rv n level cnt = Ok c ->
  Brackets K rv n level o c.
Proof.
  unfold getSpecificTypeOpenerRow, getSpecificTypeCloserRow.
  destruct (hasSpecificTypeHandling K rv n) eqn:Hh; simpl.
  - destruct (arrayOfLength cnt) as [ph| |]; simpl; try discriminate.
    intros [= <-] [= <-]. apply Brackets_pair. exact Hh.
  - intros [= <-] [= <-]. apply Brackets_none. exact Hh.
Qed.

(** The opener is there exactly when the closer is, exactly when the row to
    display has a positive array count or is a map. *)
Lemma Brackets_present_iff K rv n level o c :
  Brackets K rv n level o c ->
  (o = RNull <-> c = RNull)
  /\ (o <> RNull <-> hasSpecificTypeHandling K rv n = true)
  /\ (hasSpecificTypeHandling K rv n = true
      <-> Nat.ltb 0 n = true \/ kindIs (MAP_KIND K) rv = true).
Proof.
  intros H. split; [|split].
  - destruct H; split; intros E; try reflexivity; discriminate E.
  - destruct H as [Hh|ph Hh]; rewrite Hh; split; intros E;
      try reflexivity; try discriminate; congruence.
  - unfold hasSpecificTypeHandling. apply orb_true_iff.
Qed.

Lemma opener_closer_of_columns K rv n level (cols : list TableColumn) :
  cols <> [] ->
  let cnt := (Z.of_nat (List.length cols) - 1)%Z in
  hasSpecificTypeHandling K rv n = true ->
  getSpecificTypeOpenerRow K rv n level cnt
  = Ok (OpenerRow (key rv) (arrayOpenerLabelOf K n) (mapOpenerLabelOf K rv)
                  level (List.length cols - 1))
  /\ getSpecificTypeCloserRow K rv n level cnt
     = Ok (CloserRow (key rv) (mapCloserLabelOf K rv) (arrayCloserLabelOf K n)
                     level (List.length cols - 1)).
Proof.
  intros Hc cnt Hh.
  unfold getSpecificTypeOpenerRow, getSpecificTypeCloserRow, arrayOfLength.
  rewrite Hh. simpl.
  assert (Hlen : 0 < List.length cols)
    by (destruct cols; [contradiction | simpl; lia]).
  destruct (Z.ltb_spec cnt 0) as [Hneg|Hpos]; [unfold cnt in Hneg; lia|].
  simpl. replace (Z.to_nat cnt) with (List.length cols - 1)
    by (unfold cnt; lia).
  split; reflexivity.
Qed.

Section Derivation.
Variable K : TableConstants.
Variable cols : list TableColumn.
Variable expanded : list string.
Variable format : option (FormattedDataType -> nat -> FormattedDataType).

Lemma isShownExpanded_true (x : FormattedDataType) :
  isShownExpanded expanded format x = true ->
  exists f, format = Some f
            /\ isExpandable x && includes expanded (key x) = true.
Proof.
  unfold isShownExpanded. destruct format as [f|]; [|discriminate].
  intros H. exists f. split; [reflexivity | exact H].
Qed.

Lemma isShownExpanded_false (x : FormattedDataType) :
  isShownExpanded expanded format x = false ->
  format = None \/ isExpandable x && includes expanded (key x) = false.
Proof.
  unfold isShownExpanded. destruct format as [f|]; [right | left]; auto.
Qed.

Lemma getTableRows_step (fuel : nat) (x : FormattedDataType)
      (l : list FormattedDataType) (level : nat) (out : list ReactNode) :
  getTableRows K fuel (detailsAt cols expanded format (x :: l) level) = Ok out ->
  exists first rest,
    itemRows K fuel (detailsAt cols expanded format l level) x = Ok first
    /\ getTableRows K fuel (detailsAt cols expanded format l level) = Ok rest
    /\ out = first ++ rest.
Proof.
  intros H.
  change (detailsAt cols expanded format (x :: l) level)
    with (withData (detailsAt cols expanded format l level) (x :: l)) in H.
  rewrite getTableRows_cons in H.
  apply bind_Ok_inv in H. destruct H as [first [Hfirst H]].
  apply bind_Ok_inv in H. destruct H as [rest [Hrest H]].
  injection H as <-. exists first, rest. repeat split; assumption.
Qed.

Lemma getTableRows_Materialized (fuel : nat) :
  forall rows level out,
    getTableRows K fuel (detailsAt cols expanded format rows level) = Ok out ->
    Materialized K expanded format rows level out.
Proof.
  induction fuel as [|fuel IH]; intros rows level;
    induction rows as [|x l IHl]; intros out H.
  - change (detailsAt cols expanded format [] level) with (withData (detailsAt cols expanded format [] level) []) in H.
    rewrite getTableRows_nil in H. injection H as <-. constructor.
  - apply getTableRows_step in H.
    destruct H as [first [rest [Hfirst [Hrest ->]]]].
    destruct (isShownExpanded expanded format x) eqn:He.
    + destruct (isShownExpanded_true x He) as [f [Hf Hc]].
      rewrite (@itemRows_no_fuel K (detailsAt cols expanded format l level) f x Hf Hc)
        in Hfirst.
      apply bind_Ok_inv in Hfirst. destruct Hfirst as [[[rv fc] n] [_ Hfirst]].
      apply bind_Ok_inv in Hfirst. destruct Hfirst as [o [_ Hfirst]].
      apply bind_Ok_inv in Hfirst. destruct Hfirst as [c [_ Hfirst]].
      discriminate Hfirst.
    + rewrite (@itemRows_collapsed K 0 (detailsAt cols expanded format l level) x
                 (isShownExpanded_false x He)) in Hfirst.
      injection Hfirst as <-. simpl.
      apply Materialized_collapsed; [exact He|]. apply IHl. exact Hrest.
  - change (detailsAt cols expanded format [] level) with (withData (detailsAt cols expanded format [] level) []) in H.
    rewrite getTableRows_nil in H. injection H as <-. constructor.
  - apply getTableRows_step in H.
    destruct H as [first [rest [Hfirst [Hrest ->]]]].
    destruct (isShownExpanded expanded format x) eqn:He.
    + destruct (isShownExpanded_true x He) as [f [Hf Hc]].
      rewrite (@itemRows_expanded K fuel (detailsAt cols expanded format l level) f x Hf Hc)
        in Hfirst.
      apply bind_Ok_inv in Hfirst. destruct Hfirst as [[[rv fc] n] [Hh Hfirst]].
      apply bind_Ok_inv in Hfirst. destruct Hfirst as [o [Ho Hfirst]].
      apply bind_Ok_inv in Hfirst. destruct Hfirst as [c [Hc' Hfirst]].
      apply bind_Ok_inv in Hfirst. destruct Hfirst as [nested [Hn Hfirst]].
      injection Hfirst as <-. simpl. rewrite <- app_assoc. simpl.
      apply (@Materialized_expanded K expanded format x l level f (S fuel) rv fc n o c
               nested rest Hf He Hh (opener_closer_Brackets _ _ _ _ _ Ho Hc')).
      * apply IH. exact Hn.
      * apply IHl. exact Hrest.
    + rewrite (@itemRows_collapsed K (S fuel) (detailsAt cols expanded format l level) x
                 (isShownExpanded_false x He)) in Hfirst.
      injection Hfirst as <-. simpl.
      apply Materialized_collapsed; [exact He|]. apply IHl. exact Hrest.
Qed.
End Derivation.

(** ** Fuel of the array loop *)

Lemma skipArrays_more_fuel K format fuel rv n r :
  skipArrays K format fuel rv n = Ok r ->
  forall fuel', fuel <= fuel' -> skipArrays K format fuel' rv n = Ok r.
Proof.
  revert rv n. induction fuel as [|fuel IH]; intros rv n H fuel' Hle.
  - simpl in H. destruct (kindIs (ARRAY_KIND K) rv) eqn:Ek; [discriminate|].
    destruct fuel'; simpl; rewrite Ek; exact H.
  - destruct fuel' as [|fuel']; [lia|]. simpl in *.
    destruct (kindIs (ARRAY_KIND K) rv); [|exact H].
    destruct (getFormattedChildrenData format rv) as [[|first rest]| |];
      simpl in *; try discriminate.
    destruct (isExpandable first); [|exact H].
    apply IH; [exact H | lia].
Qed.

Lemma handleSpecificTypeRowData_more_fuel K format fuel x r :
  handleSpecificTypeRowData K format fuel x = Ok r ->
  forall fuel', fuel <= fuel' -> handleSpecificTypeRowData K format fuel' x = Ok r.
Proof.
  unfold handleSpecificTypeRowData. intros H fuel' Hle.
  apply bind_Ok_inv in H. destruct H as [initial [Hi H]]. rewrite Hi. simpl.
  apply bind_Ok_inv in H. destruct H as [[rv n] [Hs H]].
  eapply skipArrays_more_fuel in Hs; [|exact Hle]. rewrite Hs. simpl. exact H.
Qed.

Lemma handleSpecificTypeRowData_deterministic K format fuel1 fuel2 x r1 r2 :
  handleSpecificTypeRowData K format fuel1 x = Ok r1 ->
  handleSpecificTypeRowData K format fuel2 x = Ok r2 ->
  r1 = r2.
Proof.
  intros H1 H2.
  apply handleSpecificTypeRowData_more_fuel with (fuel' := Nat.max fuel1 fuel2) in H1;
    [|lia].
  apply handleSpecificTypeRowData_more_fuel with (fuel' := Nat.max fuel1 fuel2) in H2;
    [|lia].
  congruence.
Qed.

(** ** Which rows are shown *)

Section ShownRows.
Variable K : TableConstants.
Variable expanded : list string.
Variable format : option (FormattedDataType -> nat -> FormattedDataType).

Lemma Shown_cons p rows depth x :
  Shown K expanded format rows depth x -> Shown K expanded format (p :: rows) depth x.
Proof.
  intros H. destruct H as [rows x Hin|rows q f lf rv fc n depth x Hin Hf He Hh Hs].
  - apply Shown_top. right. exact Hin.
  - eapply Shown_nested; [right; exact Hin | exact Hf | exact He | exact Hh | exact Hs].
Qed.

Lemma Brackets_not_TableRow rv n level o c x l :
  Brackets K rv n level o c -> o <> TableRow x l /\ c <> TableRow x l.
Proof. intros [H|ph H]; split; discriminate. Qed.

Lemma Materialized_shown rows level out :
  Materialized K expanded format rows level out ->
  forall x l,
    In (TableRow x l) out
    <-> exists depth, l = level + depth /\ Shown K expanded format rows depth x.
Proof.
  intros H. induction H as [level|x0 l0 level rest He Hrest IH
                            |x0 l0 level f lf rv fc n o c nested rest
                               Hf He Hh Hb Hn IHn Hrest IH]; intros x l.
  - split; [intros []|]. intros [depth [_ Hs]].
    inversion Hs as [? ? Hin|? ? ? ? ? ? ? ? ? Hin]; destruct Hin.
  - split.
    + intros [E|Hin].
      * injection E as -> ->. exists 0. split; [lia|].
        apply Shown_top. left. reflexivity.
      * apply IH in Hin. destruct Hin as [depth [El Hs]].
        exists depth. split; [exact El | apply Shown_cons; exact Hs].
    + intros [depth [El Hs]].
      inversion Hs as [? ? Hin|? p ? ? ? ? ? depth' ? Hin Hf' He' Hh' Hs'];
        subst.
      * destruct Hin as [E|Hin]; [subst; left; f_equal; lia|].
        right. apply IH. exists 0. split; [reflexivity|].
        apply Shown_top. exact Hin.
      * destruct Hin as [E|Hin]; [subst p; congruence|].
        right. apply IH. exists (S depth'). split; [reflexivity|].
        eapply Shown_nested; [exact Hin | first [exact Hf' | reflexivity] | exact He' | exact Hh' | exact Hs'].
  - destruct (Brackets_not_TableRow x l Hb) as [Hno Hnc]. split.
    + intros [E|[E|Hin]]; [| contradiction |].
      * injection E as -> ->. exists 0. split; [lia|].
        apply Shown_top. left. reflexivity.
      * apply in_app_or in Hin. destruct Hin as [Hin|[E|Hin]];
          [| contradiction |].
        -- apply IHn in Hin. destruct Hin as [depth [El Hs]].
           exists (S depth). split; [lia|].
           eapply Shown_nested; [left; reflexivity | first [exact Hf | reflexivity] | exact He | exact Hh | exact Hs].
        -- apply IH in Hin. destruct Hin as [depth [El Hs]].
           exists depth. split; [exact El | apply Shown_cons; exact Hs].
    + intros [depth [El Hs]].
      inversion Hs as [? ? Hin|? p f' lf' rv' fc' n' depth' ? Hin Hf' He' Hh' Hs'];
        subst.
      * destruct Hin as [E|Hin]; [subst; left; f_equal; lia|].
        right. right. apply in_or_app. right. right.
        apply IH. exists 0. split; [reflexivity|].
        apply Shown_top. exact Hin.
      * destruct Hin as [E|Hin].
        -- subst p. assert (f' = f) by congruence. subst f'.
           pose proof (handleSpecificTypeRowData_deterministic _ _ _ _ _ Hh Hh')
             as E.
           injection E as <- <- <-.
           right. right. apply in_or_app. left.
           apply IHn. exists depth'. split; [lia | exact Hs'].
        -- right. right. apply in_or_app. right. right.
           apply IH. exists (S depth'). split; [reflexivity|].
           eapply Shown_nested; [exact Hin | first [exact Hf' | reflexivity] | exact He' | exact Hh' | exact Hs'].
Qed.
End ShownRows.

(** C9, as stated, fails: under an expanded array of structs the fields of
    the struct are shown, two levels below the column, while the key of the
    struct row between them is not in the expansion state. *)
Lemma rows_below_unexpanded_array_layers_are_shown :
  let expanded := ["t/c"] in
  let field := Sample.node "t/c/type/c/_inner_/x" "x" "scalar" [] in
  exists out shown,
    getTableRows Sample.constants 3
                 (Sample.details [Sample.arrayOfStruct] expanded) = Ok out
    /\ In (TableRow shown 1) out
    /\ key shown = key field
    /\ TreePath [Sample.arrayOfStruct] ["t/c"; "t/c/type/c/_inner_"] field
    /\ ~ Forall (fun k => In k expanded) ["t/c"; "t/c/type/c/_inner_"].
Proof.
  intros expanded field. eexists. eexists.
  split; [reflexivity|].
  split; [right; right; left; reflexivity|].
  split; [reflexivity|].
  split.
  - apply (@TreePath_nested _ Sample.arrayOfStruct); [left; reflexivity|].
    apply (@TreePath_nested
             _ (Sample.node "t/c/type/c/_inner_" "_inner_" "struct" [field]));
      [left; reflexivity|].
    apply TreePath_top. left. reflexivity.
  - intros H. inversion H as [|? ? _ H']; subst.
    inversion H' as [|? ? Hin _]; subst.
    destruct Hin as [E|[]]. discriminate E.
Qed.

(** ** Arrays *)

Lemma handleSpecificTypeRowData_eq K format fuel item :
  handleSpecificTypeRowData K format fuel item
  = ' (rv, n) <- skipArrays K format fuel (initialRowToDisplay format item) 0 ;;
    if kindIs (ARRAY_KIND K) rv then Ok (rv, [], n)
    else
      formattedChildren <- getFormattedChildrenData format rv ;;
      if kindIs (MAP_KIND K) rv
      then Ok (rv, updateMapDisplayNames K formattedChildren, n)
      else Ok (rv, formattedChildren, n).
Proof.
  unfold handleSpecificTypeRowData, initialRowToDisplay, getFormattedChildrenData.
  destruct (typeMetadata item) as [tm|]; reflexivity.
Qed.

Lemma ArrayLayers_skipArrays K format row N last :
  ArrayLayers K format row N last ->
  forall fuel count,
    N <= fuel ->
    skipArrays K format fuel row count = Ok (last, count + N)
    /\ kindIs (ARRAY_KIND K) last = true /\ 0 < N.
Proof.
  intros H. induction H as [row terminal others Hk Hc He Ht
                            |row innermost others Hk Hc He Ht
                            |row inner others N last Hk Hc He Hl IH];
    intros fuel count Hle; (destruct fuel as [|fuel]; [lia|]); simpl;
    rewrite Hk, Hc; simpl; rewrite He.
  - rewrite Ht. replace (count + 1) with (S count) by lia.
    split; [reflexivity | split; [reflexivity | lia]].
  - rewrite Ht. replace (count + 2) with (S (S count)) by lia.
    split; [reflexivity | split; [reflexivity | lia]].
  - destruct (IH fuel (S count)) as [Hs [Hkl Hpos]]; [lia|].
    rewrite Hs. replace (S count + N) with (count + S N) by lia.
    split; [reflexivity | split; [exact Hkl | lia]].
Qed.

Lemma kindIs_exclusive (k1 k2 : string) (row : FormattedDataType) :
  k1 <> k2 -> kindIs k1 row = true -> kindIs k2 row = false.
Proof.
  unfold kindIs. destruct (kind row) as [s|]; [|discriminate].
  intros Hne H1. apply String.eqb_eq in H1. subst s.
  apply String.eqb_neq. exact Hne.
Qed.

(** C1, as the code has it.  An expanded row over [N] array layers that end
    in a terminal which is not expandable gives its own row, one opener
    labelled with [N] opening brackets and one closer with [N] closing
    brackets, and no row between them: neither the array layers nor the
    terminal get a row. *)
Theorem nested_arrays_show_brackets_only
        (K : TableConstants)
        (format : FormattedDataType -> nat -> FormattedDataType)
        (fuel : nat) (item last : FormattedDataType) (N : nat)
        (cols : list TableColumn) (expanded : list string) (level : nat) :
  ARRAY_KIND K <> MAP_KIND K ->
  cols <> [] ->
  isExpandable item = true ->
  In (key item) expanded ->
  ArrayLayers K format (initialRowToDisplay format item) N last ->
  N <= fuel ->
  getTableRows K fuel (mkDetails [item] cols expanded (Some format) level)
  = Ok [TableRow item level;
        OpenerRow (key last)
                  (ARRAY_LABEL K ++ str_repeat (ARRAY_OPENER K) N)%string ""
                  level (List.length cols - 1);
        CloserRow (key last) "" (str_repeat (ARRAY_CLOSER K) N)
                  level (List.length cols - 1)].
Proof.
  intros Hkinds Hcols He Hin Hl Hle.
  destruct (ArrayLayers_skipArrays Hl 0 Hle) as [Hs [Hk HN]].
  destruct fuel as [|fuel]; [lia|].
  pose (d := mkDetails [] cols expanded (Some format) level).
  change (mkDetails [item] cols expanded (Some format) level)
    with (withData d [item]).
  rewrite getTableRows_cons, getTableRows_nil.
  rewrite (@itemRows_expanded K fuel d format item eq_refl)
    by (simpl; rewrite He; apply includes_In in Hin; rewrite Hin; reflexivity).
  rewrite handleSpecificTypeRowData_eq, Hs. simpl. rewrite Hk. simpl.
  assert (Hh : hasSpecificTypeHandling K last N = true).
  { unfold hasSpecificTypeHandling.
    destruct (Nat.ltb_spec 0 N); [reflexivity | lia]. }
  destruct (@opener_closer_of_columns K last N level cols Hcols Hh) as [Ho Hc].
  unfold additionalColumns. simpl. rewrite Ho, Hc. simpl.
  change (nestedDetails d []) with (withData (nestedDetails d []) []).
  rewrite getTableRows_nil. simpl.
  unfold arrayOpenerLabelOf, arrayCloserLabelOf, mapOpenerLabelOf, mapCloserLabelOf.
  rewrite (kindIs_exclusive last Hkinds Hk).
  destruct (Nat.ltb_spec 0 N); [reflexivity | lia].
Qed.

Lemma nested_arrays_show_brackets_only_witness :
  getTableRows Sample.constants 2
               (Sample.details [Sample.arrayOfArrayOfInt]
                               (getAllColumnKeys [Sample.arrayOfArrayOfInt]))
  = Ok [TableRow Sample.arrayOfArrayOfInt 0;
        OpenerRow "t/b/type/b/_inner_" "array[[" "" 0 0;
        CloserRow "t/b/type/b/_inner_" "" "]]" 0 0].
Proof.
  apply (@nested_arrays_show_brackets_only
           Sample.constants Sample.format 2 Sample.arrayOfArrayOfInt
           (Sample.format
              (Sample.node "t/b/type/b/_inner_" "_inner_" "array"
                 [Sample.node "t/b/type/b/_inner_/_inner_" "_inner_" "scalar" []])
              0)
           2 [Sample.contentColumn]
           (getAllColumnKeys [Sample.arrayOfArrayOfInt]) 0).
  - discriminate.
  - discriminate.
  - reflexivity.
  - left. reflexivity.
  - eapply ArrayLayers_layer;
      [reflexivity | reflexivity | reflexivity |].
    eapply ArrayLayers_terminal; reflexivity.
  - apply le_n.
Defined.

(** C1, as stated, fails: with every key expanded, an array of a scalar
    gives the row of the column, the opener and the closer, and no row for
    the scalar. *)
Lemma array_of_scalar_has_no_terminal_row :
  let expanded := getAllColumnKeys [Sample.arrayOfInt] in
  exists out,
    getTableRows Sample.constants 2
                 (Sample.details [Sample.arrayOfInt] expanded) = Ok out
    /\ out = [TableRow Sample.arrayOfInt 0;
              OpenerRow "t/a/type/a" "array[" "" 0 0;
              CloserRow "t/a/type/a" "" "]" 0 0]
    /\ List.length (tableRowsAt 1 out) <> 1.
Proof.
  eexists. split; [reflexivity|]. split; [reflexivity|].
  vm_compute. discriminate.
Qed.

(** ** Maps *)

Lemma skipArrays_not_array K format fuel row count :
  kindIs (ARRAY_KIND K) row = false ->
  skipArrays K format fuel row count = Ok (row, count).
Proof. intros H. destruct fuel; simpl; rewrite H; reflexivity. Qed.

Lemma updateMapDisplayNames_key K (l : list FormattedDataType) :
  map key (updateMapDisplayNames K l) = map key l.
Proof. unfold updateMapDisplayNames. rewrite map_map. reflexivity. Qed.

Lemma updateMapDisplayNames_collapsed K expanded (l : list FormattedDataType) :
  (forall x, In x l -> isExpandable x && includes expanded (key x) = false) ->
  forall x, In x (updateMapDisplayNames K l) ->
            isExpandable x && includes expanded (key x) = false.
Proof.
  intros H x Hin. unfold updateMapDisplayNames in Hin.
  apply in_map_iff in Hin. destruct Hin as [y [<- Hy]]. simpl. apply H. exact Hy.
Qed.

(** C4. An expanded row whose row to display is of the map kind, with two
    children that the formatter names by the key name and the value name and
    that are not expanded themselves, gives its own row, the map opener,
    exactly two rows for the children, and the map closer; the titles of the
    two rows are the display names of key and value, in that order, and
    differ from the names of the children. *)
Theorem map_children_are_titled_by_display_names
        (K : TableConstants)
        (format : FormattedDataType -> nat -> FormattedDataType)
        (fuel : nat) (item rv k v : FormattedDataType)
        (cols : list TableColumn) (expanded : list string) (level : nat) :
  ARRAY_KIND K <> MAP_KIND K ->
  MAP_KEY_NAME K <> MAP_VALUE_NAME K ->
  MAP_KEY_DISPLAY_NAME K <> MAP_KEY_NAME K ->
  MAP_VALUE_DISPLAY_NAME K <> MAP_VALUE_NAME K ->
  cols <> [] ->
  isExpandable item = true ->
  In (key item) expanded ->
  initialRowToDisplay format item = rv ->
  kindIs (MAP_KIND K) rv = true ->
  typeMetadata rv = None ->
  children rv = Some [k; v] ->
  name (format k 0) = MAP_KEY_NAME K ->
  name (format v 1) = MAP_VALUE_NAME K ->
  isExpandable (format k 0) && includes expanded (key (format k 0)) = false ->
  isExpandable (format v 1) && includes expanded (key (format v 1)) = false ->
  1 <= fuel ->
  let shown := updateMapDisplayNames K [format k 0; format v 1] in
  getTableRows K fuel (mkDetails [item] cols expanded (Some format) level)
  = Ok (TableRow item level
        :: OpenerRow (key rv) "" (MAP_LABEL K ++ MAP_OPENER K)%string
                     level (List.length cols - 1)
        :: map (fun child => TableRow child (S level)) shown
        ++ [CloserRow (key rv) (MAP_CLOSER K) "" level (List.length cols - 1)])
  /\ List.length shown = 2
  /\ map (fun child => title (content child)) shown
     = [MAP_KEY_DISPLAY_NAME K; MAP_VALUE_DISPLAY_NAME K]
  /\ map key shown = [key (format k 0); key (format v 1)]
  /\ Forall (fun child => title (content child) <> name child) shown.
Proof.
  intros Hkinds Hnames Hkd Hvd Hcols He Hin Hrv Hmap Htm Hch Hk Hv Hck Hcv Hfuel
         shown.
  assert (Harr : kindIs (ARRAY_KIND K) rv = false)
    by (apply (@kindIs_exclusive (MAP_KIND K) (ARRAY_KIND K) rv);
        [intros E; apply Hkinds; symmetry; exact E | exact Hmap]).
  assert (Htitles : map (fun child => title (content child)) shown
                    = [MAP_KEY_DISPLAY_NAME K; MAP_VALUE_DISPLAY_NAME K]).
  { unfold shown. simpl. rewrite Hk, Hv, String.eqb_refl.
    destruct (String.eqb_spec (MAP_VALUE_NAME K) (MAP_KEY_NAME K)) as [E|_];
      [exfalso; apply Hnames; symmetry; exact E|].
    rewrite String.eqb_refl. reflexivity. }
  split; [|split; [reflexivity | split; [exact Htitles | split]]].
  - destruct fuel as [|fuel]; [lia|].
    pose (d := mkDetails [] cols expanded (Some format) level).
    change (mkDetails [item] cols expanded (Some format) level)
      with (withData d [item]).
    rewrite getTableRows_cons, getTableRows_nil.
    rewrite (@itemRows_expanded K fuel d format item eq_refl)
      by (simpl; rewrite He; apply includes_In in Hin; rewrite Hin; reflexivity).
    rewrite handleSpecificTypeRowData_eq, Hrv.
    rewrite (skipArrays_not_array K format (S fuel) rv 0 Harr). simpl.
    rewrite Harr. unfold getFormattedChildrenData. rewrite Htm, Hch. simpl.
    rewrite Hmap.
    assert (Hh : hasSpecificTypeHandling K rv 0 = true)
      by (unfold hasSpecificTypeHandling; rewrite Hmap; reflexivity).
    destruct (@opener_closer_of_columns K rv 0 level cols Hcols Hh) as [Ho Hc].
    unfold additionalColumns. simpl. rewrite Ho, Hc. simpl.
    change (nestedDetails d ?l) with (withData (nestedDetails d []) l).
    rewrite getTableRows_all_collapsed.
    + simpl. unfold mapOpenerLabelOf, mapCloserLabelOf. rewrite Hmap.
      reflexivity.
    + intros x Hx. right. simpl.
      apply (@updateMapDisplayNames_collapsed K expanded [format k 0; format v 1]);
        [|exact Hx].
      intros y [<-|[<-|[]]]; assumption.
  - apply updateMapDisplayNames_key.
  - unfold shown. simpl in *. injection Htitles as Ht1 Ht2.
    repeat constructor; simpl.
    + rewrite Ht1, Hk. exact Hkd.
    + rewrite Ht2, Hv. exact Hvd.
Qed.

Lemma map_children_are_titled_by_display_names_witness :
  exists keyRow valueRow,
    getTableRows Sample.constants 1
                 (Sample.details [Sample.mapColumn] ["t/m"])
    = Ok [TableRow Sample.mapColumn 0;
          OpenerRow "t/m/type/m" "" "map{" 0 0;
          TableRow keyRow 1;
          TableRow valueRow 1;
          CloserRow "t/m/type/m" "}" "" 0 0]
    /\ title (content keyRow) = "Key"
    /\ title (content valueRow) = "Value".
Proof.
  pose proof
       (@map_children_are_titled_by_display_names
          Sample.constants Sample.format 1 Sample.mapColumn
          (Sample.format
             (Sample.node "t/m/type/m" "m" "map"
                [Sample.node "t/m/type/m/_map_key" "_map_key" "scalar" [];
                 Sample.node "t/m/type/m/_map_value" "_map_value" "scalar" []])
             0)
          (Sample.node "t/m/type/m/_map_key" "_map_key" "scalar" [])
          (Sample.node "t/m/type/m/_map_value" "_map_value" "scalar" [])
          [Sample.contentColumn] ["t/m"] 0) as H.
  specialize (H ltac:(discriminate) ltac:(discriminate) ltac:(discriminate)
                ltac:(discriminate) ltac:(discriminate)
                eq_refl (or_introl eq_refl) eq_refl eq_refl eq_refl eq_refl
                eq_refl eq_refl eq_refl eq_refl (le_n 1)).
  destruct H as [Hrows _].
  eexists. eexists. split; [exact Hrows | split; reflexivity].
Defined.

(** ** Unwrapping through the arrays *)

Lemma ArraysOver_skipArrays K format row N last :
  ArraysOver K format row N last ->
  forall fuel count,
    N <= fuel ->
    skipArrays K format fuel row count = Ok (last, count + N)
    /\ kindIs (ARRAY_KIND K) last = false.
Proof.
  intros H. induction H as [row Hk|row inner others N last Hk Hc He Hl IH];
    intros fuel count Hle.
  - rewrite skipArrays_not_array by exact Hk.
    rewrite Nat.add_0_r. split; [reflexivity | exact Hk].
  - destruct fuel as [|fuel]; [lia|]. simpl. rewrite Hk, Hc. simpl. rewrite He.
    destruct (IH fuel (S count)) as [Hs Hlast]; [lia|].
    rewrite Hs. replace (S count + N) with (count + S N) by lia.
    split; [reflexivity | exact Hlast].
Qed.

(** ** The rows at the level of the call *)

Lemma tableRowsAt_app (level : nat) (a b : list ReactNode) :
  tableRowsAt level (a ++ b) = tableRowsAt level a ++ tableRowsAt level b.
Proof. unfold tableRowsAt. apply filter_app. Qed.

Lemma tableRowsAt_deeper (level : nat) (out : list ReactNode) :
  (forall x l, In (TableRow x l) out -> level < l) ->
  tableRowsAt level out = [].
Proof.
  induction out as [|node out IH]; intros H; [reflexivity|].
  simpl. destruct node as [|x l|k a m l ph|k m a l ph];
    try (apply IH; intros y l' Hy; apply (H y l'); right; exact Hy).
  assert (Hl : level < l) by (apply (H x l); left; reflexivity).
  destruct (Nat.eqb_spec l level) as [E|_]; [lia|].
  apply IH. intros y l' Hy. apply (H y l'). right. exact Hy.
Qed.

Lemma Materialized_top_rows K expanded format rows level out :
  Materialized K expanded format rows level out ->
  tableRowsAt level out = map (fun x => TableRow x level) rows.
Proof.
  intros H. induction H as [level|x l level rest He Hrest IH
                            |x l level f lf rv fc n o c nested rest
                               Hf He Hh Hb Hn IHn Hrest IH].
  - reflexivity.
  - simpl. rewrite Nat.eqb_refl. fold (tableRowsAt level rest).
    rewrite IH. reflexivity.
  - simpl. rewrite Nat.eqb_refl. f_equal.
    change (tableRowsAt level (o :: nested ++ c :: rest)
            = map (fun x0 => TableRow x0 level) l).
    change (o :: nested ++ c :: rest) with ([o] ++ nested ++ [c] ++ rest).
    rewrite !tableRowsAt_app, IH.
    rewrite (@tableRowsAt_deeper level nested).
    + destruct Hb; reflexivity.
    + intros y l' Hy. apply (Materialized_shown Hn) in Hy.
      destruct Hy as [depth [-> _]]. lia.
Qed.

(** Whatever the expansion state, the rows of the data all have their row
    at the level of the call, in the order of the data. *)
Lemma rows_of_the_data_are_all_shown
      (K : TableConstants) (fuel : nat) (rows : list FormattedDataType)
      (cols : list TableColumn) (expanded : list string)
      (format : option (FormattedDataType -> nat -> FormattedDataType))
      (level : nat) (out : list ReactNode) :
  getTableRows K fuel (mkDetails rows cols expanded format level) = Ok out ->
  tableRowsAt level out = map (fun x => TableRow x level) rows.
Proof.
  intros H. apply getTableRows_Materialized in H.
  exact (Materialized_top_rows H).
Qed.

(** The rows of a map when its two children may be expanded themselves:
    whenever the rows of the children are produced, the rows of the map are
    its own row, the opener, those rows and the closer, and the rows one
    level below the map are the two children with the display names as
    titles. *)
Lemma map_children_rows_when_expanded
      (K : TableConstants)
      (format : FormattedDataType -> nat -> FormattedDataType)
      (fuel : nat) (item rv k v : FormattedDataType)
      (cols : list TableColumn) (expanded : list string) (level : nat)
      (nested : list ReactNode) :
  ARRAY_KIND K <> MAP_KIND K ->
  cols <> [] ->
  isExpandable item = true ->
  In (key item) expanded ->
  initialRowToDisplay format item = rv ->
  kindIs (MAP_KIND K) rv = true ->
  typeMetadata rv = None ->
  children rv = Some [k; v] ->
  let shown := updateMapDisplayNames K [format k 0; format v 1] in
  getTableRows K fuel (mkDetails shown cols expanded (Some format) (S level))
  = Ok nested ->
  getTableRows K (S fuel) (mkDetails [item] cols expanded (Some format) level)
  = Ok (TableRow item level
        :: OpenerRow (key rv) "" (MAP_LABEL K ++ MAP_OPENER K)%string
                     level (List.length cols - 1)
        :: nested
        ++ [CloserRow (key rv) (MAP_CLOSER K) "" level (List.length cols - 1)])
  /\ tableRowsAt (S level) nested
     = map (fun child => TableRow child (S level)) shown.
Proof.
  intros Hkinds Hcols He Hin Hrv Hmap Htm Hch shown Hnested.
  assert (Harr : kindIs (ARRAY_KIND K) rv = false)
    by (apply (@kindIs_exclusive (MAP_KIND K) (ARRAY_KIND K) rv);
        [intros E; apply Hkinds; symmetry; exact E | exact Hmap]).
  split; [|exact (rows_of_the_data_are_all_shown _ _ _ _ _ _ _ Hnested)].
  pose (d := mkDetails [] cols expanded (Some format) level).
  change (mkDetails [item] cols expanded (Some format) level)
    with (withData d [item]).
  rewrite getTableRows_cons, getTableRows_nil.
  rewrite (@itemRows_expanded K fuel d format item eq_refl)
    by (simpl; rewrite He; apply includes_In in Hin; rewrite Hin; reflexivity).
  rewrite handleSpecificTypeRowData_eq, Hrv.
  rewrite (skipArrays_not_array K format (S fuel) rv 0 Harr). simpl.
  rewrite Harr. unfold getFormattedChildrenData. rewrite Htm, Hch. simpl.
  rewrite Hmap.
  assert (Hh : hasSpecificTypeHandling K rv 0 = true)
    by (unfold hasSpecificTypeHandling; rewrite Hmap; reflexivity).
  destruct (@opener_closer_of_columns K rv 0 level cols Hcols Hh) as [Ho Hc].
  unfold additionalColumns. simpl. rewrite Ho, Hc. simpl.
  unfold nestedDetails. simpl. unfold shown in Hnested. simpl in Hnested.
  rewrite Hnested. simpl. unfold mapOpenerLabelOf, mapCloserLabelOf.
  rewrite Hmap. rewrite app_nil_r. reflexivity.
Qed.

(** ** The rows, without the loops *)

Lemma skipArrays_layers K format fuel :
  forall start count rv n,
    skipArrays K format fuel start count = Ok (rv, n) ->
    exists N, n = count + N
              /\ (ArraysOver K format start N rv
                  \/ ArrayLayers K format start N rv).
Proof.
  induction fuel as [|fuel IH]; intros start count rv n H; simpl in H;
    destruct (kindIs (ARRAY_KIND K) start) eqn:Ek; try discriminate.
  - injection H as <- <-. exists 0. split; [lia|].
    left. apply ArraysOver_none. exact Ek.
  - destruct (getFormattedChildrenData format start) as [[|first rest]| |] eqn:Ec;
      simpl in H; try discriminate.
    destruct (isExpandable first) eqn:Ee.
    + apply IH in H. destruct H as [N [-> [Ho|Hl]]]; exists (S N);
        (split; [lia|]).
      * left. eapply ArraysOver_layer; eassumption.
      * right. eapply ArrayLayers_layer; eassumption.
    + destruct (kindIs (ARRAY_KIND K) first) eqn:Ef; injection H as <- <-.
      * exists 2. split; [lia|]. right.
        eapply ArrayLayers_innermost; eassumption.
      * exists 1. split; [lia|]. right.
        eapply ArrayLayers_terminal; eassumption.
  - injection H as <- <-. exists 0. split; [lia|].
    left. apply ArraysOver_none. exact Ek.
Qed.

Lemma handleSpecificTypeRowData_Unwrapped K format fuel x rv shown n :
  handleSpecificTypeRowData K format fuel x = Ok (rv, shown, n) ->
  Unwrapped K format x rv shown n.
Proof.
  rewrite handleSpecificTypeRowData_eq. intros H.
  apply bind_Ok_inv in H. destruct H as [[rv' n'] [Hs H]].
  apply skipArrays_layers in Hs. destruct Hs as [N [-> [Ho|Hl]]]; simpl in H.
  - destruct (@ArraysOver_skipArrays K format _ _ _ Ho N 0 (le_n N)) as [_ Ek].
    rewrite Ek in H. apply bind_Ok_inv in H. destruct H as [fc [Hc H]].
    destruct (kindIs (MAP_KIND K) rv') eqn:Em; injection H as <- <- <-.
    + eapply Unwrapped_map; eassumption.
    + eapply Unwrapped_plain; eassumption.
  - destruct (@ArrayLayers_skipArrays K format _ _ _ Hl N 0 (le_n N)) as [_ [Ek _]].
    rewrite Ek in H. injection H as <- <- <-.
    eapply Unwrapped_array; eassumption.
Qed.

Lemma Unwrapped_handleSpecificTypeRowData K format x rv shown n :
  Unwrapped K format x rv shown n ->
  handleSpecificTypeRowData K format n x = Ok (rv, shown, n).
Proof.
  intros H. rewrite handleSpecificTypeRowData_eq.
  destruct H as [count last shown Ho Em Hc|count last fc Ho Em Hc|count last Hl].
  - destruct (@ArraysOver_skipArrays K format _ _ _ Ho count 0 (le_n count)) as [Hs Ek].
    rewrite Hs. simpl. rewrite Ek, Hc. simpl. rewrite Em. reflexivity.
  - destruct (@ArraysOver_skipArrays K format _ _ _ Ho count 0 (le_n count)) as [Hs Ek].
    rewrite Hs. simpl. rewrite Ek, Hc. simpl. rewrite Em. reflexivity.
  - destruct (@ArrayLayers_skipArrays K format _ _ _ Hl count 0 (le_n count)) as [Hs [Ek _]].
    rewrite Hs. simpl. rewrite Ek. reflexivity.
Qed.

Lemma Brackets_BracketRows K rv n level o c :
  Brackets K rv n level o c -> BracketRows K rv n level o c.
Proof.
  intros [H|ph H]; unfold hasSpecificTypeHandling in H.
  - apply orb_false_iff in H. destruct H as [Hn Hm].
    apply Nat.ltb_ge in Hn. apply BracketRows_none; [lia | exact Hm].
  - unfold arrayOpenerLabelOf, mapOpenerLabelOf, mapCloserLabelOf,
      arrayCloserLabelOf.
    destruct (Nat.ltb_spec 0 n) as [Hn|Hn];
      destruct (kindIs (MAP_KIND K) rv) eqn:Em; simpl in H;
      try discriminate H.
    + apply BracketRows_array_of_map; assumption.
    + apply BracketRows_array; assumption.
    + apply BracketRows_map; [lia | exact Em].
Qed.

Lemma isShownExpanded_cases expanded format (x : FormattedDataType) :
  (isShownExpanded expanded format x = true
   <-> exists f, format = Some f /\ isExpandable x = true /\ In (key x) expanded)
  /\ (isShownExpanded expanded format x = false
      <-> format = None \/ isExpandable x = false \/ ~ In (key x) expanded).
Proof.
  unfold isShownExpanded. destruct format as [f|].
  - destruct (isExpandable x); simpl.
    + destruct (includes expanded (key x)) eqn:Ei.
      * apply includes_In in Ei. split; split; try discriminate; auto.
        -- intros _. exists f. auto.
        -- intros [E|[E|Hn]]; [discriminate E | discriminate E | contradiction].
      * assert (Hn : ~ In (key x) expanded)
          by (intros Hin; apply includes_In in Hin; congruence).
        split; split; try discriminate; auto.
        intros [g [_ [_ Hin]]]. contradiction.
    + split; split; try discriminate; auto.
      intros [g [_ [E _]]]. discriminate E.
  - split; split; try discriminate; auto.
    intros [g [E _]]. discriminate E.
Qed.

Lemma Materialized_Rendering K expanded format rows level out :
  Materialized K expanded format rows level out ->
  Rendering K expanded format rows level out.
Proof.
  intros H. induction H as [level|x l level rest He Hrest IH
                            |x l level f lf rv fc n o c nested rest
                               Hf He Hh Hb Hn IHn Hrest IH].
  - apply Rendering_nil.
  - apply Rendering_collapsed; [|exact IH].
    apply (isShownExpanded_cases expanded format x). exact He.
  - apply (proj1 (isShownExpanded_cases expanded format x)) in He.
    destruct He as [g [_ [Hx Hin]]].
    eapply Rendering_expanded; try eassumption.
    + eapply handleSpecificTypeRowData_Unwrapped; eassumption.
    + apply Brackets_BracketRows. exact Hb.
Qed.

Lemma Rendering_WellBracketed K expanded format rows level out :
  Rendering K expanded format rows level out -> WellBracketed K out.
Proof.
  intros H. induction H as [level|x l level rest He Hrest IH
                            |x l level f rv fc n o c nested rest
                               Hf Hx Hin Hu Hb Hn IHn Hrest IH].
  - apply WellBracketed_nil.
  - apply WellBracketed_row. exact IH.
  - apply WellBracketed_row. eapply WellBracketed_pair; eassumption.
Qed.

Lemma Shown_Reached K expanded format rows depth x :
  Shown K expanded format rows depth x <-> Reached K expanded format rows depth x.
Proof.
  split; intros H.
  - induction H as [rows x Hin|rows p f lf rv fc n depth x Hp Hf He Hh Hs IH].
    + apply Reached_top. exact Hin.
    + apply (proj1 (isShownExpanded_cases expanded format p)) in He.
      destruct He as [g [_ [Hx Hin]]].
      eapply Reached_below; try eassumption.
      eapply handleSpecificTypeRowData_Unwrapped; eassumption.
  - induction H as [rows x Hin|rows p f rv fc n depth x Hp Hf Hx Hin Hu Hr IH].
    + apply Shown_top. exact Hin.
    + eapply Shown_nested; try eassumption.
      * apply (proj1 (isShownExpanded_cases expanded format p)).
        exists f. auto.
      * apply Unwrapped_handleSpecificTypeRowData. exact Hu.
Qed.

(** C10.  Whenever the rows are produced they are the rendering of the data:
    each row is followed, when it is expanded, by its opener, the rows
    shown below it and its closer.  The opener and the closer are both
    [null] when no array layer is passed over and the row to display is not
    a map, and both present otherwise; they carry the key of the row to
    display, the opener the array label with as many array openers as the
    closer has array closers, the number of the array layers, and the map
    labels when the row to display is a map.  The rows as a whole are
    balanced. *)
Theorem openers_and_closers_are_balanced
        (K : TableConstants) (fuel : nat) (rows : list FormattedDataType)
        (cols : list TableColumn) (expanded : list string)
        (format : option (FormattedDataType -> nat -> FormattedDataType))
        (level : nat) (out : list ReactNode) :
  getTableRows K fuel (mkDetails rows cols expanded format level) = Ok out ->
  Rendering K expanded format rows level out /\ WellBracketed K out.
Proof.
  intros H. apply getTableRows_Materialized in H.
  apply Materialized_Rendering in H.
  split; [exact H | exact (Rendering_WellBracketed H)].
Qed.

(** An array of arrays and a map, both expanded: two array openers and two
    array closers around no row, the map labels around the key and the
    value. *)
Lemma openers_and_closers_are_balanced_witness :
  let keyRow :=
    Sample.format (Sample.node "t/m/type/m/_map_key" "_map_key" "scalar" []) 0 in
  let valueRow :=
    Sample.format (Sample.node "t/m/type/m/_map_value" "_map_value" "scalar" []) 1 in
  exists shownKey shownValue,
    updateMapDisplayNames Sample.constants [keyRow; valueRow]
    = [shownKey; shownValue]
    /\ let out :=
         [TableRow Sample.arrayOfArrayOfInt 0;
          OpenerRow "t/b/type/b/_inner_" "array[[" "" 0 0;
          CloserRow "t/b/type/b/_inner_" "" "]]" 0 0;
          TableRow Sample.mapColumn 0;
          OpenerRow "t/m/type/m" "" "map{" 0 0;
          TableRow shownKey 1;
          TableRow shownValue 1;
          CloserRow "t/m/type/m" "}" "" 0 0] in
       getTableRows Sample.constants 3
                    (Sample.details [Sample.arrayOfArrayOfInt; Sample.mapColumn]
                                    ["t/b"; "t/m"])
       = Ok out
       /\ Rendering Sample.constants ["t/b"; "t/m"] (Some Sample.format)
                    [Sample.arrayOfArrayOfInt; Sample.mapColumn] 0 out
       /\ WellBracketed Sample.constants out.
Proof.
  intros keyRow valueRow. eexists. eexists. split; [reflexivity|].
  intros out. split; [reflexivity|].
  apply (openers_and_closers_are_balanced
           Sample.constants 3 [Sample.arrayOfArrayOfInt; Sample.mapColumn]
           [Sample.contentColumn] ["t/b"; "t/m"] (Some Sample.format) 0).
  reflexivity.
Defined.

(** C9, as the code has it.  A row is in the output, at the level of the call
    plus its depth, exactly when it is reached from the rows of the data
    through rows that are expandable and have their key in the expansion
    state, each step going from a row to the rows shown below it: the
    formatted children of the row to display, the row found below the
    array layers that are passed over without a look at their keys, not the
    children of the row itself. *)
Theorem shown_rows_are_children_of_expanded_rows
        (K : TableConstants) (fuel : nat) (rows : list FormattedDataType)
        (cols : list TableColumn) (expanded : list string)
        (format : option (FormattedDataType -> nat -> FormattedDataType))
        (level : nat) (out : list ReactNode) :
  getTableRows K fuel (mkDetails rows cols expanded format level) = Ok out ->
  forall x l,
    In (TableRow x l) out
    <-> exists depth, l = level + depth /\ Reached K expanded format rows depth x.
Proof.
  intros H x l. apply getTableRows_Materialized in H.
  rewrite (Materialized_shown H x l).
  split; intros [depth [E Hs]]; exists depth; (split; [exact E|]);
    apply Shown_Reached; exact Hs.
Qed.

(** An expanded array of structs: the field of the struct is reached in one
    step, over the array layer, and is shown one level below the column. *)
Lemma shown_rows_witness :
  let shown :=
    Sample.format (Sample.node "t/c/type/c/_inner_/x" "x" "scalar" []) 0 in
  Reached Sample.constants ["t/c"] (Some Sample.format)
          [Sample.arrayOfStruct] 1 shown
  /\ getTableRows Sample.constants 3
                  (Sample.details [Sample.arrayOfStruct] ["t/c"])
     = Ok [TableRow Sample.arrayOfStruct 0;
           OpenerRow "t/c/type/c/_inner_" "array[" "" 0 0;
           TableRow shown 1;
           CloserRow "t/c/type/c/_inner_" "" "]" 0 0].
Proof.
  intros shown. split; [|reflexivity].
  assert (H : exists depth,
             1 = 0 + depth
             /\ Reached Sample.constants ["t/c"] (Some Sample.format)
                        [Sample.arrayOfStruct] depth shown).
  { apply (shown_rows_are_children_of_expanded_rows
             Sample.constants 3 [Sample.arrayOfStruct] [Sample.contentColumn]
             ["t/c"] (Some Sample.format) 0 eq_refl).
    right; right; left; reflexivity. }
  destruct H as [depth [E H]]. simpl in E. subst depth. exact H.
Defined.

(** ** The render and the validation *)

(** C6, as the code has it.  A render of data that is not empty runs the
    hooks first: what they throw is thrown, and the validation is not
    reached.  The check fails exactly when some field of the columns is
    defined by no row at all, where a row defines a field when its property
    of that name, own or inherited, is not [undefined]; otherwise every
    field is defined by some row.  Once the hooks have returned, the render
    throws the validation error when the check fails, and, the rows
    throwing no such error themselves, only then.  When the check is
    passed the render goes on to the rows, and each row of the data is
    rendered, without a cell for a field it has no entry for. *)
Theorem validation_fails_iff_a_field_is_defined_by_no_row
        (K : TableConstants)
        (String_match : string -> string -> result (option string))
        (fuel : nat) (rows : list FormattedDataType)
        (cols : list TableColumn) (isLoading : bool)
        (format : option (FormattedDataType -> nat -> FormattedDataType))
        (maxNumRows : option nat) (preExpandPanelKey tableKey : option string)
        (previous : option TableHooks) :
  rows <> [] ->
  let render :=
    Table K String_match fuel rows cols isLoading format maxNumRows
          preExpandPanelKey tableKey previous in
  let hooks :=
    useTableHooks K String_match fuel rows maxNumRows preExpandPanelKey
                  tableKey previous in
  let undefinedField :=
    exists f, In f (map field cols)
              /\ forall row, In row rows -> getProp row f = JsUndefined in
  let allFieldsDefined :=
    forall f, In f (map field cols) ->
              exists row, In row rows /\ getProp row f <> JsUndefined in
  (forall e, hooks = Throw e -> render = Throw e)
  /\ (undefinedField \/ allFieldsDefined)
  /\ (checkIfValidData rows (map field cols) = false <-> undefinedField)
  /\ (forall state,
        hooks = Ok state ->
        let rendered :=
          getTableRows K fuel
                       (mkDetails rows cols (hookExpandedRows state) format 0) in
        (undefinedField -> render = Throw (Error INVALID_DATA_ERROR_MESSAGE))
        /\ (rendered <> Throw (Error INVALID_DATA_ERROR_MESSAGE) ->
            (render = Throw (Error INVALID_DATA_ERROR_MESSAGE)
             <-> undefinedField))
        /\ (allFieldsDefined ->
            render
            = (out <- rendered ;;
               Ok (state, if isLoading then ShimmeringBody else Rows out))
            /\ forall out,
                 rendered = Ok out ->
                 forall row,
                   In row rows ->
                   In (TableRow row 0) out
                   /\ forall f, ~ In f (map fst (props row)) ->
                                ~ In f (map fst (tableRowCells cols row)))).
Proof.
  intros Hne render hooks undefinedField allFieldsDefined.
  assert (Hcheck : (checkIfValidData rows (map field cols) = false
                    <-> undefinedField)
                   /\ (checkIfValidData rows (map field cols) = true
                       <-> allFieldsDefined)).
  { split; [apply checkIfValidData_false|].
    rewrite checkIfValidData_true. unfold allFieldsDefined.
    split; intros H f Hf; destruct (H f Hf) as [row [Hrow Hd]];
      exists row; (split; [exact Hrow|]).
    - intros E. apply fieldIsDefined_false in E. congruence.
    - destruct (fieldIsDefined f row) eqn:Ed; [reflexivity|].
      apply fieldIsDefined_false in Ed. contradiction. }
  destruct Hcheck as [Hfalse Htrue].
  split; [|split; [|split; [exact Hfalse|]]].
  - intros e He. unfold render, Table. fold hooks. rewrite He. reflexivity.
  - destruct (checkIfValidData rows (map field cols)) eqn:Ev.
    + right. apply Htrue. reflexivity.
    + left. apply Hfalse. reflexivity.
  - intros state Hs rendered.
    assert (Hrender :
              render
              = if checkIfValidData rows (map field cols)
                then out <- rendered ;;
                     Ok (state, if isLoading then ShimmeringBody else Rows out)
                else Throw (Error INVALID_DATA_ERROR_MESSAGE)).
    { unfold render, Table. fold hooks. rewrite Hs. cbn [bind].
      destruct rows as [|r rows']; [contradiction|].
      destruct (checkIfValidData (r :: rows') (map field cols)); cbn [negb];
        [|reflexivity].
      fold rendered. destruct rendered as [out|e|]; reflexivity. }
    rewrite Hrender. split; [|split].
    + intros Hu. apply Hfalse in Hu. rewrite Hu. reflexivity.
    + intros Hrows.
      destruct (checkIfValidData rows (map field cols)) eqn:Ev.
      * split.
        -- intros H. exfalso. apply bind_Throw_inv in H.
           destruct H as [H|[out [_ H]]]; [exact (Hrows H) | discriminate H].
        -- intros Hu. apply Hfalse in Hu. discriminate Hu.
      * split; [intros _; apply Hfalse; reflexivity | reflexivity].
    + intros Ha. apply Htrue in Ha. rewrite Ha. split; [reflexivity|].
      intros out Hout row Hrow. split.
      * pose proof (rows_of_the_data_are_all_shown _ _ _ _ _ _ _ Hout) as Ht.
        assert (Hin : In (TableRow row 0) (tableRowsAt 0 out))
          by (rewrite Ht;
              apply (in_map (fun x => TableRow x 0)); exact Hrow).
        apply filter_In in Hin. exact (proj1 Hin).
      * intros f Hf Hcell. apply Hf. unfold tableRowCells in Hcell.
        apply in_map_iff in Hcell. destruct Hcell as [entry [E Hentry]].
        apply filter_In in Hentry. apply in_map_iff.
        exists entry. split; [exact E | exact (proj1 Hentry)].
Qed.

(** A row without a type and a column for the type: the first render, whose
    hooks return the empty state, throws the validation error. *)
Lemma validation_fails_witness :
  Table Sample.constants Regex.String_match 1 [Sample.childless]
        [mkColumn "Type" "type" None None] false (Some Sample.format)
        None None (Some "t") None
  = Throw (Error INVALID_DATA_ERROR_MESSAGE).
Proof.
  assert (Hne : [Sample.childless] <> []) by discriminate.
  apply (proj1 (proj2 (proj2 (proj2
                  (validation_fails_iff_a_field_is_defined_by_no_row
                     Sample.constants Regex.String_match 1
                     [mkColumn "Type" "type" None None] false
                     (Some Sample.format) None None (Some "t")
                     None Hne)))
                      (mkHooks [] None []) eq_refl)).
  exists "type". split; [left; reflexivity|].
  intros row [E|[]]. subst row. reflexivity.
Defined.

(** C6, as stated, fails: a row that does not define the field of a column
    is rendered, without a cell for that column, as soon as another row
    defines the field. *)
Lemma row_without_the_field_is_rendered :
  let complete :=
    Sample.object "t/p" "p" None false None None (mkContent "p" None)
                  [("type", JsSome "int")] in
  let partial :=
    Sample.object "t/q" "q" None false None None (mkContent "q" None) [] in
  let rows := [complete; partial] in
  let cols := [Sample.contentColumn; mkColumn "Type" "type" None None] in
  (exists row f, In row rows /\ In f (map field cols)
                 /\ getProp row f = JsUndefined)
  /\ Table Sample.constants Regex.String_match 1 rows cols false
           (Some Sample.format) None None (Some "t") None
     = Ok (mkHooks [] None [],
           Rows [TableRow complete 0; TableRow partial 0])
  /\ map fst (tableRowCells cols complete) = ["content"; "type"]
  /\ map fst (tableRowCells cols partial) = ["content"].
Proof.
  simpl. split; [|split; [|split]]; try reflexivity.
  eexists. exists "type". split; [right; left; reflexivity|].
  split; [right; left; reflexivity | reflexivity].
Qed.

(** The table key is put into a pattern by the hooks before the data is
    looked at: with a target to expand and a table key that is not a
    pattern, the render throws a [SyntaxError], for valid data and for
    empty data alike. *)
Lemma render_throws_on_a_table_key_that_is_no_pattern :
  Table Sample.constants Regex.String_match 1 [Sample.childless]
        [Sample.contentColumn] false (Some Sample.format)
        None (Some "t(/e") (Some "t(") None
  = Throw SyntaxError
  /\ Table Sample.constants Regex.String_match 1 []
           [Sample.contentColumn] false (Some Sample.format)
           None (Some "t(/e") (Some "t(") None
     = Throw SyntaxError.
Proof. split; reflexivity. Qed.

(** An inherited property defines a field: a column for [toString] passes
    the check on any data that is not empty, and gets no cell. *)
Lemma inherited_property_passes_the_check :
  checkIfValidData [Sample.childless] ["toString"] = true
  /\ tableRowCells [mkColumn "Text" "toString" None None] Sample.childless = [].
Proof. split; reflexivity. Qed.

(** ** Evaluations on the sample rows *)

Example match_column_key :
  Regex.String_match "t/a/type/a" "t/[a-zA-Z0-9_]+" = Ok (Some "t/a").
Proof. reflexivity. Qed.

Example match_is_leftmost_and_greedy :
  Regex.String_match "xxt/abc_1/type/a9/z" "t/[a-zA-Z0-9_]+/type/[a-zA-Z0-9_]+"
  = Ok (Some "t/abc_1/type/a9").
Proof. reflexivity. Qed.

Example match_backtracks :
  Regex.String_match "aaab" "a+ab" = Ok (Some "aaab").
Proof. reflexivity. Qed.

Example match_refuses_open_group :
  Regex.String_match "t/a" "t(/a" = Throw SyntaxError.
Proof. reflexivity. Qed.

Example match_with_a_dotted_table_key :
  Regex.String_match "hive://gold.schema/t/col_1/type/col_1"
                     "hive://gold.schema/t/[a-zA-Z0-9_]+"
  = Ok (Some "hive://gold.schema/t/col_1").
Proof. reflexivity. Qed.

Example match_takes_brackets_on_their_own_as_text :
  Regex.String_match "t]/a}" "t]/[a-z]+}" = Ok (Some "t]/a}")
  /\ Regex.String_match "t/a" "t/[^/]*" = Ok (Some "t/a")
  /\ Regex.String_match "t/ab" "t/\w?" = Ok (Some "t/a").
Proof. repeat split. Qed.

Example match_refuses_what_cannot_be_a_pattern :
  Regex.String_match "t" "t)" = Throw SyntaxError
  /\ Regex.String_match "t" "t[a" = Throw SyntaxError
  /\ Regex.String_match "t" "+t" = Throw SyntaxError
  /\ Regex.String_match "t" "t[z-a]" = Throw SyntaxError.
Proof. repeat split. Qed.

Example match_gives_no_answer_outside_the_fragment :
  Regex.String_match "ta" "t(a|b)" = OutOfFuel
  /\ Regex.String_match "ta" "^t" = OutOfFuel.
Proof. split; reflexivity. Qed.

Example keys_of_a_nested_target :
  getKeysToExpand Sample.constants Regex.String_match 5
                  (Some "t/c/type/c/_inner_/x") (Some "t")
  = Ok ["t/c"; "t/c/type/c"; "t/c/type/c/_inner_"; "t/c/type/c/_inner_/x"].
Proof. reflexivity. Qed.

Example keys_of_a_foreign_target :
  getKeysToExpand Sample.constants Regex.String_match 5
                  (Some "other/c") (Some "t")
  = Ok [].
Proof. reflexivity. Qed.

Example keys_without_table_key :
  getKeysToExpand Sample.constants Regex.String_match 5
                  (Some "undefined/c") None
  = Ok ["undefined/c"].
Proof. reflexivity. Qed.

Example all_keys_skip_the_type_metadata_node :
  getAllColumnKeys [Sample.arrayOfStruct; Sample.mapColumn]
  = ["t/c"; "t/c/type/c/_inner_"; "t/c/type/c/_inner_/x";
     "t/m"; "t/m/type/m/_map_key"; "t/m/type/m/_map_value"].
Proof. reflexivity. Qed.

Example rows_of_an_array_of_structs :
  getTableRows Sample.constants 2
               (Sample.details [Sample.arrayOfStruct] ["t/c"])
  = Ok [TableRow Sample.arrayOfStruct 0;
        OpenerRow "t/c/type/c/_inner_" "array[" "" 0 0;
        TableRow (Sample.format
                    (Sample.node "t/c/type/c/_inner_/x" "x" "scalar" []) 0) 1;
        CloserRow "t/c/type/c/_inner_" "" "]" 0 0].
Proof. reflexivity. Qed.

Example rows_without_formatter :
  getTableRows Sample.constants 2
               (mkDetails [Sample.arrayOfStruct] [Sample.contentColumn]
                          ["t/c"] None 0)
  = Ok [TableRow Sample.arrayOfStruct 0].
Proof. reflexivity. Qed.

Example rows_without_columns :
  getTableRows Sample.constants 2
               (mkDetails [Sample.mapColumn] [] ["t/m"] (Some Sample.format) 0)
  = Throw RangeError.
Proof. reflexivity. Qed.

Example rows_out_of_fuel :
  getTableRows Sample.constants 0
               (Sample.details [Sample.mapColumn] ["t/m"])
  = OutOfFuel.
Proof. reflexivity. Qed.

Example toggle_twice :
  fst (handleExpandButton (fst (handleExpandButton ["a"; "b"] "c")) "c")
  = ["a"; "b"].
Proof. reflexivity. Qed.

(** * Further properties *)

(** ** Toggling a row *)

Lemma In_filter_other (l : list string) (k j : string) :
  In j (filter (fun x => negb (String.eqb x k)) l) <-> In j l /\ j <> k.
Proof.
  rewrite filter_In. split; intros [H1 H2]; split; try exact H1.
  - intros E. subst j. rewrite String.eqb_refl in H2. discriminate H2.
  - apply negb_true_iff. apply String.eqb_neq. exact H2.
Qed.

(** X1. A click on the expanding button of [k] leaves the membership of
    every other key as it was, and a state without duplicates stays without
    duplicates. *)
Theorem toggle_keeps_other_keys_and_NoDup (S0 : list string) (k : string) :
  (forall j, j <> k ->
     isExpanded (fst (handleExpandButton S0 k)) j = isExpanded S0 j)
  /\ (NoDup S0 -> NoDup (fst (handleExpandButton S0 k))).
Proof.
  split.
  - intros j Hjk. simpl. rewrite isExpanded_toggled.
    destruct (String.eqb_spec j k) as [E|_]; [contradiction | reflexivity].
  - intros Hnd. simpl. unfold newExpandedRows.
    destruct (isExpanded S0 k) eqn:Hk.
    + apply NoDup_filter. exact Hnd.
    + apply NoDup_app.
      * exact Hnd.
      * constructor; [intros [] | constructor].
      * intros x Hx [E|[]]. subst x.
        apply includes_In in Hx. unfold isExpanded in Hk. congruence.
Qed.

Lemma toggle_keeps_other_keys_and_NoDup_witness :
  NoDup (fst (handleExpandButton ["a"; "b"] "b")).
Proof.
  apply (proj2 (toggle_keeps_other_keys_and_NoDup ["a"; "b"] "b")).
  repeat constructor; simpl; intuition discriminate.
Defined.

Lemma filter_length_remove (l : list string) (k : string) :
  NoDup l -> In k l ->
  S (List.length (filter (fun x => negb (String.eqb x k)) l)) = List.length l.
Proof.
  induction l as [|x l IH]; intros Hnd Hin; [destruct Hin|].
  inversion Hnd as [|? ? Hx Hnd']; subst. simpl.
  destruct (String.eqb_spec x k) as [E|Hne]; simpl.
  - subst x. f_equal.
    assert (Hall : forall y, In y l -> negb (String.eqb y k) = true).
    { intros y Hy. apply negb_true_iff, String.eqb_neq. intros E. subst y.
      contradiction. }
    clear IH Hnd Hnd' Hin Hx. induction l as [|y l IH]; [reflexivity|].
    simpl. rewrite (Hall y) by (left; reflexivity). simpl. f_equal.
    apply IH. intros z Hz. apply Hall. right. exact Hz.
  - f_equal. apply IH; [exact Hnd'|].
    destruct Hin as [E|Hin]; [contradiction | exact Hin].
Qed.

(** X2. On a state without duplicates a click changes the number of expanded
    keys by exactly one: one more when the row was collapsed, one less when
    it was expanded; and the callback that is fired tells which. *)
Theorem toggle_changes_the_count_by_one (S0 : list string) (k : string) :
  NoDup S0 ->
  match snd (handleExpandButton S0 k) with
  | onExpand _ =>
      isExpanded S0 k = false
      /\ List.length (fst (handleExpandButton S0 k)) = S (List.length S0)
  | onCollapse _ =>
      isExpanded S0 k = true
      /\ S (List.length (fst (handleExpandButton S0 k))) = List.length S0
  end.
Proof.
  intros Hnd. simpl. unfold newExpandedRows.
  destruct (isExpanded S0 k) eqn:Hk.
  - split; [reflexivity|]. apply filter_length_remove; [exact Hnd|].
    apply includes_In. exact Hk.
  - split; [reflexivity|]. rewrite length_app. simpl. lia.
Qed.

Lemma toggle_changes_the_count_by_one_witness :
  S (List.length (fst (handleExpandButton ["a"; "b"] "b"))) = 2.
Proof.
  assert (Hnd : NoDup ["a"; "b"])
    by (repeat constructor; simpl; intuition discriminate).
  exact (proj2 (toggle_changes_the_count_by_one (S0 := ["a"; "b"]) "b" Hnd)).
Defined.

(** ** Validation *)

(** X3. Data that passes the check still passes when rows are added and when
    fields are taken away, and the check of two lists of fields together
    passes exactly when both pass; with no field at all every data passes,
    and with no row every field fails. *)
Theorem validation_is_monotone
        (rows more : list FormattedDataType) (fields fields' : list string) :
  (checkIfValidData rows fields = true ->
   checkIfValidData (rows ++ more) fields = true
   /\ checkIfValidData (more ++ rows) fields = true)
  /\ checkIfValidData rows (fields ++ fields')
     = checkIfValidData rows fields && checkIfValidData rows fields'
  /\ checkIfValidData rows [] = true
  /\ (fields <> [] -> checkIfValidData [] fields = false).
Proof.
  split; [|split; [|split]].
  - intros H. rewrite checkIfValidData_true in H.
    split; apply checkIfValidData_true; intros f Hf;
      destruct (H f Hf) as [row [Hrow Hdef]]; exists row;
      (split; [apply in_or_app; auto | exact Hdef]).
  - induction fields as [|f fields IH]; simpl; [reflexivity|].
    destruct (existsb (fieldIsDefined f) rows); simpl; [exact IH | reflexivity].
  - reflexivity.
  - destruct fields as [|f fields]; [contradiction | reflexivity].
Qed.

Lemma validation_is_monotone_witness :
  checkIfValidData ([Sample.childless] ++ [Sample.arrayOfInt]) ["content"] = true.
Proof.
  apply (proj1 (validation_is_monotone [Sample.childless] [Sample.arrayOfInt]
                                       ["content"] [])).
  reflexivity.
Defined.

(** ** The expansion state as a set *)

Lemma itemRows_same_members (K : TableConstants) (fuel : nat)
      (cols : list TableColumn) (e1 e2 : list string)
      (format : option (FormattedDataType -> nat -> FormattedDataType)) :
  (forall k, includes e1 k = includes e2 k) ->
  (forall rows level,
     recurseWith K fuel <> None ->
     forall fuel', fuel = S fuel' ->
     getTableRows K fuel' (mkDetails rows cols e1 format level)
     = getTableRows K fuel' (mkDetails rows cols e2 format level)) ->
  forall l1 l2 level x,
    itemRows K fuel (mkDetails l1 cols e1 format level) x
    = itemRows K fuel (mkDetails l2 cols e2 format level) x.
Proof.
  intros Hsame IH l1 l2 level x.
  destruct format as [f|].
  - destruct (isExpandable x && includes e1 (key x)) eqn:He.
    + assert (He2 : isExpandable x && includes e2 (key x) = true)
        by (rewrite <- Hsame; exact He).
      destruct fuel as [|fuel'].
      * rewrite (@itemRows_no_fuel K (mkDetails l1 cols e1 (Some f) level) f x
                   eq_refl He).
        rewrite (@itemRows_no_fuel K (mkDetails l2 cols e2 (Some f) level) f x
                   eq_refl He2).
        reflexivity.
      * rewrite (@itemRows_expanded K fuel' (mkDetails l1 cols e1 (Some f) level)
                   f x eq_refl He).
        rewrite (@itemRows_expanded K fuel' (mkDetails l2 cols e2 (Some f) level)
                   f x eq_refl He2).
        destruct (handleSpecificTypeRowData K f (S fuel') x)
          as [[[rv fc] n]| |]; simpl; try reflexivity.
        unfold additionalColumns, nestedDetails. simpl.
        rewrite (IH fc (S level) ltac:(discriminate) fuel' eq_refl).
        reflexivity.
    + assert (He2 : isExpandable x && includes e2 (key x) = false)
        by (rewrite <- Hsame; exact He).
      rewrite !itemRows_collapsed by (right; assumption). reflexivity.
  - rewrite !itemRows_collapsed by (left; reflexivity). reflexivity.
Qed.

Lemma getTableRows_same_members (K : TableConstants) (fuel : nat)
      (cols : list TableColumn) (e1 e2 : list string)
      (format : option (FormattedDataType -> nat -> FormattedDataType)) :
  (forall k, includes e1 k = includes e2 k) ->
  forall rows level,
    getTableRows K fuel (mkDetails rows cols e1 format level)
    = getTableRows K fuel (mkDetails rows cols e2 format level).
Proof.
  intros Hsame. induction fuel as [|fuel IH]; intros rows level;
    induction rows as [|x l IHl].
  - reflexivity.
  - change (mkDetails (x :: l) cols e1 format level)
      with (withData (mkDetails l cols e1 format level) (x :: l)).
    change (mkDetails (x :: l) cols e2 format level)
      with (withData (mkDetails l cols e2 format level) (x :: l)).
    rewrite !getTableRows_cons.
    rewrite (@itemRows_same_members K 0 cols e1 e2 format Hsame
               ltac:(intros ? ? H; exfalso; apply H; reflexivity) l l level x).
    change (withData (mkDetails l cols e1 format level) l)
      with (mkDetails l cols e1 format level).
    change (withData (mkDetails l cols e2 format level) l)
      with (mkDetails l cols e2 format level).
    rewrite IHl. reflexivity.
  - reflexivity.
  - change (mkDetails (x :: l) cols e1 format level)
      with (withData (mkDetails l cols e1 format level) (x :: l)).
    change (mkDetails (x :: l) cols e2 format level)
      with (withData (mkDetails l cols e2 format level) (x :: l)).
    rewrite !getTableRows_cons.
    rewrite (@itemRows_same_members K (S fuel) cols e1 e2 format Hsame
               ltac:(intros rows' level' _ fuel' [= <-]; apply IH) l l level x).
    change (withData (mkDetails l cols e1 format level) l)
      with (mkDetails l cols e1 format level).
    change (withData (mkDetails l cols e2 format level) l)
      with (mkDetails l cols e2 format level).
    rewrite IHl. reflexivity.
Qed.

(** X5. The rows depend on the expansion state as a set: two states with the
    same members give the same result, rows or exception, whatever the order
    of the keys and however often a key occurs. *)
Theorem rows_depend_on_the_members_of_the_state
        (K : TableConstants) (fuel : nat) (rows : list FormattedDataType)
        (cols : list TableColumn) (e1 e2 : list string)
        (format : option (FormattedDataType -> nat -> FormattedDataType))
        (level : nat) :
  (forall k, In k e1 <-> In k e2) ->
  getTableRows K fuel (mkDetails rows cols e1 format level)
  = getTableRows K fuel (mkDetails rows cols e2 format level).
Proof.
  intros H. apply getTableRows_same_members. intros k.
  destruct (includes e1 k) eqn:H1; destruct (includes e2 k) eqn:H2;
    try reflexivity.
  - apply includes_In, H, includes_In in H1. congruence.
  - apply includes_In, H, includes_In in H2. congruence.
Qed.

Lemma rows_depend_on_the_members_of_the_state_witness :
  getTableRows Sample.constants 2
               (Sample.details [Sample.mapColumn] ["t/m"; "t/c"; "t/m"])
  = getTableRows Sample.constants 2
                 (Sample.details [Sample.mapColumn] ["t/c"; "t/m"]).
Proof.
  apply (@rows_depend_on_the_members_of_the_state
           Sample.constants 2 [Sample.mapColumn] [Sample.contentColumn]
           ["t/m"; "t/c"; "t/m"] ["t/c"; "t/m"]
           (Some Sample.format) 0).
  intros k. simpl. tauto.
Defined.

(** X6. Expanding a row and collapsing it again, or the other way round,
    gives back the rows that were rendered before the two clicks. *)
Theorem two_clicks_restore_the_rows
        (K : TableConstants) (fuel : nat) (rows : list FormattedDataType)
        (cols : list TableColumn) (expanded : list string)
        (format : option (FormattedDataType -> nat -> FormattedDataType))
        (level : nat) (k : string) :
  getTableRows K fuel
    (mkDetails rows cols
               (fst (handleExpandButton (fst (handleExpandButton expanded k)) k))
               format level)
  = getTableRows K fuel (mkDetails rows cols expanded format level).
Proof.
  apply getTableRows_same_members. intros j. simpl.
  change (isExpanded (newExpandedRows (newExpandedRows expanded k) k) j
          = isExpanded expanded j).
  rewrite !isExpanded_toggled, String.eqb_refl.
  destruct (String.eqb_spec j k) as [->|_]; [apply negb_involutive | reflexivity].
Qed.

(** ** Rows of the data, side by side *)

(** X7. The rows of two lists of data put together are the rows of the first
    followed by the rows of the second; an exception of the first is thrown
    before the second is looked at. *)
Theorem rows_of_appended_data
        (K : TableConstants) (fuel : nat) (a b : list FormattedDataType)
        (cols : list TableColumn) (expanded : list string)
        (format : option (FormattedDataType -> nat -> FormattedDataType))
        (level : nat) :
  getTableRows K fuel (mkDetails (a ++ b) cols expanded format level)
  = first <- getTableRows K fuel (mkDetails a cols expanded format level) ;;
    second <- getTableRows K fuel (mkDetails b cols expanded format level) ;;
    Ok (first ++ second).
Proof.
  pose (d := mkDetails [] cols expanded format level).
  change (getTableRows K fuel (withData d (a ++ b))
          = first <- getTableRows K fuel (withData d a) ;;
            second <- getTableRows K fuel (withData d b) ;;
            Ok (first ++ second)).
  induction a as [|x a IH]; simpl.
  - rewrite getTableRows_nil. simpl.
    destruct (getTableRows K fuel (withData d b)); reflexivity.
  - rewrite !getTableRows_cons, IH.
    destruct (itemRows K fuel d x) as [r0| |]; simpl; try reflexivity.
    destruct (getTableRows K fuel (withData d a)) as [r1| |]; simpl;
      try reflexivity.
    destruct (getTableRows K fuel (withData d b)) as [r2| |]; simpl;
      try reflexivity.
    rewrite app_assoc. reflexivity.
Qed.

(** X8. Whatever is expanded, every row of the data has its own row in the
    output, at the level of the call and in the order of the data, and no
    row of the output lies above that level. *)
Theorem every_row_of_the_data_is_rendered
        (K : TableConstants) (fuel : nat) (rows : list FormattedDataType)
        (cols : list TableColumn) (expanded : list string)
        (format : option (FormattedDataType -> nat -> FormattedDataType))
        (level : nat) (out : list ReactNode) :
  getTableRows K fuel (mkDetails rows cols expanded format level) = Ok out ->
  tableRowsAt level out = map (fun x => TableRow x level) rows
  /\ (forall x l, In (TableRow x l) out -> level <= l)
  /\ List.length rows <= List.length out.
Proof.
  intros H. apply getTableRows_Materialized in H.
  pose proof (Materialized_top_rows H) as Htop.
  split; [exact Htop | split].
  - intros x l Hin. apply (Materialized_shown H) in Hin.
    destruct Hin as [depth [-> _]]. lia.
  - rewrite <- (length_map (fun x => TableRow x level) rows), <- Htop.
    unfold tableRowsAt. apply filter_length_le.
Qed.

Lemma every_row_of_the_data_is_rendered_witness :
  tableRowsAt 0 [TableRow Sample.arrayOfStruct 0;
                 OpenerRow "t/c/type/c/_inner_" "array[" "" 0 0;
                 TableRow (Sample.format
                             (Sample.node "t/c/type/c/_inner_/x" "x" "scalar" [])
                             0) 1;
                 CloserRow "t/c/type/c/_inner_" "" "]" 0 0]
  = [TableRow Sample.arrayOfStruct 0].
Proof.
  apply (proj1 (@every_row_of_the_data_is_rendered
                  Sample.constants 2 [Sample.arrayOfStruct]
                  [Sample.contentColumn] ["t/c"] (Some Sample.format) 0 _
                  eq_refl)).
Defined.

(** X9. Rows are expanded only when a formatter is given and they are marked
    expandable: without a formatter, or on rows none of which is expandable,
    the expansion state is ignored and the output is one row per row of the
    data. *)
Theorem nothing_expands_without_formatter_or_flag
        (K : TableConstants) (fuel : nat) (rows : list FormattedDataType)
        (cols : list TableColumn) (expanded : list string)
        (format : option (FormattedDataType -> nat -> FormattedDataType))
        (level : nat) :
  format = None \/ (forall x, In x rows -> isExpandable x = false) ->
  getTableRows K fuel (mkDetails rows cols expanded format level)
  = Ok (map (fun x => TableRow x level) rows).
Proof.
  intros H.
  apply (getTableRows_all_collapsed K fuel
           (mkDetails rows cols expanded format level)).
  intros x Hx. simpl. destruct H as [H|H]; [left; exact H|].
  right. rewrite (H x Hx). reflexivity.
Qed.

Lemma nothing_expands_without_formatter_or_flag_witness :
  getTableRows Sample.constants 0
               (mkDetails [Sample.mapColumn; Sample.arrayOfInt]
                          [Sample.contentColumn] ["t/m"; "t/a"] None 0)
  = Ok [TableRow Sample.mapColumn 0; TableRow Sample.arrayOfInt 0].
Proof.
  apply (@nothing_expands_without_formatter_or_flag
           Sample.constants 0 [Sample.mapColumn; Sample.arrayOfInt]
           [Sample.contentColumn] ["t/m"; "t/a"] None 0).
  left. reflexivity.
Defined.

(** ** Exceptions of the rows *)

(** X11. In a table without columns, expanding a row that gets an opener (a
    positive array count, or a map) throws a [RangeError]: the placeholder
    cells are an array of length minus one. *)
Theorem brackets_without_columns_throw
        (K : TableConstants)
        (format : FormattedDataType -> nat -> FormattedDataType)
        (fuel : nat) (item rv : FormattedDataType)
        (fc : list FormattedDataType) (n : nat)
        (expanded : list string) (level : nat) :
  isExpandable item = true ->
  In (key item) expanded ->
  handleSpecificTypeRowData K format (S fuel) item = Ok (rv, fc, n) ->
  hasSpecificTypeHandling K rv n = true ->
  getTableRows K (S fuel) (mkDetails [item] [] expanded (Some format) level)
  = Throw RangeError.
Proof.
  intros He Hin Hh Hs.
  pose (d := mkDetails [] [] expanded (Some format) level).
  change (mkDetails [item] [] expanded (Some format) level)
    with (withData d [item]).
  rewrite getTableRows_cons.
  rewrite (@itemRows_expanded K fuel d format item eq_refl)
    by (simpl; rewrite He; apply includes_In in Hin; rewrite Hin; reflexivity).
  rewrite Hh. simpl. unfold getSpecificTypeOpenerRow. rewrite Hs. reflexivity.
Qed.

Lemma brackets_without_columns_throw_witness :
  getTableRows Sample.constants 1
               (mkDetails [Sample.mapColumn] [] ["t/m"] (Some Sample.format) 0)
  = Throw RangeError.
Proof.
  eapply (@brackets_without_columns_throw
            Sample.constants Sample.format 0 Sample.mapColumn);
    [reflexivity | left; reflexivity | reflexivity | reflexivity].
Defined.

(** X12. Expanding a row whose row to display is an array with an empty list
    of children throws a [TypeError]: the loop reads the first formatted
    child, and there is none. *)
Theorem array_without_children_throws
        (K : TableConstants)
        (format : FormattedDataType -> nat -> FormattedDataType)
        (fuel : nat) (item : FormattedDataType)
        (cols : list TableColumn) (expanded : list string) (level : nat) :
  isExpandable item = true ->
  In (key item) expanded ->
  kindIs (ARRAY_KIND K) (initialRowToDisplay format item) = true ->
  getFormattedChildrenData format (initialRowToDisplay format item) = Ok [] ->
  getTableRows K (S fuel) (mkDetails [item] cols expanded (Some format) level)
  = Throw TypeError.
Proof.
  intros He Hin Hk Hc.
  pose (d := mkDetails [] cols expanded (Some format) level).
  change (mkDetails [item] cols expanded (Some format) level)
    with (withData d [item]).
  rewrite getTableRows_cons.
  rewrite (@itemRows_expanded K fuel d format item eq_refl)
    by (simpl; rewrite He; apply includes_In in Hin; rewrite Hin; reflexivity).
  rewrite handleSpecificTypeRowData_eq. simpl. rewrite Hk, Hc. reflexivity.
Qed.

Lemma array_without_children_throws_witness :
  getTableRows Sample.constants 1
               (Sample.details
                  [Sample.column "t/z" "z" true
                     (Some (Sample.node "t/z/type/z" "z" "array" []))]
                  ["t/z"])
  = Throw TypeError.
Proof.
  apply (@array_without_children_throws
           Sample.constants Sample.format 0
           (Sample.column "t/z" "z" true
              (Some (Sample.node "t/z/type/z" "z" "array" [])))
           [Sample.contentColumn] ["t/z"] 0);
    [reflexivity | left; reflexivity | reflexivity | reflexivity].
Defined.

(** ** What the unwrapping returns *)

Lemma skipArrays_shape K format fuel start count rv n :
  skipArrays K format fuel start count = Ok (rv, n) ->
  (kindIs (ARRAY_KIND K) start = false -> rv = start /\ n = count)
  /\ (kindIs (ARRAY_KIND K) start = true -> count < n).
Proof.
  revert start count. induction fuel as [|fuel IH]; intros start count H;
    simpl in H; destruct (kindIs (ARRAY_KIND K) start) eqn:Ek;
    try discriminate.
  - injection H as <- <-. split; [auto | discriminate].
  - split; [discriminate|]. intros _.
    destruct (getFormattedChildrenData format start) as [[|first rest]| |];
      simpl in H; try discriminate.
    destruct (isExpandable first).
    + apply IH in H. destruct H as [Hn Ha].
      destruct (kindIs (ARRAY_KIND K) first) eqn:Ef.
      * specialize (Ha eq_refl). lia.
      * destruct (Hn eq_refl) as [_ ->]. lia.
    + destruct (kindIs (ARRAY_KIND K) first); injection H as <- <-; lia.
  - injection H as <- <-. split; [auto | discriminate].
Qed.

(** X13. What [handleSpecificTypeRowData] returns: the array count is zero
    exactly when the row the unwrapping starts from is not an array, and then
    that row is the row to display; when the row to display is an array it
    has no formatted children; and a row that starts from an array always
    gets an opener and a closer. *)
Theorem unwrapping_counts_arrays
        (K : TableConstants)
        (format : FormattedDataType -> nat -> FormattedDataType)
        (fuel : nat) (item rv : FormattedDataType)
        (fc : list FormattedDataType) (n : nat) :
  handleSpecificTypeRowData K format fuel item = Ok (rv, fc, n) ->
  (n = 0 <-> kindIs (ARRAY_KIND K) (initialRowToDisplay format item) = false)
  /\ (n = 0 -> rv = initialRowToDisplay format item)
  /\ (kindIs (ARRAY_KIND K) rv = true -> fc = [])
  /\ (kindIs (ARRAY_KIND K) (initialRowToDisplay format item) = true ->
      hasSpecificTypeHandling K rv n = true).
Proof.
  rewrite handleSpecificTypeRowData_eq. intros H.
  apply bind_Ok_inv in H. destruct H as [[rv' n'] [Hs H]].
  apply skipArrays_shape in Hs. destruct Hs as [Hnot Harr].
  assert (E : rv' = rv /\ n' = n
              /\ (kindIs (ARRAY_KIND K) rv = true -> fc = [])).
  { destruct (kindIs (ARRAY_KIND K) rv') eqn:Ek.
    - injection H as <- <- <-. auto.
    - apply bind_Ok_inv in H. destruct H as [base [_ H]].
      destruct (kindIs (MAP_KIND K) rv'); injection H as <- <- <-;
        (split; [reflexivity | split; [reflexivity | congruence]]). }
  destruct E as [-> [-> Hfc]].
  destruct (kindIs (ARRAY_KIND K) (initialRowToDisplay format item)) eqn:Ei.
  - specialize (Harr eq_refl).
    split; [split; [lia | discriminate] | split; [lia | split; [exact Hfc|]]].
    intros _. unfold hasSpecificTypeHandling.
    destruct (Nat.ltb_spec 0 n); [reflexivity | lia].
  - destruct (Hnot eq_refl) as [-> ->].
    split; [split; reflexivity | split; [reflexivity | split; [exact Hfc|]]].
    discriminate.
Qed.

Lemma unwrapping_counts_arrays_witness :
  hasSpecificTypeHandling Sample.constants
    (Sample.format
       (Sample.node "t/c/type/c/_inner_" "_inner_" "struct"
          [Sample.node "t/c/type/c/_inner_/x" "x" "scalar" []]) 0)
    1 = true.
Proof.
  apply (@unwrapping_counts_arrays
           Sample.constants Sample.format 2 Sample.arrayOfStruct _ _ 1 eq_refl).
  reflexivity.
Defined.

(** ** Display names of a map *)

Lemma setProp_idempotent (f : string) (v : JsValue) (ps : list (string * JsValue)) :
  setProp f v (setProp f v ps) = setProp f v ps.
Proof.
  induction ps as [|[k w] ps IH]; simpl.
  - rewrite String.eqb_refl. reflexivity.
  - destruct (String.eqb k f) eqn:E; simpl; rewrite E;
      [reflexivity | rewrite IH; reflexivity].
Qed.

Lemma setProp_find_same (f : string) (v : JsValue) (ps : list (string * JsValue)) :
  find (fun entry => String.eqb (fst entry) f) (setProp f v ps) = Some (f, v).
Proof.
  induction ps as [|[k w] ps IH]; simpl.
  - rewrite String.eqb_refl. reflexivity.
  - destruct (String.eqb k f) eqn:E; simpl; rewrite E; [|exact IH].
    apply String.eqb_eq in E. subst k. reflexivity.
Qed.

Lemma setProp_find_other (f g : string) (v : JsValue)
      (ps : list (string * JsValue)) :
  g <> f ->
  find (fun entry => String.eqb (fst entry) g) (setProp f v ps)
  = find (fun entry => String.eqb (fst entry) g) ps.
Proof.
  intros Hne. induction ps as [|[k w] ps IH]; simpl.
  - destruct (String.eqb_spec f g) as [E|_]; [|reflexivity].
    exfalso. apply Hne. symmetry. exact E.
  - destruct (String.eqb_spec k f) as [E|_]; simpl.
    + subst k. destruct (String.eqb_spec f g) as [E|_]; [|reflexivity].
      exfalso. apply Hne. symmetry. exact E.
    + rewrite IH. reflexivity.
Qed.

Lemma setProp_names (f : string) (v : JsValue) (ps : list (string * JsValue)) :
  map fst (setProp f v ps)
  = if includes (map fst ps) f then map fst ps else map fst ps ++ [f].
Proof.
  unfold includes. induction ps as [|[k w] ps IH]; simpl; [reflexivity|].
  rewrite (String.eqb_sym f k).
  destruct (String.eqb k f); simpl; [reflexivity|].
  rewrite IH. destruct (existsb (String.eqb f) (map fst ps)); reflexivity.
Qed.

(** *** Entries and fields *)

(** On a row whose entries list its fields, [row[field]] is read from the
    entries alone. *)
Lemma getProp_of_the_entries (row : FormattedDataType) (f : string) :
  listsItsFields row ->
  getProp row f
  = match find (fun entry => String.eqb (fst entry) f) (props row) with
    | Some entry => snd entry
    | None =>
        if existsb (String.eqb f) inheritedProperties then JsObject
        else JsUndefined
    end.
Proof.
  intros H. unfold getProp.
  destruct (fieldValue row f) as [v|] eqn:E; [|reflexivity].
  rewrite (H f v E). reflexivity.
Qed.

(** The rows of the examples list their fields. *)
Lemma Sample_object_listsItsFields k n kd expandable tm cs c more :
  listsItsFields (Sample.object k n kd expandable tm cs c more).
Proof.
  intros f v. unfold fieldValue, Sample.object. simpl.
  destruct (String.eqb_spec f "key") as [->|_];
    [intros [= <-]; reflexivity|].
  destruct (String.eqb_spec f "name") as [->|_];
    [intros [= <-]; reflexivity|].
  destruct (String.eqb_spec f "isExpandable") as [->|_];
    [intros [= <-]; reflexivity|].
  destruct (String.eqb_spec f "content") as [->|_];
    [intros [= <-]; reflexivity|].
  destruct (String.eqb_spec f "kind") as [->|_];
    [destruct kd; intros [= <-]; reflexivity|].
  destruct (String.eqb_spec f "typeMetadata") as [->|_];
    [destruct kd; destruct tm; intros [= <-]; reflexivity|].
  destruct (String.eqb_spec f "children") as [->|_];
    [destruct kd; destruct tm; destruct cs; intros [= <-]; reflexivity|].
  discriminate.
Qed.

(** [updateMapDisplayNames] keeps the entries in step with the fields. *)
Lemma updateMapDisplayNames_listsItsFields (K : TableConstants)
      (l : list FormattedDataType) :
  Forall listsItsFields l -> Forall listsItsFields (updateMapDisplayNames K l).
Proof.
  unfold updateMapDisplayNames. intros H. apply Forall_map.
  apply (Forall_impl _ (P := listsItsFields)); [|exact H].
  intros child Hc f v. unfold listsItsFields in Hc. simpl.
  destruct (String.eqb_spec f "content") as [->|Hne].
  - intros E. unfold fieldValue in E. simpl in E. injection E as <-.
    apply setProp_find_same.
  - intros E. rewrite (setProp_find_other _ _ Hne). apply Hc.
    unfold fieldValue in *. simpl in E.
    destruct (String.eqb_spec f "content") as [E'|_]; [contradiction|].
    exact E.
Qed.

(** X14. [updateMapDisplayNames] replaces the content of each child and
    nothing else: the title becomes the display name, which depends on the
    name of the child alone (the display name for the key and the value
    name, the name itself otherwise), and the nested level of the content
    is kept; [row["content"]] and the entry of that name hold the new
    content, while every other property reads as before; the entries keep
    their names and their order, the content being added at the end for a
    child that had no such entry; and applying it twice is the same as
    applying it once. *)
Theorem updateMapDisplayNames_only_sets_titles
        (K : TableConstants) (l : list FormattedDataType) :
  updateMapDisplayNames K (updateMapDisplayNames K l) = updateMapDisplayNames K l
  /\ List.length (updateMapDisplayNames K l) = List.length l
  /\ Forall2 (fun before after =>
                key after = key before
                /\ name after = name before
                /\ kind after = kind before
                /\ isExpandable after = isExpandable before
                /\ typeMetadata after = typeMetadata before
                /\ children after = children before
                /\ contentNestedLevel (content after)
                   = contentNestedLevel (content before)
                /\ title (content after)
                   = (if String.eqb (name before) (MAP_KEY_NAME K)
                      then MAP_KEY_DISPLAY_NAME K
                      else if String.eqb (name before) (MAP_VALUE_NAME K)
                           then MAP_VALUE_DISPLAY_NAME K
                           else name before)
                /\ getProp after "content" = JsContent (content after)
                /\ find (fun entry => String.eqb (fst entry) "content")
                        (props after)
                   = Some ("content", JsContent (content after))
                /\ (forall f, f <> "content" ->
                              getProp after f = getProp before f)
                /\ map fst (props after)
                   = (if includes (map fst (props before)) "content"
                      then map fst (props before)
                      else map fst (props before) ++ ["content"]))
             l (updateMapDisplayNames K l).
Proof.
  unfold updateMapDisplayNames. split; [|split].
  - rewrite map_map. apply map_ext. intros child. simpl.
    rewrite setProp_idempotent. reflexivity.
  - apply length_map.
  - induction l as [|child l IH]; simpl; constructor; [|exact IH].
    do 8 (split; [reflexivity|]).
    split; [reflexivity|].
    split; [apply setProp_find_same|].
    split; [|apply setProp_names].
    intros f Hf. unfold getProp, fieldValue. simpl.
    rewrite (setProp_find_other _ _ Hf).
    destruct (String.eqb_spec f "content") as [E|_]; [contradiction|].
    reflexivity.
Qed.

(** ** More on the key walk *)

Lemma columnKeys_length (col : FormattedDataType) :
  0 < List.length (columnKeys col).
Proof. rewrite columnKeys_eq. simpl. lia. Qed.

Lemma getAllColumnKeys_length (a : list FormattedDataType) :
  List.length a <= List.length (getAllColumnKeys a).
Proof.
  rewrite getAllColumnKeys_flat_map. induction a as [|x a IH]; simpl; [lia|].
  rewrite length_app. pose proof (columnKeys_length x). lia.
Qed.

(** X15. The keys of two lists of rows put together are the keys of the
    first followed by the keys of the second; the key of every top-level row
    is among the keys, so there are at least as many keys as top-level rows;
    and for rows with nothing nested below them the keys are the keys of the
    rows, in their order. *)
Theorem allColumnKeys_of_appended_rows (a b : list FormattedDataType) :
  getAllColumnKeys (a ++ b) = getAllColumnKeys a ++ getAllColumnKeys b
  /\ List.length a <= List.length (getAllColumnKeys a)
  /\ (forall x, In x a -> In (key x) (getAllColumnKeys a))
  /\ ((forall x, In x a -> nestedColumns x = []) ->
      getAllColumnKeys a = map key a).
Proof.
  split; [|split; [|split]].
  - rewrite !getAllColumnKeys_flat_map. apply flat_map_app.
  - apply getAllColumnKeys_length.
  - intros x Hx. apply In_getAllColumnKeys. exists x. split; [exact Hx|].
    rewrite columnKeys_eq. left. reflexivity.
  - intros H. rewrite getAllColumnKeys_flat_map.
    induction a as [|x a IH]; [reflexivity|]. simpl.
    rewrite columnKeys_eq, (H x (or_introl eq_refl)). simpl. f_equal.
    apply IH. intros y Hy. apply H. right. exact Hy.
Qed.

Lemma allColumnKeys_of_appended_rows_witness :
  getAllColumnKeys [Sample.childless; Sample.childless] = ["t/e"; "t/e"].
Proof.
  apply (proj2 (proj2 (proj2 (allColumnKeys_of_appended_rows
                                [Sample.childless; Sample.childless] [])))).
  intros x [<-|[<-|[]]]; reflexivity.
Defined.

(** ** More on the initial expansion state *)

(** X16. A table with at most the maximum number of keys starts fully
    expanded, and the matcher is not consulted, so that no pattern can make
    the load fail; a table with more top-level rows than the maximum, or
    without a maximum, starts from the keys of the deep link, and an
    exception of the matcher on the column pattern is thrown by the load. *)
Theorem initial_state_by_size
        (K : TableConstants)
        (String_match : string -> string -> result (option string))
        (fuel : nat) (rows : list FormattedDataType) (maxNumRows : nat)
        (preExpandPanelKey tableKey : option string) :
  (List.length (getAllColumnKeys rows) <= maxNumRows ->
   initialExpandedRows K String_match fuel rows (Some maxNumRows)
                       preExpandPanelKey tableKey
   = Ok (getAllColumnKeys rows))
  /\ (maxNumRows < List.length rows ->
      initialExpandedRows K String_match fuel rows (Some maxNumRows)
                          preExpandPanelKey tableKey
      = getKeysToExpand K String_match fuel preExpandPanelKey tableKey)
  /\ initialExpandedRows K String_match fuel rows None
                         preExpandPanelKey tableKey
     = getKeysToExpand K String_match fuel preExpandPanelKey tableKey
  /\ (forall a target e,
        String_match (String a target) (columnKeyRegex K tableKey) = Throw e ->
        getKeysToExpand K String_match fuel (Some (String a target)) tableKey
        = Throw e).
Proof.
  unfold initialExpandedRows, getInitialExpandedRows, lengthAtMost.
  split; [|split; [|split]].
  - intros H. destruct (Nat.leb_spec (List.length (getAllColumnKeys rows))
                                     maxNumRows); [reflexivity | lia].
  - intros H.
    pose proof (getAllColumnKeys_length rows) as Hlen.
    destruct (Nat.leb_spec (List.length (getAllColumnKeys rows)) maxNumRows);
      [lia | reflexivity].
  - reflexivity.
  - intros a target e H. unfold getKeysToExpand, columnKeyRegex in *.
    rewrite H. reflexivity.
Qed.

Lemma initial_state_by_size_witness :
  initialExpandedRows Sample.constants Regex.String_match 0
                      [Sample.arrayOfStruct] (Some 3) (Some "t/c") (Some "t(")
  = Ok ["t/c"; "t/c/type/c/_inner_"; "t/c/type/c/_inner_/x"]
  /\ initialExpandedRows Sample.constants Regex.String_match 0
                         [Sample.arrayOfStruct; Sample.mapColumn] (Some 1)
                         (Some "t/c") (Some "t(")
     = Throw SyntaxError.
Proof.
  pose proof (@initial_state_by_size Sample.constants Regex.String_match 0
                [Sample.arrayOfStruct] 3 (Some "t/c") (Some "t(")) as H1.
  pose proof (@initial_state_by_size Sample.constants Regex.String_match 0
                [Sample.arrayOfStruct; Sample.mapColumn] 1
                (Some "t/c") (Some "t(")) as H2.
  split.
  - apply (proj1 H1). vm_compute. lia.
  - rewrite (proj1 (proj2 H2)) by (simpl; lia).
    apply (proj2 (proj2 (proj2 H2))). reflexivity.
Defined.

(** ** The effect on the expansion state *)

(** X17. Without an expand-all flag the effect sets the state to the
    initial rows when these are not empty and a maximum other than zero is
    exceeded by the number of keys, whatever the state was, and leaves the
    state alone otherwise.  So on mount, where the state is the initial
    rows, it changes nothing, while a later run of the effect puts the
    initial rows back in place of the rows expanded since.  It calls
    [toggleExpandingRows] exactly when that callback is given, the initial
    rows are empty and a maximum other than zero is exceeded. *)
Theorem effect_without_flag_restores_the_initial_rows
        (allColumnKeys initialRows : list string) (maxNumRows : option nat)
        (hasToggle : bool) :
  let effect := expandOrCollapseAllRows allColumnKeys None initialRows
                                        maxNumRows hasToggle in
  let exceeded := exists m, maxNumRows = Some (S m)
                            /\ S m < List.length allColumnKeys in
  (initialRows <> [] /\ exceeded ->
   forall state, stateAfter state effect = initialRows)
  /\ (initialRows = [] \/ ~ exceeded ->
      forall state, stateAfter state effect = state)
  /\ stateAfter initialRows effect = initialRows
  /\ (effect = toggleExpandingRows
      <-> hasToggle = true /\ initialRows = [] /\ exceeded).
Proof.
  unfold expandOrCollapseAllRows.
  destruct maxNumRows as [[|m]|]; simpl.
  - split; [intros [_ [m [E _]]]; discriminate E|].
    split; [reflexivity|]. split; [reflexivity|]. split; [discriminate|].
    intros [_ [_ [m [E _]]]]. discriminate E.
  - destruct (Nat.ltb_spec (S m) (List.length allColumnKeys)) as [Hlt|Hge].
    + destruct initialRows as [|r rs]; simpl.
      * split; [intros [Hne _]; contradiction|].
        destruct hasToggle; simpl; (split; [reflexivity|]);
          (split; [reflexivity|]).
        -- split; [intros _|reflexivity].
           split; [reflexivity | split; [reflexivity|]].
           exists m. split; [reflexivity | exact Hlt].
        -- split; [discriminate | intros [E _]; discriminate E].
      * split; [reflexivity|]. split.
        -- intros [E|Hno]; [discriminate E|]. exfalso. apply Hno.
           exists m. split; [reflexivity | exact Hlt].
        -- split; [reflexivity|]. split; [discriminate|].
           intros [_ [E _]]. discriminate E.
    + split; [intros [_ [m' [[= <-] Hlt]]]; lia|].
      split; [reflexivity|]. split; [reflexivity|]. split; [discriminate|].
      intros [_ [_ [m' [[= <-] Hlt]]]]. lia.
  - split; [intros [_ [m [E _]]]; discriminate E|].
    split; [reflexivity|]. split; [reflexivity|]. split; [discriminate|].
    intros [_ [_ [m [E _]]]]. discriminate E.
Qed.

(** Three keys and a maximum of two: a run of the effect puts the initial
    row back in place of a row expanded since. *)
Lemma effect_without_flag_restores_the_initial_rows_witness :
  stateAfter ["t/b"]
             (expandOrCollapseAllRows ["t/a"; "t/b"; "t/c"] None ["t/a"]
                                      (Some 2) true)
  = ["t/a"].
Proof.
  apply (proj1 (@effect_without_flag_restores_the_initial_rows
                  ["t/a"; "t/b"; "t/c"] ["t/a"] (Some 2) true)).
  split; [discriminate|].
  exists 1. split; [reflexivity | simpl; lia].
Defined.

(** X18. With the expand-all flag set the state becomes all the keys, so the
    key of every row of the tree is expanded; with the flag cleared the state
    becomes empty and the rows are one per row of the data.  The maximum and
    the initial rows play no part. *)
Theorem effect_with_flag_sets_all_or_nothing
        (K : TableConstants) (fuel : nat) (rows : list FormattedDataType)
        (cols : list TableColumn)
        (format : option (FormattedDataType -> nat -> FormattedDataType))
        (state initialRows : list string) (maxNumRows : option nat)
        (hasToggle : bool) :
  let expandAll := expandOrCollapseAllRows (getAllColumnKeys rows) (Some true)
                                           initialRows maxNumRows hasToggle in
  let collapseAll := expandOrCollapseAllRows (getAllColumnKeys rows) (Some false)
                                             initialRows maxNumRows hasToggle in
  (forall x, InTree rows x ->
             isExpanded (stateAfter state expandAll) (key x) = true)
  /\ stateAfter state collapseAll = []
  /\ getTableRows K fuel
       (mkDetails rows cols (stateAfter state collapseAll) format 0)
     = Ok (map (fun x => TableRow x 0) rows).
Proof.
  simpl. split; [|split].
  - intros x Hx. apply includes_In. apply In_getAllColumnKeys.
    apply InTree_list in Hx. destruct Hx as [p [Hp Hx]].
    exists p. split; [exact Hp|].
    apply (proj1 (keysAreTheTree_all p)). exists x. split; [exact Hx | reflexivity].
  - reflexivity.
  - apply (getTableRows_all_collapsed K fuel (mkDetails rows cols [] format 0)).
    intros x _. right. simpl. apply andb_false_r.
Qed.

Lemma effect_with_flag_sets_all_or_nothing_witness :
  isExpanded
    (stateAfter []
       (expandOrCollapseAllRows (getAllColumnKeys [Sample.arrayOfStruct])
                                (Some true) [] (Some 1) true))
    "t/c/type/c/_inner_/x"
  = true.
Proof.
  apply (proj1 (@effect_with_flag_sets_all_or_nothing
                  Sample.constants 0 [Sample.arrayOfStruct]
                  [Sample.contentColumn] None [] [] (Some 1) true)
               (Sample.node "t/c/type/c/_inner_/x" "x" "scalar" [])).
  apply InTree_nested with (p := Sample.arrayOfStruct); [left; reflexivity|].
  apply InTree_nested
    with (p := Sample.node "t/c/type/c/_inner_" "_inner_" "struct"
                 [Sample.node "t/c/type/c/_inner_/x" "x" "scalar" []]);
    [left; reflexivity|].
  apply InTree_top. left. reflexivity.
Defined.

(** ** The keys of a deep link *)

Lemma nextKeys_pieces
      (K : TableConstants)
      (String_match : string -> string -> result (option string))
      (fuel : nat) (target : string) :
  matchesArePieces String_match ->
  forall pattern acc keys,
    Forall (fun k => occursIn k target) acc ->
    nextKeys K String_match fuel target pattern acc = Ok keys ->
    Forall (fun k => occursIn k target) keys
    /\ exists more, keys = acc ++ more.
Proof.
  intros HM. induction fuel as [|fuel IH]; intros pattern acc keys Hacc H;
    simpl in H; apply bind_Ok_inv in H; destruct H as [[k|] [Hm H]].
  - discriminate H.
  - injection H as <-. split; [exact Hacc|]. exists []. symmetry. apply app_nil_r.
  - apply IH in H.
    + destruct H as [Hall [more ->]]. split; [exact Hall|].
      exists (k :: more). rewrite <- app_assoc. reflexivity.
    + apply Forall_app. split; [exact Hacc|].
      constructor; [|constructor]. exact (HM _ _ _ Hm).
  - injection H as <-. split; [exact Hacc|]. exists []. symmetry. apply app_nil_r.
Qed.

(** X19. With a matcher that answers with a piece of its subject, every key
    to expand is a piece of the deep-link target, and when the target matches
    the column pattern the matched column key comes first. *)
Theorem keys_to_expand_are_pieces_of_the_target
        (K : TableConstants)
        (String_match : string -> string -> result (option string))
        (fuel : nat) (target : string) (tableKey : option string)
        (keys : list string) :
  matchesArePieces String_match ->
  getKeysToExpand K String_match fuel (Some target) tableKey = Ok keys ->
  Forall (fun k => occursIn k target) keys
  /\ (forall k, String_match target (columnKeyRegex K tableKey) = Ok (Some k) ->
                target <> "" -> exists more, keys = k :: more).
Proof.
  intros HM H. unfold getKeysToExpand in H.
  destruct target as [|a target]; [injection H as <-; split;
                                   [constructor | intros k _ E; contradiction]|].
  apply bind_Ok_inv in H. destruct H as [columnKey [Hc H]].
  eapply nextKeys_pieces in H; [|exact HM|].
  - destruct H as [Hall [more ->]]. split; [exact Hall|].
    intros k Hk _. unfold columnKeyRegex in Hk. rewrite Hk in Hc.
    injection Hc as <-. exists more. reflexivity.
  - destruct columnKey as [k|]; [|constructor].
    constructor; [|constructor]. exact (HM _ _ _ Hc).
Qed.

Lemma string_of_list_ascii_app (a b : list ascii) :
  string_of_list_ascii (a ++ b)
  = (string_of_list_ascii a ++ string_of_list_ascii b)%string.
Proof. induction a as [|c a IH]; simpl; [reflexivity | rewrite IH; reflexivity]. Qed.

Lemma many_prefix (a : Regex.atom) (k : list ascii -> option (list ascii)) :
  (forall s m, k s = Some m -> exists rest, s = m ++ rest) ->
  forall s m, Regex.many a k s = Some m -> exists rest, s = m ++ rest.
Proof.
  intros Hk s. induction s as [|c s IH]; intros m H; simpl in H.
  - apply Hk. exact H.
  - destruct (Regex.accepts a c); [|apply Hk; exact H].
    destruct (Regex.many a k s) as [m'|] eqn:E; [|apply Hk; exact H].
    injection H as <-. destruct (IH m' eq_refl) as [rest ->].
    exists rest. reflexivity.
Qed.

Lemma matchHere_prefix (ps : list Regex.piece) :
  forall s m, Regex.matchHere ps s = Some m -> exists rest, s = m ++ rest.
Proof.
  induction ps as [|[a|a|a|a] ps IH]; intros s m H; simpl in H.
  - injection H as <-. exists s. reflexivity.
  - destruct s as [|c s]; [discriminate|].
    destruct (Regex.accepts a c); [|discriminate].
    destruct (Regex.matchHere ps s) as [m'|] eqn:E; [|discriminate].
    injection H as <-. destruct (IH s m' E) as [rest ->].
    exists rest. reflexivity.
  - destruct s as [|c s]; [discriminate|].
    destruct (Regex.accepts a c); [|discriminate].
    destruct (Regex.many a (Regex.matchHere ps) s) as [m'|] eqn:E;
      [|discriminate].
    injection H as <-. destruct (@many_prefix a _ IH s m' E) as [rest ->].
    exists rest. reflexivity.
  - exact (@many_prefix a _ IH s m H).
  - destruct s as [|c s]; [exact (IH _ _ H)|].
    destruct (Regex.accepts a c); [|exact (IH _ _ H)].
    destruct (Regex.matchHere ps s) as [m'|] eqn:E; [|exact (IH _ _ H)].
    injection H as <-. destruct (IH s m' E) as [rest ->].
    exists rest. reflexivity.
Qed.

Lemma search_piece (ps : list Regex.piece) :
  forall s m, Regex.search ps s = Some m ->
              exists before after, s = before ++ m ++ after.
Proof.
  induction s as [|c s IH]; intros m H; simpl in H.
  - destruct (Regex.matchHere ps []) as [m'|] eqn:E; [|discriminate].
    injection H as <-. destruct (@matchHere_prefix ps _ _ E) as [rest Hr].
    exists [], rest. exact Hr.
  - destruct (Regex.matchHere ps (c :: s)) as [m'|] eqn:E.
    + injection H as <-. destruct (@matchHere_prefix ps _ _ E) as [rest Hr].
      exists [], rest. exact Hr.
    + destruct (IH m H) as [before [after ->]].
      exists (c :: before), after. reflexivity.
Qed.

Lemma Regex_matches_are_pieces : matchesArePieces Regex.String_match.
Proof.
  intros subject pattern m H. unfold Regex.String_match in H.
  destruct (Regex.parse pattern) as [ps| |]; try discriminate.
  destruct (Regex.isAscii (list_ascii_of_string subject)); [|discriminate].
  destruct (Regex.search ps (list_ascii_of_string subject)) as [l|] eqn:E;
    [|discriminate].
  injection H as <-. destruct (@search_piece ps _ _ E) as [before [after Hs]].
  exists (string_of_list_ascii before), (string_of_list_ascii after).
  rewrite <- !string_of_list_ascii_app, <- Hs.
  symmetry. apply string_of_list_ascii_of_string.
Qed.

Lemma keys_to_expand_are_pieces_of_the_target_witness :
  Forall (fun k => occursIn k "t/c/type/c/x")
         ["t/c"; "t/c/type/c"; "t/c/type/c/x"].
Proof.
  apply (@keys_to_expand_are_pieces_of_the_target
           Sample.constants Regex.String_match 5 "t/c/type/c/x" (Some "t")
           ["t/c"; "t/c/type/c"; "t/c/type/c/x"]
           Regex_matches_are_pieces eq_refl).
Defined.

(** ** The cells of a row *)

Lemma filter_mapFrom_length (A B : Type) (f : A -> nat -> B)
      (p : B -> bool) (q : A -> bool) :
  (forall x i, p (f x i) = q x) ->
  forall l i, List.length (filter p (mapFrom f i l)) = List.length (filter q l).
Proof.
  intros H l. induction l as [|x l IH]; intros i; simpl; [reflexivity|].
  rewrite H. destruct (q x); simpl; rewrite IH; reflexivity.
Qed.

Lemma map_mapFrom (A B C : Type) (f : A -> nat -> B) (g : B -> C) (h : A -> C) :
  (forall x i, g (f x i) = h x) ->
  forall l i, map g (mapFrom f i l) = map h l.
Proof.
  intros H l. induction l as [|x l IH]; intros i; simpl; [reflexivity|].
  rewrite H, IH. reflexivity.
Qed.

Lemma entries_named_once (f : string) (keep : string * JsValue -> bool)
      (entries : list (string * JsValue)) :
  NoDup (map fst entries) ->
  (forall entry, fst entry = f -> keep entry = true) ->
  List.length
    (filter (fun entry => String.eqb f (fst entry)) (filter keep entries))
  = if includes (map fst entries) f then 1 else 0.
Proof.
  intros Hnd Hkeep. induction entries as [|[n v] entries IH]; [reflexivity|].
  simpl in Hnd. inversion Hnd as [|? ? Hn Hnd']; subst.
  unfold includes in *. simpl.
  destruct (String.eqb_spec f n) as [E|Hne].
  - subst n. rewrite (Hkeep (f, v) eq_refl). simpl. rewrite String.eqb_refl.
    simpl. f_equal. rewrite (IH Hnd').
    destruct (existsb (String.eqb f) (map fst entries)) eqn:Ex; [|reflexivity].
    apply existsb_exists in Ex. destruct Ex as [x [Hx Heq]].
    apply String.eqb_eq in Heq. subst x. contradiction.
  - simpl. destruct (keep (n, v)); simpl.
    + destruct (String.eqb_spec f n); [contradiction|]. apply IH. exact Hnd'.
    + apply IH. exact Hnd'.
Qed.

(** X20. In a row whose entries have distinct names, exactly one cell
    carries the expanding button when the row is expandable and has an entry
    for the field of the first column, and no cell does otherwise: an
    expandable row without that entry cannot be expanded by a click. *)
Theorem expanding_button_is_in_the_first_field
        (component :
           TableColumn -> option (JsValue -> nat -> FormattedDataType -> string))
        (cols : list TableColumn) (row : FormattedDataType) :
  NoDup (map fst (props row)) ->
  List.length (filter hasExpandingButton (TableRow_cells component cols row))
  = if isExpandable row
       && match cols with
          | first :: _ => includes (map fst (props row)) (field first)
          | [] => false
          end
    then 1 else 0.
Proof.
  intros Hnd. unfold TableRow_cells, arrayMap.
  destruct cols as [|first cols].
  - simpl. rewrite andb_false_r.
    rewrite (@filter_mapFrom_length _ _ _ hasExpandingButton (fun _ => false))
      by reflexivity.
    induction (filter _ (props row)); [reflexivity | assumption].
  - destruct (isExpandable row) eqn:He.
    + rewrite (@filter_mapFrom_length
                 _ _ _ hasExpandingButton
                 (fun entry => String.eqb (field first) (fst entry)))
        by (intros x i; simpl; rewrite He; apply andb_true_r).
      simpl andb. apply entries_named_once; [exact Hnd|].
      intros entry E. rewrite E. unfold includes. simpl.
      rewrite String.eqb_refl. reflexivity.
    + rewrite (@filter_mapFrom_length _ _ _ hasExpandingButton (fun _ => false))
        by (intros x i; simpl; rewrite He; apply andb_false_r).
      simpl. induction (filter _ (props row)); [reflexivity | assumption].
Qed.

Lemma expanding_button_is_in_the_first_field_witness :
  List.length
    (filter hasExpandingButton
            (TableRow_cells (fun _ => None) [Sample.contentColumn]
                            Sample.mapColumn))
  = 1.
Proof.
  apply (@expanding_button_is_in_the_first_field
           (fun _ => None) [Sample.contentColumn] Sample.mapColumn).
  simpl. repeat (constructor; [simpl; intuition discriminate|]). constructor.
Defined.

Lemma includes_same_members (l1 l2 : list string) :
  (forall f, In f l1 <-> In f l2) -> forall k, includes l1 k = includes l2 k.
Proof.
  intros H k. destruct (includes l1 k) eqn:H1; destruct (includes l2 k) eqn:H2;
    try reflexivity.
  - apply includes_In, H, includes_In in H1. congruence.
  - apply includes_In, H, includes_In in H2. congruence.
Qed.

(** X21. The cells of a row are the entries of the row that name a field of
    the columns, in the order of the entries: the order of the columns plays
    no part, so two lists of columns with the same fields give cells for the
    same entries in the same order, and a field without an entry gets no
    cell. *)
Theorem cells_follow_the_entries_of_the_row
        (component :
           TableColumn -> option (JsValue -> nat -> FormattedDataType -> string))
        (cols cols' : list TableColumn) (row : FormattedDataType) :
  map cellField (TableRow_cells component cols row)
  = filter (includes (map field cols)) (map fst (props row))
  /\ ((forall f, In f (map field cols) <-> In f (map field cols')) ->
      map cellField (TableRow_cells component cols row)
      = map cellField (TableRow_cells component cols' row))
  /\ (forall f, ~ In f (map fst (props row)) ->
                ~ In f (map cellField (TableRow_cells component cols row))).
Proof.
  assert (H : forall cs,
             map cellField (TableRow_cells component cs row)
             = filter (includes (map field cs)) (map fst (props row))).
  { intros cs. unfold TableRow_cells, arrayMap.
    rewrite (@map_mapFrom _ _ _ _ cellField fst) by reflexivity.
    induction (props row) as [|[n v] entries IH]; [reflexivity|].
    simpl. destruct (includes (map field cs) n); simpl; rewrite IH; reflexivity. }
  split; [apply H | split].
  - intros Hsame. rewrite !H. apply filter_ext. intros k.
    apply includes_same_members. exact Hsame.
  - intros f Hf Hin. rewrite H in Hin. apply filter_In in Hin.
    apply Hf. exact (proj1 Hin).
Qed.

Lemma cells_follow_the_entries_of_the_row_witness :
  map cellField
      (TableRow_cells (fun _ => None)
                      [mkColumn "Type" "type" None None; Sample.contentColumn]
                      Sample.mapColumn)
  = map cellField
        (TableRow_cells (fun _ => None)
                        [Sample.contentColumn; mkColumn "Type" "type" None None]
                        Sample.mapColumn).
Proof.
  apply (proj1 (proj2 (@cells_follow_the_entries_of_the_row
                         (fun _ => None)
                         [mkColumn "Type" "type" None None; Sample.contentColumn]
                         [Sample.contentColumn; mkColumn "Type" "type" None None]
                         Sample.mapColumn))).
  intros f. simpl. tauto.
Defined.

(** ** The description of a column *)

(** X22. The refresh value of a top-level column is the description of the
    first column with its key and is undefined, not an exception, when no
    column has the key; the lookup by index of the other side of the file
    throws a [TypeError] exactly when the index is out of range. *)
Theorem description_lookup
        (getTypeMetadataFromKey : string -> list ColumnData -> option ColumnData)
        (tableColumns : list ColumnData) (columnKey : string)
        (columnIndex : nat) :
  ((forall column, In column tableColumns -> columnDataKey column <> columnKey) ->
   refreshValue getTypeMetadataFromKey tableColumns columnKey false = None)
  /\ (forall before column after,
        tableColumns = before ++ column :: after ->
        (forall other, In other before -> columnDataKey other <> columnKey) ->
        columnDataKey column = columnKey ->
        refreshValue getTypeMetadataFromKey tableColumns columnKey false
        = description column)
  /\ (refreshValueAt tableColumns columnIndex = Throw TypeError
      <-> List.length tableColumns <= columnIndex).
Proof.
  unfold refreshValue. simpl. split; [|split].
  - intros H.
    destruct (find _ tableColumns) as [column|] eqn:E; [|reflexivity].
    apply find_some in E. destruct E as [Hin Heq].
    apply String.eqb_eq in Heq. exfalso. exact (H column Hin Heq).
  - intros before column after -> Hbefore Hkey.
    induction before as [|other before IH]; simpl.
    + rewrite Hkey, String.eqb_refl. reflexivity.
    + destruct (String.eqb_spec (columnDataKey other) columnKey) as [E|_].
      * exfalso. exact (Hbefore other (or_introl eq_refl) E).
      * apply IH. intros o Ho. apply Hbefore. right. exact Ho.
  - unfold refreshValueAt.
    destruct (nth_error tableColumns columnIndex) as [column|] eqn:E.
    + split; [discriminate|]. intros Hle.
      apply nth_error_None in Hle. congruence.
    + split; [intros _|reflexivity]. apply nth_error_None. exact E.
Qed.

Lemma description_lookup_witness :
  refreshValue (fun _ _ => None)
               [mkColumnData "t/a" (Some "first"); mkColumnData "t/a" (Some "second")]
               "t/b" false
  = None.
Proof.
  apply (proj1 (@description_lookup
                  (fun _ _ => None)
                  [mkColumnData "t/a" (Some "first");
                   mkColumnData "t/a" (Some "second")] "t/b" 0)).
  intros column [<-|[<-|[]]]; discriminate.
Defined.

(** ** The tours of a page *)

Lemma orDefault_not_empty (value : option string) (fallback : string) :
  fallback <> "" -> orDefault value fallback <> "".
Proof.
  intros H. destruct value as [[|a v]|]; simpl; try exact H. discriminate.
Qed.

(** X23. A page is said to have a page tour exactly when the reduction of
    its product tours gives a tour, whether that tour has steps or not, and
    the steps shown are those of the first tour; it is said to have a
    feature tour exactly when the reduction gives a tour and the first one
    has steps; a path without product tours has neither tour and no
    steps. *)
Theorem tour_flags
        (ProductTour Tour Step : Type) (steps : Tour -> list Step)
        (getProductToursFor : string -> option (list ProductTour) * string)
        (reduceToPageTours reduceToFeatureTours :
           list Tour -> ProductTour -> list Tour)
        (generateKeyFromSteps : list Tour -> string -> option string)
        (pageDefault featureDefault pathname : string) :
  let page := getPageTourInfo steps getProductToursFor reduceToPageTours
                              generateKeyFromSteps pageDefault pathname in
  let feature := getFeatureTourInfo steps getProductToursFor
                                    reduceToFeatureTours generateKeyFromSteps
                                    featureDefault pathname in
  (hasTour page = true
   <-> exists tours first others,
         fst (getProductToursFor pathname) = Some tours
         /\ fold_left reduceToPageTours tours [] = first :: others)
  /\ (forall tours first others,
        fst (getProductToursFor pathname) = Some tours ->
        fold_left reduceToPageTours tours [] = first :: others ->
        tourSteps page = steps first)
  /\ (hasTour feature = true
      <-> exists tours first others,
            fst (getProductToursFor pathname) = Some tours
            /\ fold_left reduceToFeatureTours tours [] = first :: others
            /\ steps first <> [])
  /\ (forall tours first others,
        fst (getProductToursFor pathname) = Some tours ->
        fold_left reduceToFeatureTours tours [] = first :: others ->
        tourSteps feature = steps first)
  /\ (fst (getProductToursFor pathname) = None ->
      hasTour page = false /\ tourSteps page = []
      /\ hasTour feature = false /\ tourSteps feature = []).
Proof.
  unfold getPageTourInfo, getFeatureTourInfo.
  destruct (getProductToursFor pathname) as [[tours|] tourPath]; simpl.
  - split; [|split; [|split; [|split; [|discriminate]]]].
    + destruct (fold_left reduceToPageTours tours []) as [|first others] eqn:E;
        simpl.
      * split; [discriminate|]. intros [t [f [o [[= <-] E']]]].
        rewrite E in E'. discriminate E'.
      * split; [|reflexivity]. intros _. exists tours, first, others.
        split; [reflexivity | exact E].
    + intros t f o [= <-] E. rewrite E. reflexivity.
    + destruct (fold_left reduceToFeatureTours tours []) as [|first others] eqn:E;
        simpl.
      * split; [discriminate|]. intros [t [f [o [[= <-] [E' _]]]]].
        rewrite E in E'. discriminate E'.
      * destruct (steps first) as [|step more] eqn:Es; simpl.
        -- split; [discriminate|]. intros [t [f [o [[= <-] [E' Hs]]]]].
           rewrite E in E'. injection E' as <- <-. contradiction.
        -- split; [|reflexivity]. intros _. exists tours, first, others.
           split; [reflexivity|]. split; [exact E|].
           rewrite Es. discriminate.
    + intros t f o [= <-] E. rewrite E. reflexivity.
  - split; [|split; [|split; [|split]]].
    + split; [discriminate|]. intros [t [f [o [E _]]]]. discriminate E.
    + intros t f o E. discriminate E.
    + split; [discriminate|]. intros [t [f [o [E _]]]]. discriminate E.
    + intros t f o E. discriminate E.
    + auto.
Qed.

(** A page whose only tour has no steps: it is said to have a page tour, and
    not to have a feature tour. *)
Lemma tour_flags_witness :
  hasTour
    (getPageTourInfo (fun tour : list nat => tour)
                     (fun _ => (Some [@nil nat], "/"))
                     (fun acc tour => acc ++ [tour])
                     (fun _ _ => None) "page" "/")
  = true.
Proof.
  apply (proj1 (@tour_flags (list nat) (list nat) nat (fun tour => tour)
                            (fun _ => (Some [@nil nat], "/"))
                            (fun acc tour => acc ++ [tour])
                            (fun acc tour => acc ++ [tour])
                            (fun _ _ => None) "page" "feature" "/")).
  exists [@nil nat], (@nil nat), (@nil (list nat)). split; reflexivity.
Defined.

(** X24. The key of a tour is never empty when the default key is not: an
    absent or empty generated key is replaced by the default. *)
Theorem tour_keys_are_not_empty
        (ProductTour Tour Step : Type) (steps : Tour -> list Step)
        (getProductToursFor : string -> option (list ProductTour) * string)
        (reduceToPageTours reduceToFeatureTours :
           list Tour -> ProductTour -> list Tour)
        (generateKeyFromSteps : list Tour -> string -> option string)
        (pageDefault featureDefault pathname : string) :
  (pageDefault <> "" ->
   tourKey (getPageTourInfo steps getProductToursFor reduceToPageTours
                            generateKeyFromSteps pageDefault pathname) <> "")
  /\ (featureDefault <> "" ->
      tourKey (getFeatureTourInfo steps getProductToursFor reduceToFeatureTours
                                  generateKeyFromSteps featureDefault pathname)
      <> "").
Proof.
  unfold getPageTourInfo, getFeatureTourInfo.
  destruct (getProductToursFor pathname) as [tours tourPath]; simpl.
  split; intros H; apply orDefault_not_empty; exact H.
Qed.

Lemma tour_keys_are_not_empty_witness :
  tourKey
    (getPageTourInfo (fun tour : list nat => tour)
                     (fun _ => (None : option (list (list nat)), "/"))
                     (fun acc tour => acc ++ [tour])
                     (fun _ _ => Some "") "page" "/")
  <> "".
Proof.
  apply (proj1 (@tour_keys_are_not_empty
                  (list nat) (list nat) nat (fun tour => tour)
                  (fun _ => (None, "/"))
                  (fun acc tour => acc ++ [tour])
                  (fun acc tour => acc ++ [tour])
                  (fun _ _ => Some "") "page" "feature" "/")).
  discriminate.
Defined.

(** ** Rows below arrays *)

(** X25. An expanded row over [N] expandable array layers that end in a row
    which is not an array shows the formatted children of that row, with the
    display names when it is a map, one level deeper, between an opener and
    a closer of count [N]; when there is no array layer and the row is not a
    map, the places of opener and closer hold [null], also in a table
    without columns. *)
Theorem arrays_over_a_row_show_its_children
        (K : TableConstants)
        (format : FormattedDataType -> nat -> FormattedDataType)
        (fuel : nat) (item last : FormattedDataType) (N : nat)
        (formattedChildren : list FormattedDataType)
        (cols : list TableColumn) (expanded : list string) (level : nat)
        (nested : list ReactNode) :
  cols <> [] \/ hasSpecificTypeHandling K last N = false ->
  isExpandable item = true ->
  In (key item) expanded ->
  ArraysOver K format (initialRowToDisplay format item) N last ->
  getFormattedChildrenData format last = Ok formattedChildren ->
  N <= S fuel ->
  let shown := if kindIs (MAP_KIND K) last
               then updateMapDisplayNames K formattedChildren
               else formattedChildren in
  getTableRows K fuel (mkDetails shown cols expanded (Some format) (S level))
  = Ok nested ->
  getTableRows K (S fuel) (mkDetails [item] cols expanded (Some format) level)
  = Ok (TableRow item level
        :: (if hasSpecificTypeHandling K last N
            then OpenerRow (key last) (arrayOpenerLabelOf K N)
                           (mapOpenerLabelOf K last) level
                           (List.length cols - 1)
            else RNull)
        :: nested
        ++ [if hasSpecificTypeHandling K last N
            then CloserRow (key last) (mapCloserLabelOf K last)
                           (arrayCloserLabelOf K N) level
                           (List.length cols - 1)
            else RNull]).
Proof.
  intros Hcols He Hin Hl Hc Hle shown Hnested.
  destruct (ArraysOver_skipArrays Hl 0 Hle) as [Hs Hk].
  pose (d := mkDetails [] cols expanded (Some format) level).
  change (mkDetails [item] cols expanded (Some format) level)
    with (withData d [item]).
  rewrite getTableRows_cons, getTableRows_nil.
  rewrite (@itemRows_expanded K fuel d format item eq_refl)
    by (simpl; rewrite He; apply includes_In in Hin; rewrite Hin; reflexivity).
  rewrite handleSpecificTypeRowData_eq, Hs. simpl. rewrite Hk, Hc. simpl.
  unfold shown in Hnested.
  destruct (kindIs (MAP_KIND K) last) eqn:Hm; simpl;
    unfold additionalColumns, nestedDetails; simpl;
    (destruct (hasSpecificTypeHandling K last N) eqn:Hh;
     [ destruct Hcols as [Hcols|Hcols]; [|discriminate Hcols];
       destruct (@opener_closer_of_columns K last N level cols Hcols Hh)
         as [Ho Hcl];
       rewrite Ho, Hcl; simpl; rewrite Hnested; simpl;
       rewrite app_nil_r; reflexivity
     | unfold getSpecificTypeOpenerRow, getSpecificTypeCloserRow;
       rewrite Hh; simpl; rewrite Hnested; simpl;
       rewrite app_nil_r; reflexivity ]).
Qed.

Lemma arrays_over_a_row_show_its_children_witness :
  getTableRows Sample.constants 1
               (Sample.details [Sample.arrayOfStruct] ["t/c"])
  = Ok [TableRow Sample.arrayOfStruct 0;
        OpenerRow "t/c/type/c/_inner_" "array[" "" 0 0;
        TableRow (Sample.format
                    (Sample.node "t/c/type/c/_inner_/x" "x" "scalar" []) 0) 1;
        CloserRow "t/c/type/c/_inner_" "" "]" 0 0].
Proof.
  apply (@arrays_over_a_row_show_its_children
           Sample.constants Sample.format 0 Sample.arrayOfStruct
           (Sample.format
              (Sample.node "t/c/type/c/_inner_" "_inner_" "struct"
                 [Sample.node "t/c/type/c/_inner_/x" "x" "scalar" []]) 0)
           1
           [Sample.format
              (Sample.node "t/c/type/c/_inner_/x" "x" "scalar" []) 0]
           [Sample.contentColumn] ["t/c"] 0
           [TableRow (Sample.format
                        (Sample.node "t/c/type/c/_inner_/x" "x" "scalar" []) 0)
                     1]).
  - left. discriminate.
  - reflexivity.
  - left. reflexivity.
  - eapply ArraysOver_layer; [reflexivity | reflexivity | reflexivity |].
    apply ArraysOver_none. reflexivity.
  - reflexivity.
  - apply le_n.
  - reflexivity.
Defined.
